(** * Ademi: the user-administration micro-app

    A shallow embedding of [src/services/supabaseService.ts] (the mock
    profile store behind the session gate) and of the [App] component with
    search, toast and confirmation modal, followed by the properties of the
    specification that concern them.

    The service is a record of the module's variables and one state
    transformer per method.  The component is a state machine driven by an
    event loop: a queue of [setTimeout] timers with their due times, window
    messages and user actions arriving in between.

    Layout: JavaScript values and strings, the array heap, the service, the
    component and its event loop, the vocabulary of the properties, what
    the page shows, the plain component of [src/App.tsx], the service on
    the clock, and case-insensitive containment in the specification's
    words; then the lemmas and theorems. *)

From Stdlib Require Import String Ascii List Bool Arith ZArith Lia.
Import ListNotations.
Open Scope string_scope.
Open Scope list_scope.

(** ** JavaScript values and string methods *)

Module Js.

(** The primitive values a message field can carry.  Numbers are the
    integers and [NaN]; objects (always truthy) are not needed. *)
Inductive Value : Type :=
| Undefined
| Null
| Bool (b : bool)
| Int (z : Z)
| NaN
| Str (s : string).

(** [if (v)]: every value is truthy except [undefined], [null], [false],
    [0], [NaN] and the empty string. *)
Definition truthy (v : Value) : bool :=
  match v with
  | Undefined | Null | NaN => false
  | Bool b => b
  | Int z => negb (z =? 0)%Z
  | Str s => negb (s =? "")
  end.

(** [v === s] for a string literal [s]. *)
Definition strictEq (v : Value) (s : string) : bool :=
  match v with
  | Str t => t =? s
  | _ => false
  end.

(** [String.prototype.toLowerCase] on the ASCII range: [A]-[Z] go to
    [a]-[z], every other character is kept.  This is what the method does
    to a string of ASCII characters; the case mapping of other text is
    not modelled. *)
Definition lower (c : ascii) : ascii :=
  let n := nat_of_ascii c in
  if ((65 <=? n) && (n <=? 90))%nat then ascii_of_nat (n + 32) else c.

Fixpoint toLowerCase (s : string) : string :=
  match s with
  | EmptyString => EmptyString
  | String c s' => String (lower c) (toLowerCase s')
  end.

(** [s.includes(t)]: [t] occurs in [s] as a contiguous substring. *)
Fixpoint includes (s t : string) : bool :=
  if String.prefix t s then true
  else match s with
       | EmptyString => false
       | String _ s' => includes s' t
       end.

End Js.

(** ** Data model *)

(** Modelled from the spec: the declaration of [UserProfile] ([types.ts])
    is not among the sources; section 3 gives a profile an [id] and a
    [username], both strings, which are the fields the object literals of
    the service and the filter of the component use. *)
Record UserProfile : Type := { id : string; username : string }.

(** ** Arrays live on a heap

    [UserProfile[]] values are objects: variables hold references.  The
    program never writes into an existing array (it only builds new ones
    with spread and [filter]), so the heap is a growing list of arrays and a
    reference is an index into it. *)

Definition Ref : Type := nat.
Definition Heap : Type := list (list UserProfile).

Definition alloc (a : list UserProfile) (h : Heap) : Ref * Heap :=
  (length h, h ++ [a]).

Definition read (h : Heap) (r : Ref) : list UserProfile := nth r h [].

(** [[...a]] *)
Definition spread (r : Ref) (h : Heap) : Ref * Heap := alloc (read h r) h.

(** [a.filter(f)] *)
Definition array_filter (f : UserProfile -> bool) (r : Ref) (h : Heap)
  : Ref * Heap :=
  alloc (filter f (read h r)) h.

(** ** The service: [src/services/supabaseService.ts] *)

Module SupabaseService.

(** [new Error(message)] *)
Record Error : Type := { message : string }.

(** How the promise returned by a method settles. *)
Inductive Settled (A : Type) : Type :=
| Resolved (a : A)
| Rejected (e : Error).
Arguments Resolved {A} a.
Arguments Rejected {A} e.

(** The three rejections of the service, under the names the
    specification gives them. *)
Definition MissingCredential : Error :=
  {| message := "Authentication token is missing." |}.
Definition NotInitialized : Error :=
  {| message := "Supabase client not initialized." |}.
Definition NotFound (userId : string) : Error :=
  {| message := ("User with ID " ++ userId ++ " not found.")%string |}.

(** The module's state: the private flag of the singleton, the
    module-level variable [mockProfiles], and the heap its arrays (and the
    copies handed to callers) live in. *)
Record t : Type := {
  heap : Heap;
  isInitialized : bool;
  mockProfiles : Ref
}.

(** The records the store currently holds. *)
Definition store (s : t) : list UserProfile := read (heap s) (mockProfiles s).

(** Lines 6-12.  [uuidv4 n] is what the [n]-th call of [uuidv4()]
    returned when the module was loaded. *)
Definition initialProfiles (uuidv4 : nat -> string) : list UserProfile :=
  [ {| id := uuidv4 0; username := "alice@example.com" |};
    {| id := uuidv4 1; username := "bob@example.com" |};
    {| id := uuidv4 2; username := "charlie@example.com" |};
    {| id := uuidv4 3; username := "diana@example.com" |};
    {| id := uuidv4 4; username := "edward@example.com" |} ].

Definition initial (uuidv4 : nat -> string) : t :=
  {| heap := [initialProfiles uuidv4];
     isInitialized := false;
     mockProfiles := 0 |}.

(** Simulated network delays, in milliseconds. *)
Definition initialize_delay : nat := 500.
Definition getUsers_delay : nat := 800.
Definition deleteUser_delay : nat := 600.

(** Each method returns a promise whose executor arms a [setTimeout]; the
    functions below are the bodies of those callbacks: what happens, in
    one uninterrupted turn, when the delay has elapsed. *)

(** Lines 17-28. *)
Definition initialize (token : Js.Value) (s : t) : Settled unit * t :=
  if Js.truthy token then
    (Resolved tt,
     {| heap := heap s; isInitialized := true; mockProfiles := mockProfiles s |})
  else
    (Rejected MissingCredential, s).

(** Lines 30-40. *)
Definition getUsers (s : t) : Settled Ref * t :=
  if negb (isInitialized s) then
    (Rejected NotInitialized, s)
  else
    let (copy, h) := spread (mockProfiles s) (heap s) in
    (Resolved copy,
     {| heap := h; isInitialized := isInitialized s;
        mockProfiles := mockProfiles s |}).

(** Lines 42-59.  The promise resolves with the constant
    [{ success: true }]. *)
Definition deleteUser (userId : string) (s : t) : Settled unit * t :=
  if negb (isInitialized s) then
    (Rejected NotInitialized, s)
  else
    let initialLength := length (read (heap s) (mockProfiles s)) in
    let (kept, h) :=
      array_filter (fun p => negb (id p =? userId)) (mockProfiles s) (heap s) in
    let s' := {| heap := h; isInitialized := isInitialized s;
                 mockProfiles := kept |} in
    if (length (read h kept) <? initialLength)%nat then
      (Resolved tt, s')
    else
      (Rejected (NotFound userId), s').

(** A caller that awaits each call before the next one sees the service
    as a sequence of requests and responses. *)
Inductive Request : Type :=
| Initialize (token : Js.Value)
| GetUsers
| DeleteUser (userId : string).

Inductive Response : Type :=
| Initialized (r : Settled unit)
| Users (r : Settled Ref)
| Deleted (r : Settled unit).

Definition perform (q : Request) (s : t) : Response * t :=
  match q with
  | Initialize token => let (r, s') := initialize token s in (Initialized r, s')
  | GetUsers => let (r, s') := getUsers s in (Users r, s')
  | DeleteUser userId => let (r, s') := deleteUser userId s in (Deleted r, s')
  end.

Fixpoint after (qs : list Request) (s : t) : t :=
  match qs with
  | [] => s
  | q :: qs' => after qs' (snd (perform q s))
  end.

(** Every reference the module holds points into the heap, and no two
    stored records share an identifier (identifiers are UUIDs). *)
Definition unique_ids (l : list UserProfile) : Prop := NoDup (map id l).

Definition wf (s : t) : Prop :=
  mockProfiles s < length (heap s) /\ unique_ids (store s).

End SupabaseService.

(** ** The component: [App] with search, toast and confirmation modal *)

Module App.

Import SupabaseService (Settled, Resolved, Rejected).

(** *** What the component can show and emit *)

Inductive ToastType : Type := ToastSuccess | ToastError.
Record ToastState : Type := { message : string; type : ToastType }.

(** [event.data] of a window message: the two fields the listener reads.
    A payload without a field has [undefined] there. *)
Record MessageData : Type := { data_type : Js.Value; data_token : Js.Value }.

(** [window.parent.postMessage] *)
Inductive Posted : Type :=
| APP_LOADED
| USER_DELETED (userId : string).

(** Calls of the service's methods. *)
Inductive Call : Type :=
| CallInitialize (token : Js.Value)
| CallGetUsers
| CallDeleteUser (userId : string).

Inductive Console : Type :=
| Log (text : string)
| Warn (text : string)
| Err (text : string).

(** *** Timers

    Every asynchronous step of the program is a [setTimeout]: the
    fallback of the handshake, and the simulated latency of the three
    service methods.  The callback of a service timer stands for the
    executor's callback together with the part of the awaiting function
    that runs when the promise settles. *)
Inductive Callback : Type :=
| InitTimeout
| InitializeDone (token : Js.Value)
| GetUsersDone
| DeleteUserDone (userToDelete : UserProfile).

Record Timer : Type := { timer_id : nat; due : nat; callback : Callback }.

(** *** State *)

(** The [useState] cells, lines 16-22. *)
Record React : Type := {
  users : Ref;
  isLoading : bool;
  error : option string;
  isInitialized : bool;
  searchTerm : string;
  userToDelete : option UserProfile;
  toast : option ToastState
}.

Record Loop : Type := { now : nat; timers : list Timer; nextTimerId : nat }.

Record Output : Type := {
  calls : list Call;
  posted : list Posted;
  console : list Console
}.

Record State : Type := {
  service : SupabaseService.t;
  embedded : bool;                 (* window.self !== window.top *)
  react : React;
  initTimeout : nat;               (* the variable of the running effect *)
  loop : Loop;
  out : Output
}.

Definition with_service (v : SupabaseService.t) (s : State) : State :=
  {| service := v; embedded := embedded s; react := react s;
     initTimeout := initTimeout s; loop := loop s; out := out s |}.
Definition with_react (v : React) (s : State) : State :=
  {| service := service s; embedded := embedded s; react := v;
     initTimeout := initTimeout s; loop := loop s; out := out s |}.
Definition with_initTimeout (v : nat) (s : State) : State :=
  {| service := service s; embedded := embedded s; react := react s;
     initTimeout := v; loop := loop s; out := out s |}.
Definition with_loop (v : Loop) (s : State) : State :=
  {| service := service s; embedded := embedded s; react := react s;
     initTimeout := initTimeout s; loop := v; out := out s |}.
Definition with_out (v : Output) (s : State) : State :=
  {| service := service s; embedded := embedded s; react := react s;
     initTimeout := initTimeout s; loop := loop s; out := v |}.

Notation "s |> f" := (f s) (at level 45, left associativity, only parsing).

(** The state setters. *)
Definition setUsers (v : Ref) (s : State) : State :=
  let r := react s in
  with_react {| users := v; isLoading := isLoading r; error := error r;
                isInitialized := isInitialized r; searchTerm := searchTerm r;
                userToDelete := userToDelete r; toast := toast r |} s.
Definition setIsLoading (v : bool) (s : State) : State :=
  let r := react s in
  with_react {| users := users r; isLoading := v; error := error r;
                isInitialized := isInitialized r; searchTerm := searchTerm r;
                userToDelete := userToDelete r; toast := toast r |} s.
Definition setError (v : option string) (s : State) : State :=
  let r := react s in
  with_react {| users := users r; isLoading := isLoading r; error := v;
                isInitialized := isInitialized r; searchTerm := searchTerm r;
                userToDelete := userToDelete r; toast := toast r |} s.
Definition setIsInitialized (v : bool) (s : State) : State :=
  let r := react s in
  with_react {| users := users r; isLoading := isLoading r; error := error r;
                isInitialized := v; searchTerm := searchTerm r;
                userToDelete := userToDelete r; toast := toast r |} s.
Definition setSearchTerm (v : string) (s : State) : State :=
  let r := react s in
  with_react {| users := users r; isLoading := isLoading r; error := error r;
                isInitialized := isInitialized r; searchTerm := v;
                userToDelete := userToDelete r; toast := toast r |} s.
Definition setUserToDelete (v : option UserProfile) (s : State) : State :=
  let r := react s in
  with_react {| users := users r; isLoading := isLoading r; error := error r;
                isInitialized := isInitialized r; searchTerm := searchTerm r;
                userToDelete := v; toast := toast r |} s.
Definition setToast (v : option ToastState) (s : State) : State :=
  let r := react s in
  with_react {| users := users r; isLoading := isLoading r; error := error r;
                isInitialized := isInitialized r; searchTerm := searchTerm r;
                userToDelete := userToDelete r; toast := v |} s.

(** Outputs, in the order they are produced. *)
Definition call (c : Call) (s : State) : State :=
  let o := out s in
  with_out {| calls := calls o ++ [c]; posted := posted o;
              console := console o |} s.
Definition postMessage (m : Posted) (s : State) : State :=
  let o := out s in
  with_out {| calls := calls o; posted := posted o ++ [m];
              console := console o |} s.
Definition print (c : Console) (s : State) : State :=
  let o := out s in
  with_out {| calls := calls o; posted := posted o;
              console := console o ++ [c] |} s.

(** [setTimeout(cb, delay)]: the new timer takes the next identifier. *)
Definition setTimeout (cb : Callback) (delay : nat) (s : State) : State :=
  let l := loop s in
  with_loop {| now := now l;
               timers := timers l ++
                 [{| timer_id := nextTimerId l; due := now l + delay;
                     callback := cb |}];
               nextTimerId := S (nextTimerId l) |} s.

(** [clearTimeout(id)] *)
Definition clearTimeout (tid : nat) (s : State) : State :=
  let l := loop s in
  with_loop {| now := now l;
               timers := filter (fun t => negb (timer_id t =? tid)%nat) (timers l);
               nextTimerId := nextTimerId l |} s.

(** The clock moves to the time of the event being handled. *)
Definition advance (time : nat) (s : State) : State :=
  let l := loop s in
  with_loop {| now := Nat.max (now l) time; timers := timers l;
               nextTimerId := nextTimerId l |} s.

(** *** The functions of the component *)

Definition fallback_delay : nat := 1500.
Definition dev_mock_token : Js.Value := Js.Str "dev-mock-token".

(** Lines 24-37, up to the [await]: the rest runs in [GetUsersDone]. *)
Definition loadUsers (s : State) : State :=
  s |> setIsLoading true
    |> setError None
    |> call CallGetUsers
    |> setTimeout GetUsersDone SupabaseService.getUsers_delay.

(** Lines 42-58, up to the [await]: the rest runs in [InitializeDone].
    The [isInitialized] read here is the one the effect closed over; the
    effect is set up again whenever that state changes (line 91), so the
    installed handlers always see the current value. *)
Definition initializeApp (token : Js.Value) (s : State) : State :=
  if isInitialized (react s) then s
  else
    s |> call (CallInitialize token)
      |> setTimeout (InitializeDone token) SupabaseService.initialize_delay.

(** Lines 60-66. *)
Definition handleMessage (data : MessageData) (s : State) : State :=
  if Js.strictEq (data_type data) "AUTH_TOKEN" then
    s |> print (Log "AUTH_TOKEN received from parent app.")
      |> clearTimeout (initTimeout s)
      |> initializeApp (data_token data)
  else s.

(** Lines 68-84: the body of the effect. *)
Definition setup (s : State) : State :=
  let s :=
    if embedded s then
      s |> print (Log "App loaded, sending APP_LOADED message to parent.")
        |> postMessage APP_LOADED
    else s in
  s |> with_initTimeout (nextTimerId (loop s))
    |> setTimeout InitTimeout fallback_delay.

(** Lines 87-90: the cleanup of the effect. *)
Definition cleanup (s : State) : State := s |> clearTimeout (initTimeout s).

(** Lines 79-84: the callback of the fallback timer. *)
Definition initTimeoutFired (s : State) : State :=
  if negb (isInitialized (react s)) then
    s |> print (Warn "No token received, initializing in dev mode as a fallback.")
      |> initializeApp dev_mock_token
  else s.

(** Lines 93-95. *)
Definition handleDeleteRequest (user : UserProfile) (s : State) : State :=
  s |> setUserToDelete (Some user).

(** Lines 97-101, up to the [await]: the rest runs in [DeleteUserDone]. *)
Definition handleConfirmDelete (s : State) : State :=
  match userToDelete (react s) with
  | None => s
  | Some u =>
      s |> call (CallDeleteUser (id u))
        |> setTimeout (DeleteUserDone u) SupabaseService.deleteUser_delay
  end.

(** Lines 49-57, after [initialize] has settled.  The service only
    rejects with [Error] objects, so [errorMessage] is the error's message.
    When [isInitialized] changes, React renders again and runs the cleanup
    and the body of the effect before the next event is handled. *)
Definition initializeDone (token : Js.Value) (s : State) : State :=
  let (r, svc) := SupabaseService.initialize token (service s) in
  let s := with_service svc s in
  match r with
  | Resolved _ =>
      let changed := negb (isInitialized (react s)) in
      let s := s |> print (Log "Supabase client initialized.")
                 |> setIsInitialized true
                 |> loadUsers in
      if changed then s |> cleanup |> setup else s
  | Rejected e =>
      s |> setError (Some ("Initialization failed: " ++
                           SupabaseService.message e)%string)
        |> setIsLoading false
  end.

(** Lines 28-36, after [getUsers] has settled. *)
Definition getUsersDone (s : State) : State :=
  let (r, svc) := SupabaseService.getUsers (service s) in
  let s := with_service svc s in
  match r with
  | Resolved fetchedUsers =>
      s |> setUsers fetchedUsers |> setIsLoading false
  | Rejected e =>
      s |> setError (Some ("Failed to load users: " ++
                           SupabaseService.message e)%string)
        |> print (Err (SupabaseService.message e))
        |> setIsLoading false
  end.

(** Lines 101-115, after [deleteUser] has settled. *)
Definition deleteUserDone (u : UserProfile) (s : State) : State :=
  let (r, svc) := SupabaseService.deleteUser (id u) (service s) in
  let s := with_service svc s in
  match r with
  | Resolved _ =>
      let s := s |> print (Log ("User " ++ id u ++ " deleted.")%string) in
      let s := if embedded s then s |> postMessage (USER_DELETED (id u)) else s in
      s |> setToast (Some {| message := "Usuário deletado com sucesso!";
                             type := ToastSuccess |})
        |> setUserToDelete None
        |> loadUsers
  | Rejected e =>
      s |> setToast (Some {| message := ("Falha ao deletar usuário: " ++
                                         SupabaseService.message e)%string;
                             type := ToastError |})
        |> print (Err ("Failed to delete user: " ++
                       SupabaseService.message e)%string)
        |> setUserToDelete None
  end.

(** Lines 118-121. *)
Definition matches (searchTerm : string) (user : UserProfile) : bool :=
  Js.includes (Js.toLowerCase (username user)) (Js.toLowerCase searchTerm).

Definition filteredUsers (users : Ref) (searchTerm : string) (h : Heap)
  : Ref * Heap :=
  array_filter (matches searchTerm) users h.

(** *** The event loop *)

(** What reaches the component from outside: window messages and the
    user's actions, each named after the prop it is wired to in the JSX
    ([onDeleteUser], [onConfirm], the [onClose] of the modal, the
    [onChange] of the search box, the [onClose] of the toast).  The child
    components decide when these can happen; here they can happen at any
    time. *)
Inductive Input : Type :=
| Message (data : MessageData)
| DeleteRequest (user : UserProfile)
| ConfirmDelete
| CloseModal
| Search (value : string)
| CloseToast.

Definition handle (i : Input) (s : State) : State :=
  match i with
  | Message data => handleMessage data s
  | DeleteRequest user => handleDeleteRequest user s
  | ConfirmDelete => handleConfirmDelete s
  | CloseModal => s |> setUserToDelete None
  | Search value => s |> setSearchTerm value
  | CloseToast => s |> setToast None
  end.

Definition fire (cb : Callback) (s : State) : State :=
  match cb with
  | InitTimeout => initTimeoutFired s
  | InitializeDone token => initializeDone token s
  | GetUsersDone => getUsersDone s
  | DeleteUserDone u => deleteUserDone u s
  end.

(** The pending timer that fires next: the earliest one, the oldest among
    equals. *)
Fixpoint earliest (ts : list Timer) : option Timer :=
  match ts with
  | [] => None
  | t :: ts' =>
      match earliest ts' with
      | None => Some t
      | Some t' => if (due t <=? due t')%nat then Some t else Some t'
      end
  end.

(** One turn of the event loop: either the next timer fires, or an input
    arrives at a time no pending timer is overdue at. *)
Inductive Event : Type :=
| TimerFires
| Arrives (time : nat) (i : Input).

Definition step (e : Event) (s : State) : option State :=
  match e with
  | TimerFires =>
      match earliest (timers (loop s)) with
      | None => None
      | Some t =>
          Some (s |> advance (due t) |> clearTimeout (timer_id t)
                  |> fire (callback t))
      end
  | Arrives time i =>
      if ((now (loop s) <=? time)
          && forallb (fun t => time <=? due t) (timers (loop s)))%nat
      then Some (s |> advance time |> handle i)
      else None
  end.

Fixpoint run (es : list Event) (s : State) : option State :=
  match es with
  | [] => Some s
  | e :: es' =>
      match step e s with
      | None => None
      | Some s' => run es' s'
      end
  end.

(** The first render and the first run of the effect, at time 0.  The
    empty array of [useState<UserProfile[]>([])] is allocated on the heap
    the service's arrays live in. *)
Definition mount (svc : SupabaseService.t) (inFrame : bool) : State :=
  let (empty, h) := alloc [] (SupabaseService.heap svc) in
  setup
    {| service := {| SupabaseService.heap := h;
                     SupabaseService.isInitialized :=
                       SupabaseService.isInitialized svc;
                     SupabaseService.mockProfiles :=
                       SupabaseService.mockProfiles svc |};
       embedded := inFrame;
       react := {| users := empty; isLoading := true; error := None;
                   isInitialized := false; searchTerm := "";
                   userToDelete := None; toast := None |};
       initTimeout := 0;
       loop := {| now := 0; timers := []; nextTimerId := 1 |};
       out := {| calls := []; posted := []; console := [] |} |}.

End App.

(** ** Vocabulary of the handshake properties *)

Module Handshake.

Import App.

(** The message the parent sends: [{ type: "AUTH_TOKEN", token }]. *)
Definition auth_token (token : Js.Value) : MessageData :=
  {| data_type := Js.Str "AUTH_TOKEN"; data_token := token |}.

(** An input the listener accepts as a credential message. *)
Definition is_credential (i : Input) : bool :=
  match i with
  | Message data => Js.strictEq (data_type data) "AUTH_TOKEN"
  | _ => false
  end.

(** A credential message whose token is truthy. *)
Definition carries_token (i : Input) : bool :=
  match i with
  | Message data =>
      Js.strictEq (data_type data) "AUTH_TOKEN" && Js.truthy (data_token data)
  | _ => false
  end.

Definition credential_event (e : Event) : bool :=
  match e with
  | TimerFires => false
  | Arrives _ i => is_credential i
  end.

Definition token_event (e : Event) : bool :=
  match e with
  | TimerFires => false
  | Arrives _ i => carries_token i
  end.

(** A credential message, if any, arrives after the fallback window. *)
Definition late_credential (e : Event) : Prop :=
  match e with
  | TimerFires => True
  | Arrives time i => is_credential i = true -> fallback_delay < time
  end.

(** The fallback announces itself on the console (line 81): counting the
    warning counts the runs of the fallback initialization. *)
Definition is_fallback_warning (c : Console) : bool :=
  match c with
  | Warn text =>
      text =? "No token received, initializing in dev mode as a fallback."
  | _ => false
  end.

Definition fallbacks (s : State) : nat :=
  length (filter is_fallback_warning (console (out s))).

Definition is_initialize (c : Call) : bool :=
  match c with
  | CallInitialize _ => true
  | _ => false
  end.

(** The calls of [supabaseService.initialize] made so far. *)
Definition initializations (s : State) : list Call :=
  filter is_initialize (calls (out s)).

Definition is_InitTimeout (cb : Callback) : bool :=
  match cb with
  | InitTimeout => true
  | _ => false
  end.

(** The fallback timers still pending. *)
Definition pending_fallbacks (s : State) : list Timer :=
  filter (fun tm => is_InitTimeout (callback tm)) (timers (loop s)).

(** The bookkeeping of the timers: none is overdue, identifiers are
    distinct and older than the next one, and the pending fallback timer
    is the timer the running effect holds in [initTimeout]. *)
Record timers_wf (s : State) : Prop := {
  wf_due : forall tm, In tm (timers (loop s)) -> now (loop s) <= due tm;
  wf_ids : NoDup (map timer_id (timers (loop s)));
  wf_next : forall tm, In tm (timers (loop s)) ->
                       timer_id tm < nextTimerId (loop s);
  wf_held : initTimeout s < nextTimerId (loop s);
  wf_init : forall tm, In tm (timers (loop s)) ->
                       (callback tm = InitTimeout <->
                        timer_id tm = initTimeout s)
}.

(** A fallback timer that is still pending will find [isInitialized]
    set, and do nothing. *)
Definition inert_fallback (s : State) : Prop :=
  pending_fallbacks s = [] \/ isInitialized (react s) = true.

(** The handshake has not started: the fallback timer of the first
    effect is pending, due at the end of the fallback window, and
    [initialize] has not been called. *)
Record waiting (s : State) : Prop := {
  waiting_flag : isInitialized (react s) = false;
  waiting_timer : exists tm, In tm (timers (loop s)) /\
                             callback tm = InitTimeout /\
                             due tm = fallback_delay;
  waiting_calls : initializations s = [];
  waiting_fallbacks : fallbacks s = 0;
  waiting_pending : forall tm token, In tm (timers (loop s)) ->
                                     callback tm <> InitializeDone token
}.

(** The fallback initialization has run, once, and cannot run again. *)
Record fallen_back (s : State) : Prop := {
  fallen_count : fallbacks s = 1;
  fallen_call : In (CallInitialize dev_mock_token) (calls (out s));
  fallen_inert : inert_fallback s
}.

(** The gate is closed and nothing in flight can open it or fetch the
    list: no [getUsers] in flight, and only falsy tokens in flight. *)
Record closed (s : State) : Prop := {
  closed_service : SupabaseService.isInitialized (service s) = false;
  closed_flag : isInitialized (react s) = false;
  closed_timers : forall tm, In tm (timers (loop s)) ->
    match callback tm with
    | GetUsersDone => False
    | InitializeDone token => Js.truthy token = false
    | InitTimeout | DeleteUserDone _ => True
    end;
  closed_calls : ~ In CallGetUsers (calls (out s));
  closed_users : read (SupabaseService.heap (service s)) (users (react s)) = []
}.

(** The page shows the failure of an initialization without token. *)
Definition missing_credential_shown (s : State) : Prop :=
  error (react s) =
    Some "Initialization failed: Authentication token is missing." /\
  isLoading (react s) = false.

(** A call of [initialize] is in flight and settles at [time]. *)
Definition initialize_pending (time : nat) (s : State) : Prop :=
  exists tm token, In tm (timers (loop s)) /\
                   callback tm = InitializeDone token /\ due tm = time.

(** A call of [initialize] with a truthy token is in flight and settles
    at [time]. *)
Definition token_pending (time : nat) (s : State) : Prop :=
  exists tm token, In tm (timers (loop s)) /\
                   callback tm = InitializeDone token /\
                   Js.truthy token = true /\ due tm = time.

(** When the [initialize] call of the fallback settles. *)
Definition fallback_settles : nat :=
  fallback_delay + SupabaseService.initialize_delay.

(** The gate is open and the component knows it. *)
Definition session_ready (s : State) : Prop :=
  SupabaseService.isInitialized (service s) = true /\
  isInitialized (react s) = true.

(** What an observer of the session, the store and the emitted
    operations can tell apart. *)
Definition observable (s : State)
  : SupabaseService.t * React * list Call * list Posted :=
  (service s, react s, calls (out s), posted (out s)).

(** The identifiers of the demonstration runs. *)
Definition demo_uuid (n : nat) : string :=
  ("00000000-0000-4000-8000-00000000000" ++ String (ascii_of_nat (48 + n)) "")%string.

Definition demo : State := mount (SupabaseService.initial demo_uuid) true.

End Handshake.

(** ** What a sequence of requests amounts to *)

Module Requests.

Import SupabaseService.

(** Whether the gate is open after the requests, given whether it was
    open before them. *)
Fixpoint opened_after (qs : list Request) (opened : bool) : bool :=
  match qs with
  | [] => opened
  | Initialize token :: qs' => opened_after qs' (opened || Js.truthy token)
  | _ :: qs' => opened_after qs' opened
  end.

(** The identifiers whose deletion was requested while the gate was
    open. *)
Fixpoint deleted_by (qs : list Request) (opened : bool) : list string :=
  match qs with
  | [] => []
  | Initialize token :: qs' => deleted_by qs' (opened || Js.truthy token)
  | GetUsers :: qs' => deleted_by qs' opened
  | DeleteUser userId :: qs' =>
      if opened then userId :: deleted_by qs' opened
      else deleted_by qs' opened
  end.

(** A record none of these identifiers names. *)
Definition survives (gone : list string) (p : UserProfile) : bool :=
  negb (existsb (String.eqb (id p)) gone).

End Requests.

(** ** What the page shows *)

Module Page.

Import App.

(** The alternatives of [renderContent], lines 123-166: the two spinners,
    the error box, the two empty states, and the search box with the
    table. *)
Inductive View : Type :=
| AwaitingAuthorization
| LoadingUsers
| ErrorBox (text : string)
| NoUsers
| NoMatch
| Table (rows : list UserProfile).

(** The array the component displays. *)
Definition displayed (s : State) : list UserProfile :=
  read (SupabaseService.heap (service s)) (users (react s)).

(** [if (error)]: a string that is neither [null] nor empty. *)
Definition error_shown (s : State) : option string :=
  match error (react s) with
  | Some text => if text =? "" then None else Some text
  | None => None
  end.

(** Lines 123-166. *)
Definition renderContent (s : State) : View :=
  if negb (isInitialized (react s)) && isLoading (react s) then
    AwaitingAuthorization
  else if isLoading (react s) then LoadingUsers
  else
    match error_shown s with
    | Some text => ErrorBox text
    | None =>
        if (length (displayed s) =? 0)%nat then NoUsers
        else
          let rows := filter (matches (searchTerm (react s))) (displayed s) in
          if (0 <? length rows)%nat then Table rows else NoMatch
    end.

(** Line 172: the modal is open while a deletion awaits confirmation. *)
Definition modalOpen (s : State) : bool :=
  match userToDelete (react s) with
  | Some _ => true
  | None => false
  end.

(** A timer with this callback is pending. *)
Definition pending (cb : Callback) (s : State) : Prop :=
  exists tm, In tm (timers (loop s)) /\ callback tm = cb.

(** The references the component and the service hold point into the
    heap. *)
Definition refs_valid (s : State) : Prop :=
  users (react s) < length (SupabaseService.heap (service s)) /\
  SupabaseService.mockProfiles (service s) <
    length (SupabaseService.heap (service s)).

(** Every array on the heap is made of records of [origin]. *)
Definition made_of (origin : list UserProfile) (s : State) : Prop :=
  forall r, incl (read (SupabaseService.heap (service s)) r) origin.

(** [getUsers] is only in flight with the gate open, and the page error
    is absent or the missing-token failure. *)
Record fetch_safe (s : State) : Prop := {
  fetch_open : forall tm, In tm (timers (loop s)) ->
                          callback tm = GetUsersDone ->
                          SupabaseService.isInitialized (service s) = true;
  fetch_error : error (react s) = None \/
                error (react s) =
                  Some "Initialization failed: Authentication token is missing."
}.

(** With the gate open, the displayed array holds the store's records
    unless a [getUsers] is in flight. *)
Definition in_sync (s : State) : Prop :=
  SupabaseService.isInitialized (service s) = false \/
  pending GetUsersDone s \/
  displayed s = SupabaseService.store (service s).

(** How many times [APP_LOADED] was posted. *)
Definition is_APP_LOADED (m : Posted) : bool :=
  match m with
  | APP_LOADED => true
  | USER_DELETED _ => false
  end.

Definition app_loaded_count (s : State) : nat :=
  length (filter is_APP_LOADED (posted (out s))).

(** Every [USER_DELETED] that was posted names an identifier the store
    no longer holds. *)
Definition deletions_truthful (s : State) : Prop :=
  forall userId, In (USER_DELETED userId) (posted (out s)) ->
                 ~ In userId (map id (SupabaseService.store (service s))).

End Page.

(** ** The component of [src/App.tsx]

    The plain variant of the component: no fallback timer, no search, no
    toast; deletions are confirmed with [window.confirm] and their
    failures are reported with [setError] and [alert]. *)

Module BasicApp.

Import SupabaseService (Settled, Resolved, Rejected).

Notation "s |> f" := (f s) (at level 45, left associativity, only parsing).

(** The pending continuations: the three service calls, each with the
    part of the awaiting function that runs when it settles. *)
Inductive Callback : Type :=
| InitializeDone (token : Js.Value)
| GetUsersDone
| DeleteUserDone (userId : string).

(** No timer is ever cleared here, so a timer needs no identifier. *)
Record Timer : Type := { due : nat; callback : Callback }.

(** The [useState] cells, lines 9-12. *)
Record React : Type := {
  users : Ref;
  isLoading : bool;
  error : option string;
  isInitialized : bool
}.

Record State : Type := {
  service : SupabaseService.t;
  react : React;
  loadListener : bool;             (* the listener of line 63 is installed *)
  now : nat;
  timers : list Timer;
  out : App.Output;
  alerts : list string
}.

Definition with_service (v : SupabaseService.t) (s : State) : State :=
  {| service := v; react := react s; loadListener := loadListener s;
     now := now s; timers := timers s; out := out s; alerts := alerts s |}.
Definition with_react (v : React) (s : State) : State :=
  {| service := service s; react := v; loadListener := loadListener s;
     now := now s; timers := timers s; out := out s; alerts := alerts s |}.
Definition with_out (v : App.Output) (s : State) : State :=
  {| service := service s; react := react s; loadListener := loadListener s;
     now := now s; timers := timers s; out := v; alerts := alerts s |}.

Definition setUsers (v : Ref) (s : State) : State :=
  let r := react s in
  with_react {| users := v; isLoading := isLoading r; error := error r;
                isInitialized := isInitialized r |} s.
Definition setIsLoading (v : bool) (s : State) : State :=
  let r := react s in
  with_react {| users := users r; isLoading := v; error := error r;
                isInitialized := isInitialized r |} s.
Definition setError (v : option string) (s : State) : State :=
  let r := react s in
  with_react {| users := users r; isLoading := isLoading r; error := v;
                isInitialized := isInitialized r |} s.
Definition setIsInitialized (v : bool) (s : State) : State :=
  let r := react s in
  with_react {| users := users r; isLoading := isLoading r; error := error r;
                isInitialized := v |} s.

Definition call (c : App.Call) (s : State) : State :=
  let o := out s in
  with_out {| App.calls := App.calls o ++ [c]; App.posted := App.posted o;
              App.console := App.console o |} s.
Definition postMessage (m : App.Posted) (s : State) : State :=
  let o := out s in
  with_out {| App.calls := App.calls o; App.posted := App.posted o ++ [m];
              App.console := App.console o |} s.
Definition print (c : App.Console) (s : State) : State :=
  let o := out s in
  with_out {| App.calls := App.calls o; App.posted := App.posted o;
              App.console := App.console o ++ [c] |} s.
Definition alert (text : string) (s : State) : State :=
  {| service := service s; react := react s; loadListener := loadListener s;
     now := now s; timers := timers s; out := out s;
     alerts := alerts s ++ [text] |}.

Definition setTimeout (cb : Callback) (delay : nat) (s : State) : State :=
  {| service := service s; react := react s; loadListener := loadListener s;
     now := now s;
     timers := timers s ++ [{| due := now s + delay; callback := cb |}];
     out := out s; alerts := alerts s |}.

(** Lines 14-27, up to the [await]. *)
Definition loadUsers (s : State) : State :=
  s |> setIsLoading true
    |> setError None
    |> call App.CallGetUsers
    |> setTimeout GetUsersDone SupabaseService.getUsers_delay.

(** Lines 18-26, after [getUsers] has settled. *)
Definition getUsersDone (s : State) : State :=
  let (r, svc) := SupabaseService.getUsers (service s) in
  let s := with_service svc s in
  match r with
  | Resolved fetchedUsers =>
      s |> setUsers fetchedUsers |> setIsLoading false
  | Rejected e =>
      s |> setError (Some ("Failed to load users: " ++
                           SupabaseService.message e)%string)
        |> print (App.Err (SupabaseService.message e))
        |> setIsLoading false
  end.

(** Lines 30-34, up to the [await].  The listener is installed again
    whenever [isInitialized] changes (line 51), so it reads the current
    value. *)
Definition handleMessage (data : App.MessageData) (s : State) : State :=
  if Js.strictEq (App.data_type data) "AUTH_TOKEN"
     && negb (isInitialized (react s)) then
    s |> print (App.Log "AUTH_TOKEN received from parent app.")
      |> call (App.CallInitialize (App.data_token data))
      |> setTimeout (InitializeDone (App.data_token data))
           SupabaseService.initialize_delay
  else s.

(** Lines 34-42, after [initialize] has settled. *)
Definition initializeDone (token : Js.Value) (s : State) : State :=
  let (r, svc) := SupabaseService.initialize token (service s) in
  let s := with_service svc s in
  match r with
  | Resolved _ =>
      s |> print (App.Log "Supabase client initialized.")
        |> setIsInitialized true
        |> loadUsers
  | Rejected e =>
      s |> setError (Some ("Initialization failed: " ++
                           SupabaseService.message e)%string)
        |> setIsLoading false
  end.

(** Lines 54-57.  Outside a frame [window.parent] is the window itself:
    what is posted comes back to [handleMessage], which ignores every type
    but [AUTH_TOKEN]. *)
Definition handleLoad (s : State) : State :=
  s |> print (App.Log "App loaded, sending APP_LOADED message to parent.")
    |> postMessage App.APP_LOADED.

(** Lines 68-71, up to the [await]; [confirmed] is the answer
    [window.confirm] returns. *)
Definition handleDeleteUser (userId : string) (confirmed : bool) (s : State)
  : State :=
  if confirmed then
    s |> call (App.CallDeleteUser userId)
      |> setTimeout (DeleteUserDone userId) SupabaseService.deleteUser_delay
  else s.

(** Lines 71-81, after [deleteUser] has settled. *)
Definition deleteUserDone (userId : string) (s : State) : State :=
  let (r, svc) := SupabaseService.deleteUser userId (service s) in
  let s := with_service svc s in
  match r with
  | Resolved _ =>
      s |> print (App.Log ("User " ++ userId ++ " deleted.")%string)
        |> postMessage (App.USER_DELETED userId)
        |> loadUsers
  | Rejected e =>
      s |> setError (Some ("Failed to delete user: " ++
                           SupabaseService.message e)%string)
        |> alert ("Error: " ++ SupabaseService.message e)%string
  end.

(** Lines 85-113. *)
Definition renderContent (s : State) : Page.View :=
  if negb (isInitialized (react s)) && isLoading (react s) then
    Page.AwaitingAuthorization
  else if isLoading (react s) then Page.LoadingUsers
  else
    match error (react s) with
    | Some (String c text) => Page.ErrorBox (String c text)
    | _ =>
        let rows := read (SupabaseService.heap (service s)) (users (react s)) in
        if (length rows =? 0)%nat then Page.NoUsers else Page.Table rows
    end.

(** What reaches the component: window messages, the [load] event of the
    window, and a click on a delete button together with the answer given
    to [window.confirm]. *)
Inductive Input : Type :=
| Message (data : App.MessageData)
| Load
| DeleteUser (userId : string) (confirmed : bool).

Definition handle (i : Input) (s : State) : State :=
  match i with
  | Message data => handleMessage data s
  | Load => if loadListener s then handleLoad s else s
  | DeleteUser userId confirmed => handleDeleteUser userId confirmed s
  end.

Definition fire (cb : Callback) (s : State) : State :=
  match cb with
  | InitializeDone token => initializeDone token s
  | GetUsersDone => getUsersDone s
  | DeleteUserDone userId => deleteUserDone userId s
  end.

(** The timer that fires next, the oldest among the earliest, and the
    timers that stay. *)
Fixpoint next (ts : list Timer) : option (Timer * list Timer) :=
  match ts with
  | [] => None
  | t :: ts' =>
      match next ts' with
      | None => Some (t, [])
      | Some (t', rest) =>
          if (due t <=? due t')%nat then Some (t, ts')
          else Some (t', t :: rest)
      end
  end.

Definition at_time (time : nat) (ts : list Timer) (s : State) : State :=
  {| service := service s; react := react s; loadListener := loadListener s;
     now := Nat.max (now s) time; timers := ts; out := out s;
     alerts := alerts s |}.

Inductive Event : Type :=
| TimerFires
| Arrives (time : nat) (i : Input).

Definition step (e : Event) (s : State) : option State :=
  match e with
  | TimerFires =>
      match next (timers s) with
      | None => None
      | Some (t, rest) => Some (s |> at_time (due t) rest |> fire (callback t))
      end
  | Arrives time i =>
      if ((now s <=? time)
          && forallb (fun t => time <=? due t) (timers s))%nat
      then Some (s |> at_time time (timers s) |> handle i)
      else None
  end.

Fixpoint run (es : list Event) (s : State) : option State :=
  match es with
  | [] => Some s
  | e :: es' =>
      match step e s with
      | None => None
      | Some s' => run es' s'
      end
  end.

(** The first render and the two effects, at time 0.  [complete] is
    [document.readyState === 'complete'] (line 60): the page announces
    itself at once, or installs the [load] listener. *)
Definition mount (svc : SupabaseService.t) (complete : bool) : State :=
  let (empty, h) := alloc [] (SupabaseService.heap svc) in
  let s :=
    {| service := {| SupabaseService.heap := h;
                     SupabaseService.isInitialized :=
                       SupabaseService.isInitialized svc;
                     SupabaseService.mockProfiles :=
                       SupabaseService.mockProfiles svc |};
       react := {| users := empty; isLoading := true; error := None;
                   isInitialized := false |};
       loadListener := negb complete;
       now := 0; timers := [];
       out := {| App.calls := []; App.posted := []; App.console := [] |};
       alerts := [] |} in
  if complete then handleLoad s else s.

(** *** Vocabulary of the properties *)

Definition is_credential (e : Event) : bool :=
  match e with
  | Arrives _ (Message data) => Js.strictEq (App.data_type data) "AUTH_TOKEN"
  | _ => false
  end.

Definition is_Load (e : Event) : bool :=
  match e with
  | Arrives _ Load => true
  | _ => false
  end.

Definition app_loaded_count (s : State) : nat :=
  length (filter Page.is_APP_LOADED (App.posted (out s))).

Definition session_ready (s : State) : Prop :=
  SupabaseService.isInitialized (service s) = true /\
  isInitialized (react s) = true.

(** An [initialize] call with a token is in flight and settles at
    [time]. *)
Definition token_pending (time : nat) (s : State) : Prop :=
  exists tm token, In tm (timers s) /\ callback tm = InitializeDone token /\
                   Js.truthy token = true /\ due tm = time.

(** No pending timer is overdue. *)
Definition on_time (s : State) : Prop :=
  forall tm, In tm (timers s) -> now s <= due tm.

(** The handshake has not begun: nothing but deletions was called or is
    in flight. *)
Record idle (s : State) : Prop := {
  idle_gate : SupabaseService.isInitialized (service s) = false;
  idle_flag : isInitialized (react s) = false;
  idle_loading : isLoading (react s) = true;
  idle_timers : forall tm, In tm (timers s) ->
                           exists userId, callback tm = DeleteUserDone userId;
  idle_calls : forall c, In c (App.calls (out s)) ->
                         exists userId, c = App.CallDeleteUser userId
}.

(** The errors the page can hold. *)
Definition error_known (s : State) : Prop :=
  error (react s) = None \/
  error (react s) =
    Some "Initialization failed: Authentication token is missing." \/
  exists e, error (react s) =
              Some ("Failed to delete user: " ++ SupabaseService.message e)%string.

(** [getUsers] is called, and in flight, only with the gate open. *)
Record fetch_gated (s : State) : Prop := {
  gated_timers : forall tm, In tm (timers s) -> callback tm = GetUsersDone ->
                            SupabaseService.isInitialized (service s) = true;
  gated_calls : In App.CallGetUsers (App.calls (out s)) ->
                SupabaseService.isInitialized (service s) = true;
  gated_error : error_known s
}.

End BasicApp.

(** ** The service on the clock

    A call of a method only arms a [setTimeout] and returns the pending
    promise (lines 18-19, 31-32 and 43-44): the body of the method, the
    test of [isInitialized] included, runs in the callback of the timer,
    when the simulated latency has elapsed.  A client of the service is
    therefore a sequence of calls, each made at some time, interleaved
    with the settlements of the calls in flight. *)

Module ServiceClock.

Import SupabaseService.

(** The latency of a call, lines 26, 38 and 57. *)
Definition delay (q : Request) : nat :=
  match q with
  | Initialize _ => initialize_delay
  | GetUsers => getUsers_delay
  | DeleteUser _ => deleteUser_delay
  end.

(** A call in flight: the promise it returned, the time its timer is due
    at, and the method called with its argument. *)
Record Call : Type := { promise : nat; due : nat; request : Request }.

Record State : Type := {
  service : t;
  now : nat;
  inflight : list Call;
  nextPromise : nat;
  settled : list (nat * Response)   (* how each promise settled, in order *)
}.

(** The service as the module is loaded: nothing called yet. *)
Definition start (svc : t) : State :=
  {| service := svc; now := 0; inflight := []; nextPromise := 0;
     settled := [] |}.

(** The call that settles next: the earliest due, the oldest among
    equals; and the calls that stay in flight. *)
Fixpoint next (cs : list Call) : option (Call * list Call) :=
  match cs with
  | [] => None
  | c :: cs' =>
      match next cs' with
      | None => Some (c, [])
      | Some (c', rest) =>
          if (due c <=? due c')%nat then Some (c, cs')
          else Some (c', c :: rest)
      end
  end.

(** The client calls a method at [time], or the timer of the next call
    in flight fires and the body of its method runs. *)
Inductive Event : Type :=
| Calls (time : nat) (q : Request)
| Settles.

Definition step (e : Event) (s : State) : option State :=
  match e with
  | Calls time q =>
      if ((now s <=? time)
          && forallb (fun c => time <=? due c) (inflight s))%nat
      then
        Some {| service := service s; now := time;
                inflight := inflight s ++
                  [{| promise := nextPromise s; due := time + delay q;
                      request := q |}];
                nextPromise := S (nextPromise s);
                settled := settled s |}
      else None
  | Settles =>
      match next (inflight s) with
      | None => None
      | Some (c, rest) =>
          let (r, svc) := perform (request c) (service s) in
          Some {| service := svc; now := Nat.max (now s) (due c);
                  inflight := rest; nextPromise := nextPromise s;
                  settled := settled s ++ [(promise c, r)] |}
      end
  end.

Fixpoint run (es : list Event) (s : State) : option State :=
  match es with
  | [] => Some s
  | e :: es' =>
      match step e s with
      | None => None
      | Some s' => run es' s'
      end
  end.

(** A [getUsers] or [deleteUser] promise rejected with the
    "not initialized" error. *)
Definition fails_NotInitialized (r : Response) : Prop :=
  r = Users (Rejected NotInitialized) \/
  r = Deleted (Rejected NotInitialized).

(** A promise that brought nothing about: one of the two above, or an
    [initialize] rejected for its missing token. *)
Definition rejected_closed (r : Response) : Prop :=
  fails_NotInitialized r \/ r = Initialized (Rejected MissingCredential).

(** A call of one of the two methods that read the store. *)
Definition reads_store (q : Request) : bool :=
  match q with
  | Initialize _ => false
  | GetUsers | DeleteUser _ => true
  end.

End ServiceClock.

(** ** Case-insensitive containment, in the specification's words

    The specification asks for a case-insensitive substring match.  Two
    characters are the same up to case when they are equal or are the
    upper-case and the lower-case form of one of the letters [A] to [Z];
    a term is contained in a name when the name has a piece of the term's
    length whose characters are, one by one, those of the term up to
    case.  Nothing here lower-cases a string.

    The model of [toLowerCase] is the case mapping of the ASCII range,
    which is what [String.prototype.toLowerCase] does to a string of
    ASCII characters; on other text the Unicode case mapping applies,
    which is not part of this repository.  Statements about the filter
    over arbitrary names and terms are therefore made for ASCII text. *)

Module CaseInsensitive.

Definition is_ascii (c : ascii) : bool := (nat_of_ascii c <? 128)%nat.

Fixpoint ascii_only (s : string) : bool :=
  match s with
  | EmptyString => true
  | String c s' => is_ascii c && ascii_only s'
  end.







End CaseInsensitive.

(** * Properties *)

(** ** Strings *)

Section Strings.

Lemma prefix_iff (t s : string) :
  String.prefix t s = true <-> exists b, s = (t ++ b)%string.
Proof.
  revert s; induction t as [|c t IH]; intros s; simpl.
  - split; [exists s; reflexivity | intros _; destruct s; reflexivity].
  - destruct s as [|d s]; simpl.
    + split; [discriminate | intros [b H]; discriminate].
    + destruct (Ascii.ascii_dec c d) as [->|ne].
      * rewrite (IH s). split; intros [b H]; exists b; [now subst | now inversion H].
      * split; [discriminate | intros [b H]; congruence].
Qed.

Lemma includes_unfold (s t : string) :
  Js.includes s t =
  if String.prefix t s then true
  else match s with
       | EmptyString => false
       | String _ s' => Js.includes s' t
       end.
Proof. destruct s; reflexivity. Qed.

(** [includes] is the substring test. *)
Lemma includes_iff (s t : string) :
  Js.includes s t = true <-> exists a b, s = (a ++ t ++ b)%string.
Proof.
  induction s as [|c s IH]; rewrite includes_unfold.
  - destruct (String.prefix t "") eqn:P.
    + split; [intros _ | reflexivity].
      apply prefix_iff in P as [b H]. exists "", b. exact H.
    + split; [discriminate|]. intros [a [b H]].
      destruct a; simpl in H; [|discriminate].
      assert (String.prefix t "" = true) by (apply prefix_iff; eauto).
      congruence.
  - destruct (String.prefix t (String c s)) eqn:P.
    + split; [intros _ | reflexivity].
      apply prefix_iff in P as [b H]. exists "", b. exact H.
    + rewrite IH. split.
      * intros [a [b H]]. exists (String c a), b. simpl. now rewrite H.
      * intros [a [b H]]. destruct a as [|d a]; simpl in H.
        -- assert (String.prefix t (String c s) = true)
             by (apply prefix_iff; eauto).
           congruence.
        -- inversion H; subst. eauto.
Qed.




End Strings.

(** ** The array heap *)

Section HeapFacts.

(** A new array holds what it was built from; the old ones are as before. *)
Lemma read_alloc_new (a : list UserProfile) (h : Heap) :
  read (snd (alloc a h)) (fst (alloc a h)) = a.
Proof.
  unfold read, alloc; simpl.
  rewrite app_nth2 by lia. now rewrite Nat.sub_diag.
Qed.

Lemma read_alloc_old (a : list UserProfile) (h : Heap) (r : Ref) :
  r < length h -> read (snd (alloc a h)) r = read h r.
Proof. intros H. unfold read, alloc; simpl. now apply app_nth1. Qed.

Lemma read_new (a : list UserProfile) (h : Heap) :
  read (h ++ [a]) (length h) = a.
Proof. exact (read_alloc_new a h). Qed.

Lemma read_old (a : list UserProfile) (h : Heap) (r : Ref) :
  r < length h -> read (h ++ [a]) r = read h r.
Proof. exact (read_alloc_old a h r). Qed.

Lemma filter_all (A : Type) (f : A -> bool) (l : list A) :
  (forall x, In x l -> f x = true) -> filter f l = l.
Proof.
  induction l as [|x l IH]; simpl; intros H; [reflexivity|].
  rewrite (H x) by now left. f_equal. apply IH. intros; apply H; now right.
Qed.

Lemma filter_none (A : Type) (f : A -> bool) (l : list A) :
  (forall x, In x l -> f x = false) -> filter f l = [].
Proof.
  induction l as [|x l IH]; simpl; intros H; [reflexivity|].
  rewrite (H x) by now left. apply IH. intros; apply H; now right.
Qed.

Lemma filter_length_lt (A : Type) (f : A -> bool) (l : list A) (x : A) :
  In x l -> f x = false -> length (filter f l) < length l.
Proof.
  induction l as [|y l IH]; simpl; [contradiction|].
  intros [->|H] Hx.
  - rewrite Hx. pose proof (filter_length_le f l). lia.
  - specialize (IH H Hx). destruct (f y); simpl; lia.
Qed.

End HeapFacts.

(** ** The service *)

Section Service.

Import SupabaseService.

(** What [deleteUser] does once the gate is open: it installs the array
    of the records with another identifier, and settles by comparing the
    lengths. *)
Lemma deleteUser_ready (userId : string) (s : t) :
  isInitialized s = true ->
  deleteUser userId s =
  let kept := filter (fun p => negb (id p =? userId)) (store s) in
  let s' := {| heap := heap s ++ [kept]; isInitialized := true;
               mockProfiles := length (heap s) |} in
  if (length kept <? length (store s))%nat
  then (Resolved tt, s') else (Rejected (NotFound userId), s').
Proof.
  intros R. unfold deleteUser, array_filter, alloc, store. rewrite R. simpl.
  rewrite read_new. reflexivity.
Qed.

Lemma getUsers_ready (s : t) :
  isInitialized s = true ->
  getUsers s =
  (Resolved (length (heap s)),
   {| heap := heap s ++ [store s]; isInitialized := true;
      mockProfiles := mockProfiles s |}).
Proof. intros R. unfold getUsers, spread, store. rewrite R. reflexivity. Qed.

Lemma store_after_alloc (a : list UserProfile) (s : t) (b : bool) :
  mockProfiles s < length (heap s) ->
  store {| heap := heap s ++ [a]; isInitialized := b;
           mockProfiles := mockProfiles s |} = store s.
Proof. intros V. unfold store; simpl. now apply read_old. Qed.

Lemma store_new (a : list UserProfile) (h : Heap) (b : bool) :
  store {| heap := h ++ [a]; isInitialized := b; mockProfiles := length h |} = a.
Proof. unfold store; simpl. apply read_new. Qed.

(** Requests only ever extend the heap. *)
Lemma perform_heap (q : Request) (s : t) :
  exists ext, heap (snd (perform q s)) = heap s ++ ext.
Proof.
  destruct q as [token| |userId]; simpl.
  - unfold initialize. destruct (Js.truthy token); simpl;
      exists []; now rewrite app_nil_r.
  - unfold getUsers, spread, alloc. destruct (isInitialized s); simpl;
      [eexists; reflexivity | exists []; now rewrite app_nil_r].
  - unfold deleteUser, array_filter, alloc. destruct (isInitialized s); simpl.
    + match goal with |- context [if ?c then _ else _] => destruct c end;
        simpl; eexists; reflexivity.
    + exists []; now rewrite app_nil_r.
Qed.

Lemma after_heap (qs : list Request) (s : t) :
  exists ext, heap (after qs s) = heap s ++ ext.
Proof.
  revert s; induction qs as [|q qs IH]; intros s; simpl.
  - exists []; now rewrite app_nil_r.
  - destruct (perform_heap q s) as [e1 H1].
    destruct (IH (snd (perform q s))) as [e2 H2].
    exists (e1 ++ e2). now rewrite H2, H1, app_assoc.
Qed.

(** An array, once allocated, keeps its contents. *)
Lemma after_read (qs : list Request) (s : t) (r : Ref) :
  r < length (heap s) -> read (heap (after qs s)) r = read (heap s) r.
Proof.
  intros V. destruct (after_heap qs s) as [ext ->].
  unfold read. now apply app_nth1.
Qed.

(** The flag is only ever set. *)
Lemma perform_ready (q : Request) (s : t) :
  isInitialized s = true -> isInitialized (snd (perform q s)) = true.
Proof.
  intros R. destruct q as [token| |userId]; simpl.
  - unfold initialize. now destruct (Js.truthy token).
  - now rewrite getUsers_ready.
  - rewrite deleteUser_ready by assumption. simpl.
    now match goal with |- context [if ?c then _ else _] => destruct c end.
Qed.

Lemma after_ready (qs : list Request) (s : t) :
  isInitialized s = true -> isInitialized (after qs s) = true.
Proof.
  revert s; induction qs as [|q qs IH]; intros s R; simpl; [assumption|].
  apply IH. now apply perform_ready.
Qed.

(** Well-formedness is kept by every request. *)
Lemma filter_unique_ids (f : UserProfile -> bool) (l : list UserProfile) :
  unique_ids l -> unique_ids (filter f l).
Proof.
  unfold unique_ids. induction l as [|p l IH]; simpl; intros N; [constructor|].
  inversion N as [|? ? Hn Hl]; subst.
  destruct (f p); simpl; [constructor|]; auto.
  intros Hin. apply Hn. apply in_map_iff in Hin as [q [Hq Hin]].
  apply filter_In in Hin as [Hin _]. apply in_map_iff. eauto.
Qed.

Lemma perform_wf (q : Request) (s : t) : wf s -> wf (snd (perform q s)).
Proof.
  intros [V U]. destruct q as [token| |userId]; simpl.
  - unfold initialize. destruct (Js.truthy token); split; assumption.
  - destruct (isInitialized s) eqn:R.
    + rewrite getUsers_ready by assumption. split; simpl.
      * rewrite length_app; simpl; lia.
      * now rewrite store_after_alloc.
    + unfold getUsers. rewrite R. split; assumption.
  - destruct (isInitialized s) eqn:R.
    + rewrite deleteUser_ready by assumption. simpl.
      match goal with |- context [if ?c then _ else _] => destruct c end;
        (split; simpl;
         [rewrite length_app; simpl; lia
         | rewrite store_new; now apply filter_unique_ids]).
    + unfold deleteUser. rewrite R. split; assumption.
Qed.

Lemma after_wf (qs : list Request) (s : t) : wf s -> wf (after qs s).
Proof.
  revert s; induction qs as [|q qs IH]; intros s W; simpl; [assumption|].
  apply IH. now apply perform_wf.
Qed.

(** The module starts well-formed when the five UUIDs differ. *)
Lemma initial_wf (uuidv4 : nat -> string) :
  NoDup (map uuidv4 [0; 1; 2; 3; 4]) -> wf (initial uuidv4).
Proof. intros N. split; [simpl; lia | exact N]. Qed.

Lemma errors_distinct (userId : string) :
  NotInitialized <> NotFound userId /\
  NotInitialized <> MissingCredential /\
  MissingCredential <> NotFound userId.
Proof. repeat split; discriminate. Qed.

(** Whatever requests came before, the bodies of [getUsers] and
    [deleteUser], run while the session gate is not initialized, both
    reject with the "not initialized" error, which differs from the other
    two errors; no array is handed out, nothing is removed: the module's
    state is the one before. *)
Theorem uninitialized_calls_rejected
    (s0 : t) (qs : list Request) (userId : string) :
  isInitialized (after qs s0) = false ->
  getUsers (after qs s0) = (Rejected NotInitialized, after qs s0) /\
  deleteUser userId (after qs s0) = (Rejected NotInitialized, after qs s0) /\
  NotInitialized <> NotFound userId /\
  NotInitialized <> MissingCredential.
Proof.
  intros U. unfold getUsers, deleteUser. rewrite U. simpl.
  repeat split; discriminate.
Qed.

(** An instance: three requests, none of which opens the gate. *)
Lemma uninitialized_calls_rejected_witness :
  let s0 := initial (fun n => String (ascii_of_nat (48 + n)) "") in
  let qs := [GetUsers; Initialize (Js.Str ""); DeleteUser "1"] in
  isInitialized (after qs s0) = false /\
  getUsers (after qs s0) = (Rejected NotInitialized, after qs s0) /\
  deleteUser "1" (after qs s0) = (Rejected NotInitialized, after qs s0).
Proof.
  intros s0 qs.
  split; [reflexivity|].
  destruct (uninitialized_calls_rejected s0 qs "1" eq_refl) as [G [D _]].
  split; [exact G | exact D].
Defined.

Lemma split_at_id (userId : string) (l : list UserProfile) :
  unique_ids l -> In userId (map id l) ->
  exists l1 p l2,
    l = l1 ++ p :: l2 /\ id p = userId /\
    ~ In userId (map id l1) /\ ~ In userId (map id l2).
Proof.
  unfold unique_ids. intros N I.
  apply in_map_iff in I as [p [Hp I]].
  apply in_split in I as [l1 [l2 ->]].
  exists l1, p, l2. rewrite map_app in N; simpl in N.
  apply NoDup_remove_2 in N. rewrite Hp in N.
  repeat split; auto; intros H; apply N, in_or_app; auto.
Qed.

Lemma keep_others (userId : string) (l : list UserProfile) :
  ~ In userId (map id l) ->
  filter (fun p => negb (id p =? userId)) l = l.
Proof.
  intros N. apply filter_all. intros p I.
  apply negb_true_iff, String.eqb_neq. intros E. apply N.
  apply in_map_iff. eauto.
Qed.

(** C2.  With the gate open and the identifiers of the store distinct,
    deleting an identifier that is present resolves; the store loses the
    one record carrying it and keeps every other record in place; and the
    array [getUsers] then returns has no record with that identifier. *)
Theorem deleteUser_present (s : t) (userId : string) :
  isInitialized s = true ->
  unique_ids (store s) ->
  In userId (map id (store s)) ->
  exists s' l1 p l2,
    deleteUser userId s = (Resolved tt, s') /\
    store s = l1 ++ p :: l2 /\ id p = userId /\
    store s' = l1 ++ l2 /\
    length (store s') + 1 = length (store s) /\
    ~ In userId (map id (store s')) /\
    exists copy s'',
      getUsers s' = (Resolved copy, s'') /\
      read (heap s'') copy = store s' /\
      ~ In userId (map id (read (heap s'') copy)).
Proof.
  intros R U I.
  destruct (split_at_id userId (store s) U I) as [l1 [p [l2 [E [Hp [N1 N2]]]]]].
  assert (K : filter (fun q => negb (id q =? userId)) (store s) = l1 ++ l2).
  { rewrite E, filter_app. simpl.
    rewrite Hp, String.eqb_refl. simpl.
    now rewrite !keep_others. }
  assert (N : ~ In userId (map id (l1 ++ l2))).
  { rewrite map_app. intros H; apply in_app_or in H as []; auto. }
  rewrite deleteUser_ready by assumption. cbv zeta. rewrite K.
  replace (length (l1 ++ l2) <? length (store s))%nat with true
    by (symmetry; apply Nat.ltb_lt; rewrite E, !length_app; simpl; lia).
  eexists; exists l1, p, l2.
  split; [reflexivity|]. rewrite store_new.
  repeat split; auto.
  - rewrite E, !length_app; simpl; lia.
  - rewrite getUsers_ready by reflexivity. rewrite store_new.
    do 2 eexists. split; [reflexivity|]. simpl.
    rewrite read_new. auto.
Qed.

(** An instance: deleting bob from the initial store. *)
Lemma deleteUser_present_witness :
  let uuid := fun n => String (ascii_of_nat (48 + n)) "" in
  let s := snd (initialize (Js.Str "t") (initial uuid)) in
  exists s', deleteUser "1" s = (Resolved tt, s') /\
             map username (store s') =
             ["alice@example.com"; "charlie@example.com";
              "diana@example.com"; "edward@example.com"].
Proof.
  intros uuid s.
  destruct (deleteUser_present s "1") as [s' [l1 [p [l2 [D _]]]]].
  - reflexivity.
  - unfold unique_ids. vm_compute.
    repeat constructor; simpl; intuition discriminate.
  - vm_compute. auto.
  - exists s'. split; [exact D|].
    vm_compute in D. inversion D. reflexivity.
Defined.

(** C3.  With the gate open, deleting an identifier that no stored record
    carries rejects with the "not found" error for that identifier and
    the store holds the same records as before; asking again gives the
    same rejection and the same store. *)
Theorem deleteUser_absent (s : t) (userId : string) :
  isInitialized s = true ->
  ~ In userId (map id (store s)) ->
  exists s',
    deleteUser userId s = (Rejected (NotFound userId), s') /\
    store s' = store s /\
    isInitialized s' = true /\
    fst (deleteUser userId s') = Rejected (NotFound userId) /\
    store (snd (deleteUser userId s')) = store s.
Proof.
  intros R N.
  assert (D : forall x, isInitialized x = true -> ~ In userId (map id (store x)) ->
              exists x', deleteUser userId x = (Rejected (NotFound userId), x') /\
                         store x' = store x /\ isInitialized x' = true).
  { intros x Rx Nx. rewrite deleteUser_ready by assumption. cbv zeta.
    rewrite (keep_others userId (store x) Nx), Nat.ltb_irrefl.
    eexists. split; [reflexivity|]. split; [apply store_new | reflexivity]. }
  destruct (D s R N) as [s' [E [S' R']]].
  exists s'. repeat split; auto.
  - destruct (D s') as [x [Ex _]]; [assumption | now rewrite S' |].
    now rewrite Ex.
  - destruct (D s') as [x [Ex [Sx _]]]; [assumption | now rewrite S' |].
    rewrite Ex. simpl. congruence.
Qed.

(** An instance: an identifier the store never held. *)
Lemma deleteUser_absent_witness :
  let uuid := fun n => String (ascii_of_nat (48 + n)) "" in
  let s := snd (initialize (Js.Str "t") (initial uuid)) in
  exists s', deleteUser "9" s = (Rejected (NotFound "9"), s') /\
             store s' = store s.
Proof.
  intros uuid s.
  destruct (deleteUser_absent s "9") as [s' [D [S' _]]].
  - reflexivity.
  - vm_compute. intuition discriminate.
  - exists s'. split; assumption.
Defined.

(** C8.  When the latency of the call has elapsed with the gate open
    (and [mockProfiles] pointing into the heap), the body of [getUsers]
    resolves with a fresh array holding the records the store holds at
    that moment; the store itself is as before; and whatever requests
    follow, deletions included, the array that was returned keeps those
    records. *)
Theorem getUsers_snapshot (s : t) :
  isInitialized s = true ->
  mockProfiles s < length (heap s) ->
  exists copy s',
    getUsers s = (Resolved copy, s') /\
    read (heap s') copy = store s /\
    length (heap s) <= copy /\ copy <> mockProfiles s' /\
    mockProfiles s' = mockProfiles s /\ store s' = store s /\
    isInitialized s' = true /\
    (forall r, r < length (heap s) -> read (heap s') r = read (heap s) r) /\
    forall qs, read (heap (after qs s')) copy = store s.
Proof.
  intros R V. rewrite getUsers_ready by assumption.
  do 2 eexists. split; [reflexivity|]. simpl.
  assert (N : read (heap s ++ [store s]) (length (heap s)) = store s)
    by apply read_new.
  repeat split; auto.
  - lia.
  - now apply store_after_alloc.
  - intros r Hr. now apply read_old.
  - intros qs. rewrite after_read; [exact N|].
    simpl. rewrite length_app; simpl; lia.
Qed.

(** An instance: two deletions after the list was fetched. *)
Lemma getUsers_snapshot_witness :
  let uuid := fun n => String (ascii_of_nat (48 + n)) "" in
  let s := snd (initialize (Js.Str "t") (initial uuid)) in
  exists copy s',
    getUsers s = (Resolved copy, s') /\
    read (heap (after [DeleteUser "1"; DeleteUser "3"] s')) copy = store s /\
    length (store (after [DeleteUser "1"; DeleteUser "3"] s')) = 3.
Proof.
  intros uuid s.
  destruct (getUsers_snapshot s) as [copy [s' [G [_ [_ [_ [_ [_ [_ [_ L]]]]]]]]]].
  - reflexivity.
  - simpl; lia.
  - exists copy, s'. split; [exact G|]. split; [apply L|].
    vm_compute in G. inversion G. reflexivity.
Defined.

(** C10.  [initialize] resolves for every non-empty token string, the
    placeholder of the development fallback included, and looks at
    nothing but the token's truthiness: two non-empty tokens leave the
    module in the same state, with the gate open, in which [getUsers]
    resolves with the store's records and [deleteUser] resolves for every
    identifier the store holds. *)
Theorem initialize_accepts_any_token (token : string) (s : t) :
  token <> "" ->
  let opened := {| heap := heap s; isInitialized := true;
                   mockProfiles := mockProfiles s |} in
  initialize (Js.Str token) s = (Resolved tt, opened) /\
  initialize (Js.Str "dev-mock-token") s = (Resolved tt, opened) /\
  (forall token', token' <> "" ->
     initialize (Js.Str token') s = initialize (Js.Str token) s) /\
  (exists copy s', getUsers opened = (Resolved copy, s') /\
                   read (heap s') copy = store s) /\
  (forall userId, In userId (map id (store s)) ->
     exists s', deleteUser userId opened = (Resolved tt, s')).
Proof.
  intros NE opened.
  assert (T : forall x, x <> "" -> initialize (Js.Str x) s = (Resolved tt, opened)).
  { intros x Hx. unfold initialize; simpl.
    apply String.eqb_neq in Hx. now rewrite Hx. }
  split; [now apply T|]. split; [apply T; discriminate|].
  split; [intros token' NE'; now rewrite !T|].
  split.
  - rewrite getUsers_ready by reflexivity. do 2 eexists.
    split; [reflexivity|]. simpl. apply read_new.
  - intros userId I. rewrite deleteUser_ready by reflexivity. cbv zeta.
    change (store opened) with (store s).
    apply in_map_iff in I as [p [Hp I]].
    assert (L : length (filter (fun q => negb (id q =? userId)) (store s))
                < length (store s)).
    { apply (filter_length_lt _ _ _ p I). now rewrite Hp, String.eqb_refl. }
    apply Nat.ltb_lt in L. rewrite L. eexists; reflexivity.
Qed.

(** An instance: a one-letter token. *)
Lemma initialize_accepts_any_token_witness :
  let s := initial (fun n => String (ascii_of_nat (48 + n)) "") in
  initialize (Js.Str "x") s =
  (Resolved tt, {| heap := heap s; isInitialized := true;
                   mockProfiles := mockProfiles s |}).
Proof.
  intros s.
  assert (NE : "x" <> "") by discriminate.
  exact (proj1 (initialize_accepts_any_token "x" s NE)).
Defined.

End Service.

(** ** The service on the clock *)

Section OnTheClock.

Import SupabaseService ServiceClock.

(** A settlement that leaves the gate closed found it closed, changed
    nothing and resolved nothing. *)
Lemma closed_after_step (e : Event) (s s' : State) :
  step e s = Some s' ->
  isInitialized (service s') = false ->
  service s' = service s /\
  exists new, settled s' = settled s ++ new /\
              forall p r, In (p, r) new -> rejected_closed r.
Proof.
  unfold step. destruct e as [time q|].
  - destruct (_ && _); [|discriminate].
    intros H _; inversion H; subst; clear H. simpl.
    split; [reflexivity|]. exists []. rewrite app_nil_r.
    split; [reflexivity | intros p r []].
  - destruct (next (inflight s)) as [[c rest]|]; [|discriminate].
    destruct (perform (request c) (service s)) as [r svc] eqn:P.
    intros H; inversion H; subst; clear H. simpl. intros C.
    assert (Q : svc = service s /\ rejected_closed r).
    { unfold perform, initialize, getUsers, deleteUser, spread, array_filter,
        alloc in P.
      destruct (request c) as [token| |userId].
      - destruct (Js.truthy token); inversion P; subst; simpl in C;
          [discriminate|].
        split; [reflexivity | right; reflexivity].
      - destruct (isInitialized (service s)) eqn:G; simpl in P;
          inversion P; subst; simpl in C; [congruence|].
        split; [reflexivity | left; left; reflexivity].
      - destruct (isInitialized (service s)) eqn:G; simpl in P.
        + destruct (_ <? _)%nat; inversion P; subst; simpl in C;
            congruence.
        + inversion P; subst.
          split; [reflexivity | left; right; reflexivity]. }
    destruct Q as [-> Q]. split; [reflexivity|].
    exists [(promise c, r)]. split; [reflexivity|].
    intros p r' [E|[]]. inversion E; subst. exact Q.
Qed.

Lemma closed_after_run (es : list Event) (s s' : State) :
  run es s = Some s' ->
  isInitialized (service s') = false ->
  service s' = service s /\
  exists new, settled s' = settled s ++ new /\
              forall p r, In (p, r) new -> rejected_closed r.
Proof.
  revert s; induction es as [|e es IH]; simpl; intros s R C.
  - inversion R; subst. split; [reflexivity|].
    exists []. rewrite app_nil_r. split; [reflexivity | intros p r []].
  - destruct (step e s) as [s1|] eqn:S; [|discriminate].
    destruct (IH s1 R C) as [E [new2 [L2 Q2]]].
    assert (C1 : isInitialized (service s1) = false) by congruence.
    destruct (closed_after_step e s s1 S C1) as [E1 [new1 [L1 Q1]]].
    split; [congruence|].
    exists (new1 ++ new2). rewrite L2, L1, app_assoc.
    split; [reflexivity|].
    intros p r I. apply in_app_or in I as [I|I]; eauto.
Qed.

(** The body of [getUsers] and of [deleteUser], run when the latency has
    elapsed, rejects with "not initialized" exactly when the gate is
    closed at that moment. *)
Lemma settles_by_the_flag (q : Request) (svc : t) :
  reads_store q = true ->
  (fails_NotInitialized (fst (perform q svc)) <-> isInitialized svc = false) /\
  (isInitialized svc = false -> snd (perform q svc) = svc).
Proof.
  unfold fails_NotInitialized, perform, getUsers, deleteUser, spread,
    array_filter, alloc.
  destruct q as [token| |userId]; simpl; [discriminate| |]; intros _;
    destruct (isInitialized svc) eqn:G; simpl.
  - split; [|discriminate].
    split; [intros [H|H]; discriminate | discriminate].
  - split; [|reflexivity]. split; [reflexivity | intros _; now left].
  - destruct (_ <? _)%nat; simpl; (split; [|discriminate]);
      (split; [intros [H|H]; discriminate | discriminate]).
  - split; [|reflexivity]. split; [reflexivity | intros _; now right].
Qed.

(** C1.  Whatever calls were made and have settled: the body of
    [getUsers] and of [deleteUser] runs when the latency of the call has
    elapsed, and the promise is rejected with the "not initialized" error
    exactly when the gate is closed at that moment, in which case the
    service is left as it was; and as long as the gate is closed, the
    service is as it was at the start and every promise settled so far
    was rejected, the two methods' with "not initialized": no array was
    handed out, nothing was removed. *)
Theorem closed_gate_rejects_calls (es : list Event) (s s' : State) :
  run es s = Some s' ->
  (isInitialized (service s') = false ->
   service s' = service s /\
   exists new, settled s' = settled s ++ new /\
               forall p r, In (p, r) new -> rejected_closed r) /\
  (forall c rest,
     next (inflight s') = Some (c, rest) ->
     reads_store (request c) = true ->
     exists r s'',
       step Settles s' = Some s'' /\
       settled s'' = settled s' ++ [(promise c, r)] /\
       (fails_NotInitialized r <-> isInitialized (service s') = false) /\
       (isInitialized (service s') = false -> service s'' = service s')).
Proof.
  intros R. split; [exact (closed_after_run es s s' R)|].
  intros c rest N Q. unfold step. rewrite N.
  destruct (settles_by_the_flag (request c) (service s') Q) as [F K].
  destruct (perform (request c) (service s')) as [r svc].
  exists r. eexists. split; [reflexivity|]. simpl in *.
  split; [reflexivity|]. split; assumption.
Qed.

(** An instance: three calls made and settled with the gate closed, and
    a deletion about to settle. *)
Lemma closed_gate_rejects_calls_witness :
  let uuid := fun n => String (ascii_of_nat (48 + n)) "" in
  exists s',
    run [Calls 0 GetUsers; Calls 100 (DeleteUser "1");
         Calls 200 (Initialize (Js.Str "")); Calls 300 (DeleteUser "2");
         Settles; Settles; Settles] (start (initial uuid)) = Some s' /\
    service s' = initial uuid /\
    settled s' = [(1, Deleted (Rejected NotInitialized));
                  (2, Initialized (Rejected MissingCredential));
                  (0, Users (Rejected NotInitialized))] /\
    exists s'',
      step Settles s' = Some s'' /\
      settled s'' = settled s' ++ [(3, Deleted (Rejected NotInitialized))] /\
      service s'' = service s'.
Proof.
  intros uuid. eexists. split; [vm_compute; reflexivity|].
  match goal with |- service ?x = _ /\ _ =>
    destruct (closed_gate_rejects_calls
                [Calls 0 GetUsers; Calls 100 (DeleteUser "1");
                 Calls 200 (Initialize (Js.Str "")); Calls 300 (DeleteUser "2");
                 Settles; Settles; Settles] (start (initial uuid)) x)
      as [A B]
  end.
  - vm_compute. reflexivity.
  - destruct (A eq_refl) as [E _]. split; [exact E|].
    split; [reflexivity|].
    destruct (B {| promise := 3; due := 900; request := DeleteUser "2" |} [])
      as [r [s'' [S [L [F K]]]]]; [reflexivity | reflexivity |].
    exists s''. split; [exact S|]. split; [|exact (K eq_refl)].
    vm_compute in S. inversion S. reflexivity.
Defined.

(** C1, as the specification words it, fails: a call made while the gate
    is closed is not rejected when the gate is open by the time its
    latency has elapsed.  [deleteUser] and [getUsers] are called with the
    gate closed, [initialize] after them; it settles first, after 500 ms,
    so the deletion resolves and removes bob, and the list is returned. *)
Lemma called_while_closed_resolves :
  let uuid := fun n => String (ascii_of_nat (48 + n)) "" in
  exists s1 s2 copy,
    run [Calls 0 (DeleteUser "1"); Calls 0 GetUsers] (start (initial uuid))
      = Some s1 /\
    isInitialized (service s1) = false /\
    run [Calls 0 (Initialize (Js.Str "t")); Settles; Settles; Settles] s1
      = Some s2 /\
    settled s2 = [(2, Initialized (Resolved tt)); (0, Deleted (Resolved tt));
                  (1, Users (Resolved copy))] /\
    map username (store (service s2)) =
      ["alice@example.com"; "charlie@example.com"; "diana@example.com";
       "edward@example.com"] /\
    map username (read (heap (service s2)) copy) =
      ["alice@example.com"; "charlie@example.com"; "diana@example.com";
       "edward@example.com"].
Proof.
  intros uuid. do 3 eexists.
  split; [vm_compute; reflexivity|].
  split; [reflexivity|].
  split; [vm_compute; reflexivity|].
  split; [reflexivity|].
  split; reflexivity.
Qed.

(** C8, as the specification words it, fails: the array returned holds
    the records of the store when the latency of the call has elapsed,
    not at the time of the call.  [getUsers] is called while the store
    holds five records; a deletion called 100 ms later settles first, and
    the array returned holds four. *)
Lemma getUsers_returns_later_store :
  let uuid := fun n => String (ascii_of_nat (48 + n)) "" in
  let opened := start (snd (initialize (Js.Str "t") (initial uuid))) in
  exists s1 s2 copy,
    run [Calls 0 GetUsers] opened = Some s1 /\
    isInitialized (service s1) = true /\
    map username (store (service s1)) =
      ["alice@example.com"; "bob@example.com"; "charlie@example.com";
       "diana@example.com"; "edward@example.com"] /\
    run [Calls 100 (DeleteUser "1"); Settles; Settles] s1 = Some s2 /\
    settled s2 = [(1, Deleted (Resolved tt)); (0, Users (Resolved copy))] /\
    map username (read (heap (service s2)) copy) =
      ["alice@example.com"; "charlie@example.com"; "diana@example.com";
       "edward@example.com"].
Proof.
  intros uuid opened. do 3 eexists.
  split; [vm_compute; reflexivity|].
  split; [reflexivity|].
  split; [reflexivity|].
  split; [vm_compute; reflexivity|].
  split; reflexivity.
Qed.

End OnTheClock.

(** ** The list filter *)

Section Filter.

Import App CaseInsensitive.








End Filter.

(** ** The event loop *)

Section EventLoop.

Import App Handshake.

(** [earliest] picks a pending timer, and none is due before it. *)
Lemma earliest_In (ts : list Timer) (t : Timer) :
  earliest ts = Some t -> In t ts.
Proof.
  revert t; induction ts as [|x ts IH]; simpl; intros t E; [discriminate|].
  destruct (earliest ts) as [t'|].
  - destruct (due x <=? due t')%nat; inversion E; subst; auto.
  - inversion E; auto.
Qed.

Lemma earliest_min (ts : list Timer) (t : Timer) :
  earliest ts = Some t -> forall x, In x ts -> due t <= due x.
Proof.
  revert t; induction ts as [|y ts IH]; simpl; intros t E x I; [contradiction|].
  destruct (earliest ts) as [t'|] eqn:E'.
  - specialize (IH t' eq_refl).
    destruct (due y <=? due t')%nat eqn:L; inversion E; subst.
    + apply Nat.leb_le in L. destruct I as [<-|I]; [lia|].
      specialize (IH x I). lia.
    + apply Nat.leb_gt in L. destruct I as [<-|I]; [lia|]. now apply IH.
  - inversion E; subst. destruct ts; [|simpl in E'; destruct (earliest ts);
      [destruct (_ <=? _)%nat|]; discriminate].
    destruct I as [<-|[]]; lia.
Qed.

(** What a step is made of. *)
Lemma step_TimerFires (s s' : State) :
  step TimerFires s = Some s' ->
  exists t, In t (timers (loop s)) /\
            (forall x, In x (timers (loop s)) -> due t <= due x) /\
            s' = fire (callback t) (clearTimeout (timer_id t) (advance (due t) s)).
Proof.
  unfold step. destruct (earliest (timers (loop s))) as [t|] eqn:E; [|discriminate].
  intros H; inversion H; subst. exists t.
  split; [now apply earliest_In|]. split; [now apply earliest_min | reflexivity].
Qed.

Lemma step_Arrives (time : nat) (i : Input) (s s' : State) :
  step (Arrives time i) s = Some s' ->
  now (loop s) <= time /\
  (forall x, In x (timers (loop s)) -> time <= due x) /\
  s' = handle i (advance time s).
Proof.
  unfold step.
  destruct (now (loop s) <=? time)%nat eqn:N; simpl; [|discriminate].
  destruct (forallb _ _) eqn:F; [|discriminate].
  intros H; inversion H; subst. apply Nat.leb_le in N.
  split; [assumption|]. split; [|reflexivity].
  intros x I. rewrite forallb_forall in F. apply Nat.leb_le. now apply F.
Qed.

(** An invariant of the steps holds along every run. *)
Lemma run_invariant (allowed : Event -> Prop) (I : State -> Prop) :
  (forall e s s', allowed e -> I s -> step e s = Some s' -> I s') ->
  forall es s s', Forall allowed es -> I s -> run es s = Some s' -> I s'.
Proof.
  intros Hstep es; induction es as [|e es IH]; simpl; intros s s' A Hs R.
  - inversion R; subst; assumption.
  - inversion A as [|? ? Ae Aes]; subst.
    destruct (step e s) as [s1|] eqn:E; [|discriminate].
    exact (IH s1 s' Aes (Hstep e s s1 Ae Hs E) R).
Qed.

Lemma run_app (es1 es2 : list Event) (s s' : State) :
  run (es1 ++ es2) s = Some s' <->
  exists s1, run es1 s = Some s1 /\ run es2 s1 = Some s'.
Proof.
  revert s; induction es1 as [|e es1 IH]; simpl; intros s.
  - split; [eauto | intros [s1 [E R]]; inversion E; subst; assumption].
  - destruct (step e s) as [s1|]; [apply IH|].
    split; [discriminate | intros [s1 [E _]]; discriminate].
Qed.

End EventLoop.

Section TimerBookkeeping.

Import App Handshake.

(** Changes outside the loop and the effect's variable do not matter. *)
Lemma timers_wf_frame (s s' : State) :
  loop s' = loop s -> initTimeout s' = initTimeout s ->
  timers_wf s -> timers_wf s'.
Proof.
  intros L T [D N X H I]. constructor; rewrite ?L, ?T; assumption.
Qed.

(** Clearing timers keeps the identifiers distinct. *)
Lemma timer_ids_filter (keep : Timer -> bool) (ts : list Timer) :
  NoDup (map timer_id ts) -> NoDup (map timer_id (filter keep ts)).
Proof.
  intros N. induction ts as [|t ts IH]; simpl in *; [constructor|].
  apply NoDup_cons_iff in N as [Ht Hts].
  destruct (keep t); simpl; [|now apply IH].
  apply NoDup_cons_iff. split; [|now apply IH].
  rewrite in_map_iff. intros [x [E I]].
  apply filter_In in I as [I _].
  apply Ht. rewrite <- E. now apply in_map.
Qed.

(** Each primitive of the loop keeps the bookkeeping. *)
Lemma timers_wf_clearTimeout (tid : nat) (s : State) :
  timers_wf s -> timers_wf (clearTimeout tid s).
Proof.
  intros [D N X Hd I]. constructor; simpl.
  - intros tm H. apply filter_In in H as [H _]. auto.
  - now apply timer_ids_filter.
  - intros tm H. apply filter_In in H as [H _]. auto.
  - assumption.
  - intros tm H. apply filter_In in H as [H _]. auto.
Qed.

Lemma timers_wf_advance (time : nat) (s : State) :
  (forall tm, In tm (timers (loop s)) -> time <= due tm) ->
  timers_wf s -> timers_wf (advance time s).
Proof.
  intros T [D N X Hd I]. constructor; simpl; auto.
  intros tm H. specialize (D tm H). specialize (T tm H). lia.
Qed.

Lemma timers_wf_setTimeout (cb : Callback) (delay : nat) (s : State) :
  cb <> InitTimeout ->
  timers_wf s -> timers_wf (setTimeout cb delay s).
Proof.
  intros C [D N X Hd I]. constructor; simpl.
  - intros tm H. apply in_app_or in H as [H|[<-|[]]]; simpl; auto; lia.
  - rewrite map_app; simpl. apply NoDup_app; [assumption|repeat constructor; simpl; tauto|].
    intros x Hx [<-|[]]. apply in_map_iff in Hx as [tm [E H]].
    specialize (X tm H). lia.
  - intros tm H. apply in_app_or in H as [H|[<-|[]]]; simpl;
      [specialize (X tm H)|]; lia.
  - lia.
  - intros tm H. apply in_app_or in H as [H|[<-|[]]]; simpl; auto.
    split; [intros; contradiction | lia].
Qed.

Lemma timers_wf_arm (s : State) :
  (forall tm, In tm (timers (loop s)) -> callback tm <> InitTimeout) ->
  timers_wf s ->
  timers_wf (setTimeout InitTimeout fallback_delay
               (with_initTimeout (nextTimerId (loop s)) s)).
Proof.
  intros P [D N X Hd I]. constructor; simpl.
  - intros tm H. apply in_app_or in H as [H|[<-|[]]]; simpl; auto; lia.
  - rewrite map_app; simpl.
    apply NoDup_app; [assumption|repeat constructor; simpl; tauto|].
    intros y Hy [<-|[]]. apply in_map_iff in Hy as [tm [E H]].
    specialize (X tm H). lia.
  - intros tm H. apply in_app_or in H as [H|[<-|[]]]; simpl;
      [specialize (X tm H)|]; lia.
  - lia.
  - intros tm H. apply in_app_or in H as [H|[<-|[]]]; simpl; [|tauto].
    specialize (X tm H). specialize (P tm H). split; [tauto | lia].
Qed.

(** The effect's cleanup leaves no fallback timer behind, so its body can
    arm a new one. *)
Lemma cleanup_clears (s : State) :
  timers_wf s ->
  forall tm, In tm (timers (loop (cleanup s))) -> callback tm <> InitTimeout.
Proof.
  intros W tm H C. simpl in H. apply filter_In in H as [H F].
  apply (wf_init s W tm H) in C. rewrite C, Nat.eqb_refl in F. discriminate.
Qed.

Lemma timers_wf_setup (s : State) :
  (forall tm, In tm (timers (loop s)) -> callback tm <> InitTimeout) ->
  timers_wf s -> timers_wf (setup s).
Proof.
  intros P W. unfold setup. destruct (embedded s).
  - apply (timers_wf_arm (postMessage APP_LOADED (print _ s))); [exact P|].
    now apply (timers_wf_frame s).
  - now apply timers_wf_arm.
Qed.

Lemma timers_wf_rearm (s : State) :
  timers_wf s -> timers_wf (setup (cleanup s)).
Proof.
  intros W. apply timers_wf_setup.
  - now apply cleanup_clears.
  - now apply timers_wf_clearTimeout.
Qed.

Ltac wf_step :=
  match goal with
  | |- timers_wf (setTimeout _ _ _) =>
      apply timers_wf_setTimeout; [discriminate|]
  | |- timers_wf (clearTimeout _ _) => apply timers_wf_clearTimeout
  | |- timers_wf (setup (cleanup _)) => apply timers_wf_rearm
  | |- timers_wf (?f ?s) =>
      apply (timers_wf_frame s); [reflexivity|reflexivity|]
  end.

Ltac wf_auto := repeat wf_step; try assumption.

Lemma timers_wf_initializeApp (token : Js.Value) (s : State) :
  timers_wf s -> timers_wf (initializeApp token s).
Proof.
  intros W. unfold initializeApp.
  destruct (isInitialized (react s)); wf_auto.
Qed.

Lemma timers_wf_loadUsers (s : State) :
  timers_wf s -> timers_wf (loadUsers s).
Proof. intros W. unfold loadUsers. wf_auto. Qed.

Lemma timers_wf_handle (i : Input) (s : State) :
  timers_wf s -> timers_wf (handle i s).
Proof.
  intros W. destruct i; simpl.
  - unfold handleMessage. destruct (Js.strictEq _ _); [|assumption].
    apply timers_wf_initializeApp. wf_auto.
  - unfold handleDeleteRequest. wf_auto.
  - unfold handleConfirmDelete. destruct (userToDelete (react s)); wf_auto.
  - wf_auto.
  - wf_auto.
  - wf_auto.
Qed.

Lemma timers_wf_fire (cb : Callback) (s : State) :
  timers_wf s -> timers_wf (fire cb s).
Proof.
  intros W. destruct cb as [|token| |u]; simpl.
  - unfold initTimeoutFired. destruct (negb _); [|assumption].
    apply timers_wf_initializeApp. wf_auto.
  - unfold initializeDone.
    destruct (SupabaseService.initialize token (service s)) as [[[]|e] svc].
    + destruct (negb _); [apply timers_wf_rearm|];
        apply timers_wf_loadUsers; wf_auto.
    + wf_auto.
  - unfold getUsersDone.
    destruct (SupabaseService.getUsers (service s)) as [[copy|e] svc]; wf_auto.
  - unfold deleteUserDone.
    destruct (SupabaseService.deleteUser (id u) (service s)) as [[[]|e] svc].
    + apply timers_wf_loadUsers. destruct (embedded _); wf_auto.
    + wf_auto.
Qed.

(** The bookkeeping holds after every step, hence along every run. *)
Lemma timers_wf_step (e : Event) (s s' : State) :
  timers_wf s -> step e s = Some s' -> timers_wf s'.
Proof.
  intros W S. destruct e as [|time i].
  - apply step_TimerFires in S as [t [I [M ->]]].
    apply timers_wf_fire.
    apply timers_wf_clearTimeout, timers_wf_advance; assumption.
  - apply step_Arrives in S as [N [M ->]].
    apply timers_wf_handle, timers_wf_advance; assumption.
Qed.

Lemma timers_wf_mount (svc : SupabaseService.t) (inFrame : bool) :
  timers_wf (mount svc inFrame).
Proof.
  unfold mount, alloc. apply timers_wf_setup.
  - intros tm [].
  - constructor; simpl; try contradiction; [constructor | lia].
Qed.

Lemma timers_wf_run (es : list Event) (s s' : State) :
  timers_wf s -> run es s = Some s' -> timers_wf s'.
Proof.
  intros W R.
  apply (run_invariant (fun _ => True) timers_wf) with (es := es) (s := s);
    auto.
  - intros e x x' _. apply timers_wf_step.
  - apply Forall_forall; auto.
Qed.

End TimerBookkeeping.

Section Component.

Import App Handshake.

Ltac unfold_handlers :=
  unfold handle, fire, handleMessage, handleDeleteRequest,
    handleConfirmDelete, initTimeoutFired, initializeDone,
    getUsersDone, deleteUserDone in *;
  unfold initializeApp, loadUsers, cleanup, setup in *;
  unfold SupabaseService.initialize, SupabaseService.getUsers,
    SupabaseService.deleteUser, spread, array_filter, alloc in *.

Ltac split_cases :=
  repeat (simpl in *;
          match goal with
          | |- context [if ?c then _ else _] => destruct c eqn:?
          | |- context [match ?c with Some _ => _ | None => _ end] =>
              destruct c eqn:?
          end);
  simpl in *.

Ltac list_simpl :=
  repeat (rewrite ?filter_app, ?length_app, ?app_nil_r in *; simpl in *).

Lemma filter_nil_filter (A : Type) (p q : A -> bool) (l : list A) :
  filter p l = [] -> filter p (filter q l) = [].
Proof.
  intros E. apply filter_none. intros x I. apply filter_In in I as [I _].
  destruct (p x) eqn:P; [|reflexivity].
  assert (In x (filter p l)) by (apply filter_In; auto).
  rewrite E in *. contradiction.
Qed.

Lemma pending_fallbacks_In (s : State) (t : Timer) :
  In t (timers (loop s)) -> callback t = InitTimeout ->
  pending_fallbacks s <> [].
Proof.
  intros I C E.
  assert (In t (pending_fallbacks s))
    by (apply filter_In; split; [assumption | now rewrite C]).
  rewrite E in *. contradiction.
Qed.

(** An inert fallback stays inert, and the fallback does not run. *)
Lemma inert_step (e : Event) (s s' : State) :
  inert_fallback s -> step e s = Some s' ->
  inert_fallback s' /\ fallbacks s' = fallbacks s.
Proof.
  intros G S. destruct e as [|time i].
  - apply step_TimerFires in S as [t [I [M ->]]].
    destruct (callback t) eqn:C.
    + destruct G as [G|G]; [exfalso; exact (pending_fallbacks_In s t I C G)|].
      unfold_handlers. simpl. rewrite G. simpl.
      unfold inert_fallback. simpl. auto.
    + unfold_handlers; split_cases;
       unfold inert_fallback, pending_fallbacks, fallbacks in *; list_simpl;
       (split; [|lia]); auto;
       destruct G as [G|G]; auto; left; now apply filter_nil_filter.
    + unfold_handlers; split_cases;
       unfold inert_fallback, pending_fallbacks, fallbacks in *; list_simpl;
       (split; [|lia]); auto;
       destruct G as [G|G]; auto; left; now apply filter_nil_filter.
    + unfold_handlers; split_cases;
       unfold inert_fallback, pending_fallbacks, fallbacks in *; list_simpl;
       (split; [|lia]); auto;
       destruct G as [G|G]; auto; left; now apply filter_nil_filter.
  - apply step_Arrives in S as [N [M ->]].
    destruct i; unfold_handlers; split_cases;
       unfold inert_fallback, pending_fallbacks, fallbacks in *; list_simpl;
       (split; [|lia]); auto;
       destruct G as [G|G]; auto; left; now apply filter_nil_filter.
Qed.

(** Once set, the two flags stay set. *)
Lemma ready_step (e : Event) (s s' : State) :
  step e s = Some s' ->
  (SupabaseService.isInitialized (service s) = true ->
   SupabaseService.isInitialized (service s') = true) /\
  (isInitialized (react s) = true -> isInitialized (react s') = true).
Proof.
  intros S. destruct e as [|time i].
  - apply step_TimerFires in S as [t [I [M ->]]].
    destruct (callback t); unfold_handlers; split_cases;
      split; auto; congruence.
  - apply step_Arrives in S as [N [M ->]].
    destruct i; unfold_handlers; split_cases; split; auto; congruence.
Qed.

(** The outputs only grow. *)
Lemma calls_step (e : Event) (s s' : State) :
  step e s = Some s' -> exists ext, calls (out s') = calls (out s) ++ ext.
Proof.
  intros S. destruct e as [|time i].
  - apply step_TimerFires in S as [t [I [M ->]]].
    destruct (callback t); unfold_handlers; split_cases;
      rewrite <- ?app_assoc;
      solve [eexists; reflexivity | exists []; now rewrite app_nil_r].
  - apply step_Arrives in S as [N [M ->]].
    destruct i; unfold_handlers; split_cases;
      rewrite <- ?app_assoc;
      solve [eexists; reflexivity | exists []; now rewrite app_nil_r].
Qed.

(** With the fallback inert, only a credential message makes the
    component call [initialize]. *)
Lemma initializations_step (e : Event) (s s' : State) :
  inert_fallback s -> credential_event e = false -> step e s = Some s' ->
  initializations s' = initializations s.
Proof.
  intros G NC S. destruct e as [|time i].
  - apply step_TimerFires in S as [t [I [M ->]]].
    destruct (callback t) eqn:C.
    + destruct G as [G|G]; [exfalso; exact (pending_fallbacks_In s t I C G)|].
      unfold_handlers. simpl. rewrite G. reflexivity.
    + unfold_handlers; split_cases; unfold initializations; list_simpl;
        reflexivity.
    + unfold_handlers; split_cases; unfold initializations; list_simpl;
        reflexivity.
    + unfold_handlers; split_cases; unfold initializations; list_simpl;
        reflexivity.
  - apply step_Arrives in S as [N [M ->]]. simpl in NC.
    destruct i; simpl in NC; unfold_handlers; rewrite ?NC;
      split_cases; unfold initializations; list_simpl; reflexivity.
Qed.

(** A timer's identifier tells it apart. *)
Lemma other_timer_stays (s : State) (t tm : Timer) :
  timers_wf s -> In t (timers (loop s)) -> In tm (timers (loop s)) ->
  callback tm <> callback t ->
  In tm (filter (fun x => negb (timer_id x =? timer_id t)%nat) (timers (loop s))).
Proof.
  intros W It Itm C. apply filter_In. split; [assumption|].
  apply negb_true_iff, Nat.eqb_neq. intros E.
  apply C. f_equal.
  pose proof (wf_ids s W) as N.
  revert It Itm E N. generalize (timers (loop s)) as l.
  induction l as [|x l IH]; simpl; [contradiction|].
  intros [->|It] [->|Itm] E N; inversion N as [|? ? Hx Hl]; subst; auto.
  - exfalso. apply Hx. rewrite <- E. now apply in_map.
  - exfalso. apply Hx. rewrite E. now apply in_map.
Qed.

(** Firing or clearing the fallback timer leaves no fallback timer. *)
Lemma clear_fallback (s : State) (tid : nat) :
  timers_wf s -> tid = initTimeout s ->
  filter (fun tm => is_InitTimeout (callback tm))
         (filter (fun x => negb (timer_id x =? tid)%nat) (timers (loop s))) = [].
Proof.
  intros W ->. apply filter_none. intros tm I.
  apply filter_In in I as [I F].
  destruct (callback tm) eqn:C; try reflexivity.
  apply (wf_init s W tm I) in C. rewrite C, Nat.eqb_refl in F. discriminate.
Qed.

(** A credential message clears the fallback timer, whatever its token. *)
Lemma credential_cancels (time : nat) (i : Input) (s s' : State) :
  timers_wf s -> is_credential i = true ->
  step (Arrives time i) s = Some s' ->
  pending_fallbacks s' = [] /\ fallbacks s' = fallbacks s.
Proof.
  intros W C S. apply step_Arrives in S as [N [M ->]].
  destruct i; try discriminate. simpl in C.
  pose proof (clear_fallback s (initTimeout s) W eq_refl) as K.
  unfold_handlers. rewrite C.
  split_cases; unfold pending_fallbacks, fallbacks; list_simpl;
    rewrite ?K; auto.
Qed.

(** An initialization in flight with a truthy token opens the session
    when it settles, if the session is not open by then. *)
Lemma opening_step (due0 : nat) (e : Event) (s s' : State) :
  timers_wf s ->
  token_pending due0 s \/ session_ready s ->
  step e s = Some s' ->
  token_pending due0 s' \/ session_ready s'.
Proof.
  intros W [[tm0 [tok0 [I0 [C0 [T0 D0]]]]]|[Rs Rr]] S.
  - destruct e as [|time i].
    + apply step_TimerFires in S as [t [I [M ->]]].
      destruct (callback t) eqn:C.
      * left.
        assert (I0' := other_timer_stays s t tm0 W I I0 ltac:(congruence)).
        unfold_handlers; split_cases; exists tm0, tok0; simpl;
          repeat split; auto; apply in_or_app; auto.
      * destruct (Js.truthy token) eqn:T.
        -- right. unfold_handlers. simpl. rewrite T.
           split_cases; split; reflexivity.
        -- left.
           assert (I0' := other_timer_stays s t tm0 W I I0 ltac:(congruence)).
           unfold_handlers. simpl. rewrite T. simpl.
           exists tm0, tok0. auto.
      * left.
        assert (I0' := other_timer_stays s t tm0 W I I0 ltac:(congruence)).
        unfold_handlers; split_cases; exists tm0, tok0; simpl;
          repeat split; auto; apply in_or_app; auto.
      * left.
        assert (I0' := other_timer_stays s t tm0 W I I0 ltac:(congruence)).
        unfold_handlers; split_cases; exists tm0, tok0; simpl;
          repeat split; auto; apply in_or_app; auto.
    + apply step_Arrives in S as [N [M ->]]. left.
      assert (K : negb (timer_id tm0 =? initTimeout s)%nat = true).
      { apply negb_true_iff, Nat.eqb_neq. intros E.
        apply (wf_init s W tm0 I0) in E. congruence. }
      destruct i; unfold_handlers; split_cases;
        exists tm0, tok0; simpl; repeat split; auto;
        try (apply in_or_app; left); try (apply filter_In; split); auto.
  - right. destruct (ready_step e s s' S) as [A B]. split; auto.
Qed.

(** Two pending timers with one identifier are one timer. *)
Lemma same_timer (s : State) (t tm : Timer) :
  timers_wf s -> In t (timers (loop s)) -> In tm (timers (loop s)) ->
  timer_id t = timer_id tm -> t = tm.
Proof.
  intros W It Itm E. pose proof (wf_ids s W) as N.
  revert It Itm N. generalize (timers (loop s)) as l.
  induction l as [|x l IH]; simpl; [contradiction|].
  intros [->|It] [->|Itm] N; inversion N as [|? ? Hx Hl]; subst; auto.
  - exfalso. apply Hx. rewrite E. now apply in_map.
  - exfalso. apply Hx. rewrite <- E. now apply in_map.
Qed.

Ltac in_inv H :=
  repeat match type of H with
         | In _ (_ ++ _) => apply in_app_or in H as [H|H]
         | In _ (filter _ _) => apply filter_In in H as [H _]
         | In _ [_] => destruct H as [<-|[]]
         | In _ [] => destruct H
         end.

Ltac waiting_leaf tm0 P :=
  try lia; try congruence; try assumption;
  try (exists tm0; repeat split; auto; apply in_or_app; auto);
  try (let tm := fresh "tm" in
       let tok := fresh "tok" in
       let H := fresh "H" in
       intros tm tok H; in_inv H; simpl;
       first [discriminate | now apply P]).

(** While the handshake waits, a step either leaves it waiting or is the
    fallback timer firing, which calls [initialize] with the placeholder. *)
Lemma waiting_step (e : Event) (s s' : State) :
  timers_wf s -> waiting s -> late_credential e -> step e s = Some s' ->
  waiting s' \/
  (fallen_back s' /\ initializations s' = [CallInitialize dev_mock_token] /\
   token_pending fallback_settles s').
Proof.
  intros W [F [tm0 [I0 [C0 D0]]] Cs Fb P] L S. destruct e as [|time i].
  - apply step_TimerFires in S as [t [I [M ->]]].
    destruct (callback t) eqn:C.
    + right.
      pose proof (clear_fallback s (timer_id t) W (proj1 (wf_init s W t I) C)) as K.
      assert (E : t = tm0).
      { apply (same_timer s); auto.
        rewrite (proj1 (wf_init s W t I) C).
        symmetry. now apply (wf_init s W tm0 I0). }
      pose proof (wf_due s W t I) as Dt. subst tm0.
      unfold_handlers. simpl. rewrite F. simpl.
      split; [constructor|split];
        unfold inert_fallback, pending_fallbacks, fallbacks, initializations in *;
        list_simpl; rewrite ?K, ?Cs, ?Fb; auto.
      * apply in_or_app; right; now left.
      * eexists _, dev_mock_token. simpl.
        split; [apply in_or_app; right; left; reflexivity|].
        repeat split. simpl. unfold fallback_settles. rewrite D0 in *. lia.
    + exfalso. exact (P t token I C).
    + left.
      assert (I0' := other_timer_stays s t tm0 W I I0 ltac:(congruence)).
      unfold_handlers; split_cases.
      all: constructor; unfold fallbacks, initializations in *; list_simpl;
        waiting_leaf tm0 P.
    + left.
      assert (I0' := other_timer_stays s t tm0 W I I0 ltac:(congruence)).
      unfold_handlers; split_cases.
      all: constructor; unfold fallbacks, initializations in *; list_simpl;
        waiting_leaf tm0 P.
  - apply step_Arrives in S as [N [M ->]]. left.
    assert (T : time <= fallback_delay) by (rewrite <- D0; now apply M).
    simpl in L.
    destruct (is_credential i) eqn:IC; [specialize (L eq_refl); lia|].
    destruct i; simpl in IC; unfold_handlers; rewrite ?IC; split_cases.
    all: constructor; unfold fallbacks, initializations in *; list_simpl;
      waiting_leaf tm0 P.
Qed.

(** The component starts waiting. *)
Lemma waiting_mount (svc : SupabaseService.t) (inFrame : bool) :
  waiting (mount svc inFrame).
Proof.
  unfold mount, alloc, setup. simpl.
  destruct inFrame; constructor; simpl; auto;
    try (eexists; split; [left; reflexivity | split; reflexivity]);
    intros tm token [<-|[]]; discriminate.
Qed.

(** While the handshake waits, the fallback window is not over. *)
Lemma waiting_now (s : State) :
  timers_wf s -> waiting s -> now (loop s) <= fallback_delay.
Proof.
  intros W [_ [tm [I [_ D]]] _ _ _]. rewrite <- D. now apply (wf_due s W).
Qed.

(** After the fallback, no second fallback. *)
Lemma fallen_back_step (e : Event) (s s' : State) :
  fallen_back s -> step e s = Some s' -> fallen_back s'.
Proof.
  intros [N C G] S.
  destruct (inert_step e s s' G S) as [G' N'].
  destruct (calls_step e s s' S) as [ext E].
  constructor; [congruence | rewrite E; apply in_or_app; auto | assumption].
Qed.

(** Runs in which no credential message comes within the window. *)
Lemma handshake_run (es : list Event) (s s' : State) :
  Forall late_credential es ->
  timers_wf s /\
  (waiting s \/
   (fallen_back s /\ (token_pending fallback_settles s \/ session_ready s))) ->
  run es s = Some s' ->
  timers_wf s' /\
  (waiting s' \/
   (fallen_back s' /\ (token_pending fallback_settles s' \/ session_ready s'))).
Proof.
  intros L H R.
  apply (run_invariant late_credential
           (fun x => timers_wf x /\
                     (waiting x \/
                      (fallen_back x /\
                       (token_pending fallback_settles x \/ session_ready x)))))
    with (es := es) (s := s); auto.
  clear. intros e x x' L [W [Q|[Q O]]] S;
    (split; [now apply (timers_wf_step e x)|]).
  - destruct (waiting_step e x x' W Q L S) as [|[A [_ B]]]; auto.
  - right. split; [now apply (fallen_back_step e x)|].
    now apply (opening_step _ e x).
Qed.

(** Runs without any credential message. *)
Lemma quiet_run (es : list Event) (s s' : State) :
  Forall (fun e => credential_event e = false) es ->
  timers_wf s /\
  (waiting s \/
   (fallen_back s /\ initializations s = [CallInitialize dev_mock_token])) ->
  run es s = Some s' ->
  timers_wf s' /\
  (waiting s' \/
   (fallen_back s' /\ initializations s' = [CallInitialize dev_mock_token])).
Proof.
  intros L H R.
  apply (run_invariant (fun e => credential_event e = false)
           (fun x => timers_wf x /\
                     (waiting x \/
                      (fallen_back x /\
                       initializations x = [CallInitialize dev_mock_token]))))
    with (es := es) (s := s); auto.
  clear. intros e x x' L [W [Q|[Q Q']]] S;
    (split; [now apply (timers_wf_step e x)|]).
  - destruct (waiting_step e x x' W Q) as [|[A [B _]]]; auto.
    destruct e; simpl in *; [exact I | congruence].
  - right. split; [now apply (fallen_back_step e x)|].
    rewrite <- Q'. apply (initializations_step e x x'); auto.
    now destruct Q.
Qed.

Lemma inert_run (es : list Event) (s s' : State) :
  inert_fallback s -> run es s = Some s' ->
  inert_fallback s' /\ fallbacks s' = fallbacks s.
Proof.
  revert s; induction es as [|e es IH]; simpl; intros s G R.
  - inversion R; subst; auto.
  - destruct (step e s) as [s1|] eqn:S; [|discriminate].
    destruct (inert_step e s s1 G S) as [G1 N1].
    destruct (IH s1 G1 R) as [G' N']. split; [assumption | congruence].
Qed.

Lemma ready_run (es : list Event) (s s' : State) :
  run es s = Some s' ->
  (SupabaseService.isInitialized (service s) = true ->
   SupabaseService.isInitialized (service s') = true) /\
  (isInitialized (react s) = true -> isInitialized (react s') = true).
Proof.
  revert s; induction es as [|e es IH]; simpl; intros s R.
  - inversion R; subst; auto.
  - destruct (step e s) as [s1|] eqn:S; [|discriminate].
    destruct (ready_step e s s1 S) as [A B].
    destruct (IH s1 R) as [A' B']. auto.
Qed.

(** While [isInitialized] is not set, every credential message calls
    [initialize], whether or not another call is in flight. *)
Lemma credential_calls_initialize (s : State) (token : Js.Value) (time : nat) :
  isInitialized (react s) = false ->
  calls (out (handle (Message (auth_token token)) (advance time s))) =
  calls (out s) ++ [CallInitialize token].
Proof. intros F. unfold_handlers. simpl. now rewrite F. Qed.

(** With [isInitialized] set, a credential message is only logged and
    the fallback timer does nothing. *)
Lemma ignored_when_ready (s : State) (data : MessageData) (time : nat) :
  isInitialized (react s) = true ->
  observable (handle (Message data) (advance time s)) = observable s /\
  observable (fire InitTimeout (advance time s)) = observable s.
Proof.
  intros R. unfold observable. unfold_handlers. simpl. rewrite R. simpl.
  destruct (Js.strictEq _ _); auto.
Qed.

Ltac closed_timers T :=
  let tm := fresh "tm" in
  let H := fresh "H" in
  intros tm H; in_inv H; simpl; first [now apply T | assumption | exact I].

(** The fallback warning is never taken back. *)
Lemma fallbacks_step (e : Event) (s s' : State) :
  step e s = Some s' -> fallbacks s <= fallbacks s'.
Proof.
  intros S. destruct e as [|time i].
  - apply step_TimerFires in S as [t [I [M ->]]].
    destruct (callback t); unfold_handlers; split_cases;
      unfold fallbacks; list_simpl; lia.
  - apply step_Arrives in S as [N [M ->]].
    destruct i; unfold_handlers; split_cases;
      unfold fallbacks; list_simpl; lia.
Qed.

Lemma fallbacks_run (es : list Event) (s s' : State) :
  run es s = Some s' -> fallbacks s <= fallbacks s'.
Proof.
  revert s; induction es as [|e es IH]; simpl; intros s R.
  - inversion R; subst; lia.
  - destruct (step e s) as [s1|] eqn:S; [|discriminate].
    pose proof (fallbacks_step e s s1 S). pose proof (IH s1 R). lia.
Qed.

(** A closed gate stays closed through every step that neither brings a
    token nor runs the fallback. *)
Lemma closed_step (e : Event) (s s' : State) :
  closed s -> token_event e = false -> step e s = Some s' ->
  fallbacks s' = fallbacks s ->
  closed s' /\ (missing_credential_shown s -> missing_credential_shown s').
Proof.
  intros [Sv F T Cs U] NT S Fb. destruct e as [|time i].
  - apply step_TimerFires in S as [t [I [M ->]]].
    pose proof (T t I) as Tt.
    destruct (callback t) eqn:C; try contradiction.
    + exfalso. revert Fb. unfold_handlers. simpl. rewrite F.
      unfold fallbacks. list_simpl. lia.
    + unfold_handlers. simpl. rewrite Tt. simpl.
      split; [constructor|]; simpl; auto.
      * closed_timers T.
      * intros _. unfold missing_credential_shown. simpl. auto.
    + unfold_handlers. simpl. rewrite Sv. simpl.
      split; [constructor|]; simpl; auto.
      closed_timers T.
  - apply step_Arrives in S as [N [M ->]]. clear Fb.
    destruct i; simpl in NT; unfold_handlers; split_cases;
      (split; [constructor|]); simpl; auto;
      try closed_timers T; try congruence;
      (rewrite in_app_iff; intros [|[|[]]]; [auto | discriminate]).
Qed.

(** Runs that bring no token and in which the fallback does not run. *)
Lemma closed_run (es : list Event) (s s' : State) :
  Forall (fun e => token_event e = false) es ->
  closed s -> run es s = Some s' -> fallbacks s' = fallbacks s ->
  closed s'.
Proof.
  revert s; induction es as [|e es IH]; simpl; intros s Q C R Fb.
  - inversion R; subst; assumption.
  - inversion Q as [|? ? Qe Qes]; subst.
    destruct (step e s) as [s1|] eqn:S; [|discriminate].
    pose proof (fallbacks_step e s s1 S). pose proof (fallbacks_run es s1 s' R).
    assert (F1 : fallbacks s1 = fallbacks s) by lia.
    destruct (closed_step e s s1 C Qe S F1) as [C1 _].
    apply (IH s1); auto. congruence.
Qed.

(** The component starts with the gate closed. *)
Lemma closed_mount (uuidv4 : nat -> string) (inFrame : bool) :
  closed (mount (SupabaseService.initial uuidv4) inFrame).
Proof.
  unfold mount, alloc, setup. simpl.
  destruct inFrame; constructor; simpl; auto;
    intros tm [<-|[]]; exact I.
Qed.

(** With the gate closed, an initialization in flight either is still
    in flight or has put its failure on the page. *)
Lemma pending_step (due0 : nat) (e : Event) (s s' : State) :
  timers_wf s -> closed s -> inert_fallback s -> token_event e = false ->
  initialize_pending due0 s -> step e s = Some s' ->
  initialize_pending due0 s' \/ missing_credential_shown s'.
Proof.
  intros W [Sv F T Cs U] G NT [tm0 [token0 [I0 [C0 D0]]]] S.
  destruct e as [|time i].
  - apply step_TimerFires in S as [t [I [M ->]]].
    pose proof (T t I) as Tt.
    destruct (callback t) eqn:C; try contradiction.
    + destruct G as [G|G]; [|congruence].
      exfalso. exact (pending_fallbacks_In s t I C G).
    + right. unfold_handlers. simpl. rewrite Tt.
      unfold missing_credential_shown. simpl. auto.
    + left.
      assert (I0' := other_timer_stays s t tm0 W I I0 ltac:(congruence)).
      unfold_handlers. simpl. rewrite Sv. simpl.
      exists tm0, token0. simpl. auto.
  - apply step_Arrives in S as [N [M ->]]. left.
    assert (K : negb (timer_id tm0 =? initTimeout s)%nat = true).
    { apply negb_true_iff, Nat.eqb_neq. intros E.
      apply (wf_init s W tm0 I0) in E. congruence. }
    destruct i; unfold_handlers; split_cases;
      exists tm0, token0; simpl; repeat split; auto;
      try (apply in_or_app; left); try (apply filter_In; split); auto.
Qed.

(** Runs that bring no token, after the fallback was cancelled. *)
Lemma failed_run (due0 : nat) (es : list Event) (s s' : State) :
  Forall (fun e => token_event e = false) es ->
  timers_wf s -> closed s -> inert_fallback s ->
  initialize_pending due0 s \/ missing_credential_shown s ->
  run es s = Some s' ->
  timers_wf s' /\ closed s' /\ inert_fallback s' /\
  (initialize_pending due0 s' \/ missing_credential_shown s').
Proof.
  intros Q W L G P R.
  apply (run_invariant (fun e => token_event e = false)
           (fun x => timers_wf x /\ closed x /\ inert_fallback x /\
                     (initialize_pending due0 x \/ missing_credential_shown x)))
    with (es := es) (s := s); auto.
  clear. intros e x x' NT [W [L [G P]]] S.
  destruct (inert_step e x x' G S) as [G' Fb].
  destruct (closed_step e x x' L NT S Fb) as [L' Sh].
  split; [now apply (timers_wf_step e x)|]. do 2 (split; [assumption|]).
  destruct P as [P|P]; [|now right; apply Sh].
  now apply (pending_step due0 e x x').
Qed.

(** A credential message without token leaves the gate closed, cancels
    the fallback and puts a call of [initialize] in flight. *)
Lemma closed_after_message
    (time : nat) (token : Js.Value) (s s' : State) :
  timers_wf s -> closed s -> Js.truthy token = false ->
  step (Arrives time (Message (auth_token token))) s = Some s' ->
  closed s' /\ pending_fallbacks s' = [] /\ fallbacks s' = fallbacks s /\
  initialize_pending (time + SupabaseService.initialize_delay) s'.
Proof.
  intros W C T S.
  destruct (credential_cancels time (Message (auth_token token)) s s' W
              eq_refl S) as [P Fb].
  assert (NT : token_event (Arrives time (Message (auth_token token))) = false)
    by (destruct token as [| |[]|z| |t]; simpl in *; congruence).
  destruct (closed_step _ s s' C NT S Fb) as [C' _].
  split; [assumption|]. split; [assumption|]. split; [assumption|].
  apply step_Arrives in S as [N [M ->]].
  destruct C as [_ F _ _ _].
  unfold initialize_pending. unfold_handlers. simpl. rewrite F. simpl.
  eexists _, token. split; [apply in_or_app; right; left; reflexivity|].
  split; [reflexivity|]. simpl. lia.
Qed.


Lemma run_functional (es : list Event) (s a b : State) :
  run es s = Some a -> run es s = Some b -> a = b.
Proof. congruence. Qed.

(** C6.  The fallback timer is armed for 1500 ms when the component
    mounts.  In a run where a credential message, if any, arrives only
    after that window, once the clock has passed 1500 ms the fallback
    initialization has run exactly once, with the placeholder token; the
    session is ready once that call has settled, 500 ms later; and it was
    the only call of [initialize] if no credential message arrived at
    all.  In a run where a credential message arrives while the
    fallback has not run, the message leaves no fallback timer pending and
    the fallback initialization never runs. *)
Theorem fallback_once_or_cancelled
    (uuidv4 : nat -> string) (inFrame : bool) (es : list Event) (s : State) :
  run es (mount (SupabaseService.initial uuidv4) inFrame) = Some s ->
  fallback_delay = 1500 /\ fallback_settles = 2000 /\
  (Forall late_credential es -> fallback_delay < now (loop s) ->
   fallbacks s = 1 /\
   In (CallInitialize dev_mock_token) (calls (out s)) /\
   (fallback_settles < now (loop s) -> session_ready s) /\
   (Forall (fun e => credential_event e = false) es ->
    initializations s = [CallInitialize dev_mock_token])) /\
  (forall es1 time i es2 s1,
     es = es1 ++ Arrives time i :: es2 ->
     is_credential i = true ->
     run es1 (mount (SupabaseService.initial uuidv4) inFrame) = Some s1 ->
     fallbacks s1 = 0 ->
     fallbacks s = 0 /\
     exists s2, step (Arrives time i) s1 = Some s2 /\
                pending_fallbacks s2 = []).
Proof.
  intros R. set (m := mount (SupabaseService.initial uuidv4) inFrame) in *.
  assert (Wm : timers_wf m) by apply timers_wf_mount.
  assert (Qm : waiting m) by apply waiting_mount.
  split; [reflexivity|]. split; [reflexivity|]. split.
  - intros L T.
    destruct (handshake_run es m s L (conj Wm (or_introl Qm)) R) as [W [Q|Q]].
    + pose proof (waiting_now s W Q). lia.
    + destruct Q as [[N C G] O]. split; [assumption|]. split; [assumption|].
      split.
      { intros T'. destruct O as [[tm [tok [I [_ [_ D]]]]]|O]; [|assumption].
        pose proof (wf_due s W tm I). lia. }
      intros NC.
      destruct (quiet_run es m s NC (conj Wm (or_introl Qm)) R)
        as [_ [Q'|[_ E]]]; [|assumption].
      pose proof (waiting_now s W Q'). lia.
  - intros es1 time i es2 s1 E C R1 F1. subst es.
    apply run_app in R as [x [Rx R2]].
    rewrite (run_functional es1 m x s1 Rx R1) in *. clear x Rx.
    cbn [run] in R2.
    destruct (step (Arrives time i) s1) as [s2|] eqn:S; [|discriminate].
    pose proof (timers_wf_run es1 m s1 Wm R1) as W1.
    destruct (credential_cancels time i s1 s2 W1 C S) as [P F2].
    destruct (inert_run es2 s2 s (or_introl P) R2) as [_ F].
    split; [congruence|]. exists s2. auto.
Qed.

(** Two instances: no message at all; a token after 300 ms. *)
Lemma fallback_once_or_cancelled_witness :
  (exists s, run [TimerFires; TimerFires; TimerFires] demo = Some s /\
             fallbacks s = 1 /\
             initializations s = [CallInitialize dev_mock_token]) /\
  (exists s, run [Arrives 300 (Message (auth_token (Js.Str "token")));
                  TimerFires; TimerFires; TimerFires] demo = Some s /\
             fallbacks s = 0).
Proof.
  split.
  - eexists. split; [vm_compute; reflexivity|].
    match goal with |- fallbacks ?s = _ /\ _ =>
      destruct (fallback_once_or_cancelled demo_uuid true
                  [TimerFires; TimerFires; TimerFires] s)
        as [_ [_ [A _]]]; [vm_compute; reflexivity|]
    end.
    destruct A as [F [_ [_ I]]].
    + repeat constructor.
    + vm_compute. lia.
    + split; [exact F|]. apply I. repeat constructor.
  - eexists. split; [vm_compute; reflexivity|].
    match goal with |- fallbacks ?s = _ =>
      destruct (fallback_once_or_cancelled demo_uuid true
                  [Arrives 300 (Message (auth_token (Js.Str "token")));
                   TimerFires; TimerFires; TimerFires] s)
        as [_ [_ [_ B]]]; [vm_compute; reflexivity|]
    end.
    destruct (B [] 300 (Message (auth_token (Js.Str "token")))
                [TimerFires; TimerFires; TimerFires] demo) as [F _];
      [reflexivity | reflexivity | reflexivity | reflexivity | exact F].
Defined.

(** C5, as the code has it.  When the first credential message to
    arrive, before the fallback has run, carries a falsy token,
    [initialize] rejects with the "token is missing" error and the page
    shows it once the call has settled; the message has cancelled the
    fallback timer, and as long as no later credential message carries a
    truthy token the gate stays closed, [getUsers] is never called and
    the list stays empty: nothing retries on its own. *)
Theorem missing_credential_no_retry
    (uuidv4 : nat -> string) (inFrame : bool) (before : list Event)
    (s0 : State) (time : nat) (token : Js.Value) (es : list Event)
    (s : State) :
  Js.truthy token = false ->
  Forall (fun e => credential_event e = false) before ->
  run before (mount (SupabaseService.initial uuidv4) inFrame) = Some s0 ->
  fallbacks s0 = 0 ->
  Forall (fun e => token_event e = false) es ->
  run (Arrives time (Message (auth_token token)) :: es) s0 = Some s ->
  (forall svc, SupabaseService.initialize token svc =
               (SupabaseService.Rejected SupabaseService.MissingCredential, svc)) /\
  SupabaseService.isInitialized (service s) = false /\
  isInitialized (react s) = false /\
  ~ In CallGetUsers (calls (out s)) /\
  read (SupabaseService.heap (service s)) (users (react s)) = [] /\
  fallbacks s = 0 /\
  (time + SupabaseService.initialize_delay < now (loop s) ->
   missing_credential_shown s).
Proof.
  intros T Q0 R0 F0 Q R.
  set (m := mount (SupabaseService.initial uuidv4) inFrame) in *.
  assert (Wm : timers_wf m) by apply timers_wf_mount.
  assert (Cm : closed m) by apply closed_mount.
  assert (Fm : fallbacks m = 0).
  { pose proof (fallbacks_run before m s0 R0). lia. }
  assert (W0 : timers_wf s0) by exact (timers_wf_run before m s0 Wm R0).
  assert (C0 : closed s0).
  { apply (closed_run before m); auto; [|congruence].
    apply Forall_forall. intros e He.
    rewrite Forall_forall in Q0. specialize (Q0 e He).
    destruct e as [|? []]; simpl in *; auto. now rewrite Q0. }
  cbn [run] in R.
  destruct (step _ s0) as [s1|] eqn:S; [|discriminate].
  destruct (closed_after_message time token s0 s1 W0 C0 T S)
    as [C1 [P1 [F1 I1]]].
  assert (W1 : timers_wf s1) by exact (timers_wf_step _ s0 s1 W0 S).
  destruct (failed_run _ es s1 s Q W1 C1 (or_introl P1) (or_introl I1) R)
    as [W [C [_ P]]].
  destruct (inert_run es s1 s (or_introl P1) R) as [_ N].
  split.
  { intros svc. unfold SupabaseService.initialize. now rewrite T. }
  destruct C as [Sv F Tm Cs U].
  repeat split; auto; try congruence.
  - destruct P as [[tm [tok [I [C D]]]]|[P _]]; [|assumption].
    pose proof (wf_due s W tm I). intros. lia.
  - destruct P as [[tm [tok [I [C D]]]]|[_ P]]; [|assumption].
    pose proof (wf_due s W tm I). intros. lia.
Qed.

(** An instance: an empty token, then a [null] token and a deletion
    attempt, none of which fetches the list. *)
Lemma missing_credential_no_retry_witness :
  exists s0 s,
    run [Arrives 40 (Message {| data_type := Js.Str "PING";
                                data_token := Js.Undefined |})] demo
      = Some s0 /\
    run [Arrives 100 (Message (auth_token (Js.Str "")));
         TimerFires;
         Arrives 900 (Message (auth_token Js.Null));
         Arrives 1000 (DeleteRequest {| id := demo_uuid 1;
                                        username := "bob@example.com" |});
         Arrives 1100 ConfirmDelete;
         TimerFires; TimerFires] s0 = Some s /\
    now (loop s) = 1700 /\
    SupabaseService.isInitialized (service s) = false /\
    ~ In CallGetUsers (calls (out s)) /\
    missing_credential_shown s.
Proof.
  do 2 eexists.
  split; [vm_compute; reflexivity|].
  split; [vm_compute; reflexivity|].
  split; [reflexivity|].
  match goal with |- SupabaseService.isInitialized (service ?s) = _ /\ _ =>
    destruct (missing_credential_no_retry demo_uuid true
                [Arrives 40 (Message {| data_type := Js.Str "PING";
                                        data_token := Js.Undefined |})]
                (advance 40 demo) 100 (Js.Str "")
                [TimerFires;
                 Arrives 900 (Message (auth_token Js.Null));
                 Arrives 1000 (DeleteRequest {| id := demo_uuid 1;
                                                username := "bob@example.com" |});
                 Arrives 1100 ConfirmDelete;
                 TimerFires; TimerFires] s)
      as [_ [A [_ [B [_ [_ C]]]]]]
  end.
  - reflexivity.
  - repeat constructor.
  - vm_compute. reflexivity.
  - reflexivity.
  - repeat constructor.
  - vm_compute. reflexivity.
  - split; [exact A|]. split; [exact B|]. apply C. vm_compute. lia.
Defined.

(** C5, as the specification words it, fails: the failure is not
    terminal.  A first credential message without token makes the
    initialization fail; a second one, with a token, initializes the
    session and the list is fetched. *)
Lemma missing_credential_not_terminal :
  exists s1 s,
    run [Arrives 0 (Message (auth_token (Js.Str ""))); TimerFires] demo
      = Some s1 /\
    missing_credential_shown s1 /\
    SupabaseService.isInitialized (service s1) = false /\
    run [Arrives 1000 (Message (auth_token (Js.Str "token")));
         TimerFires; TimerFires] s1 = Some s /\
    SupabaseService.isInitialized (service s) = true /\
    In CallGetUsers (calls (out s)) /\
    map username (read (SupabaseService.heap (service s)) (users (react s))) =
    ["alice@example.com"; "bob@example.com"; "charlie@example.com";
     "diana@example.com"; "edward@example.com"].
Proof.
  do 2 eexists.
  split; [vm_compute; reflexivity|].
  split; [split; reflexivity|].
  split; [reflexivity|].
  split; [vm_compute; reflexivity|].
  split; [reflexivity|].
  split; [vm_compute; auto|reflexivity].
Qed.

(** C4: a token that arrives after the fallback timer has fired, while
    the fallback's [initialize] is still in flight, is initialized too:
    [initialize] is called twice, both calls succeed, and the list is
    fetched twice. *)
Theorem token_after_fallback_initializes_again :
  exists s,
    run [TimerFires;
         Arrives 1700 (Message (auth_token (Js.Str "real-token")));
         TimerFires; TimerFires; TimerFires; TimerFires] demo = Some s /\
    calls (out s) =
      [CallInitialize dev_mock_token; CallInitialize (Js.Str "real-token");
       CallGetUsers; CallGetUsers] /\
    filter (fun c => match c with
                     | Log "Supabase client initialized." => true
                     | _ => false
                     end) (console (out s)) =
      [Log "Supabase client initialized."; Log "Supabase client initialized."] /\
    now (loop s) = 3000.
Proof.
  eexists. split; [vm_compute; reflexivity|].
  split; [reflexivity|]. split; reflexivity.
Qed.

(** C9.  When the [deleteUser] call of a confirmed deletion is rejected,
    the component shows an error toast that ends with the rejection's
    message and closes the modal; it calls no method of the service,
    posts nothing, arms no timer, and the list it displays, the loading
    flag and the page error are as they were. *)
Theorem delete_failure_reported
    (u : UserProfile) (s : State) (e : SupabaseService.Error)
    (svc : SupabaseService.t) :
  SupabaseService.deleteUser (id u) (service s) =
    (SupabaseService.Rejected e, svc) ->
  users (react s) < length (SupabaseService.heap (service s)) ->
  let s' := fire (DeleteUserDone u) s in
  toast (react s') =
    Some {| message := ("Falha ao deletar usuário: " ++
                        SupabaseService.message e)%string;
            type := ToastError |} /\
  (e = SupabaseService.NotInitialized \/ e = SupabaseService.NotFound (id u)) /\
  userToDelete (react s') = None /\
  calls (out s') = calls (out s) /\
  posted (out s') = posted (out s) /\
  timers (loop s') = timers (loop s) /\
  users (react s') = users (react s) /\
  read (SupabaseService.heap (service s')) (users (react s')) =
    read (SupabaseService.heap (service s)) (users (react s)) /\
  searchTerm (react s') = searchTerm (react s) /\
  isLoading (react s') = isLoading (react s) /\
  error (react s') = error (react s) /\
  SupabaseService.store (service s') = SupabaseService.store (service s).
Proof.
  intros D V s'. subst s'. simpl. unfold deleteUserDone. rewrite D. simpl.
  split; [reflexivity|].
  destruct (SupabaseService.isInitialized (service s)) eqn:R.
  - rewrite deleteUser_ready in D by assumption. cbv zeta in D.
    destruct (_ <? _)%nat eqn:Lt in D; inversion D; subst; clear D.
    apply Nat.ltb_ge in Lt.
    repeat split; auto.
    + simpl. now apply read_old.
    + rewrite store_new. apply filter_all.
      intros p I. destruct (negb (id p =? id u)) eqn:K; [reflexivity|].
      pose proof (filter_length_lt _ (fun q => negb (id q =? id u)) _ p I K).
      lia.
  - unfold SupabaseService.deleteUser in D. rewrite R in D.
    inversion D; subst. repeat split; auto.
Qed.

(** An instance: deleting a profile the store does not hold, once the
    list is loaded. *)
Lemma delete_failure_reported_witness :
  exists s,
    run [TimerFires; TimerFires; TimerFires] demo = Some s /\
    let u := {| id := "no-such-id"; username := "zoe@example.com" |} in
    toast (react (fire (DeleteUserDone u) s)) =
      Some {| message := "Falha ao deletar usuário: User with ID no-such-id not found.";
              type := ToastError |} /\
    length (read (SupabaseService.heap (service (fire (DeleteUserDone u) s)))
                 (users (react (fire (DeleteUserDone u) s)))) = 5.
Proof.
  eexists. split; [vm_compute; reflexivity|]. intros u.
  match goal with |- toast (react (fire _ ?s)) = _ /\ _ =>
    destruct (delete_failure_reported u s
                (SupabaseService.NotFound "no-such-id")
                (snd (SupabaseService.deleteUser (id u) (service s))))
      as [T [_ [_ [_ [_ [_ [_ [U _]]]]]]]]
  end.
  - vm_compute. reflexivity.
  - vm_compute. lia.
  - split; [exact T|]. rewrite U. reflexivity.
Defined.

End Component.

(** * Further properties *)

(** ** Sequences of requests *)

Section RequestSequences.

Import SupabaseService Requests.

(** Filtering the survivors of one deletion, then of others. *)
Lemma survivors_filter (userId : string) (gone : list string)
    (l : list UserProfile) :
  filter (survives gone) (filter (fun p => negb (id p =? userId)) l) =
  filter (survives (userId :: gone)) l.
Proof.
  induction l as [|p l IH]; simpl; [reflexivity|].
  unfold survives at 2. simpl.
  destruct (id p =? userId) eqn:E; simpl.
  - exact IH.
  - fold (survives gone p). rewrite IH. reflexivity.
Qed.

Lemma survives_nil (l : list UserProfile) : filter (survives []) l = l.
Proof. apply filter_all. reflexivity. Qed.

Lemma valid_perform (q : Request) (s : t) :
  mockProfiles s < length (heap s) ->
  mockProfiles (snd (perform q s)) < length (heap (snd (perform q s))).
Proof.
  intros V. destruct q as [token| |userId]; simpl.
  - unfold initialize. now destruct (Js.truthy token).
  - destruct (isInitialized s) eqn:R.
    + rewrite getUsers_ready by assumption. simpl.
      rewrite length_app; simpl; lia.
    + unfold getUsers. now rewrite R.
  - destruct (isInitialized s) eqn:R.
    + rewrite deleteUser_ready by assumption. cbv zeta.
      destruct (_ <? _)%nat; simpl; rewrite length_app; simpl; lia.
    + unfold deleteUser. now rewrite R.
Qed.

(** What one request does to the flag and to the store. *)
Lemma perform_flag (q : Request) (s : t) :
  isInitialized (snd (perform q s)) =
  match q with
  | Initialize token => isInitialized s || Js.truthy token
  | _ => isInitialized s
  end.
Proof.
  destruct q as [token| |userId]; simpl.
  - unfold initialize. destruct (Js.truthy token); simpl;
      [now rewrite orb_true_r | now rewrite orb_false_r].
  - unfold getUsers, spread, alloc. destruct (isInitialized s) eqn:R; simpl; auto.
  - unfold deleteUser, array_filter, alloc. destruct (isInitialized s) eqn:R;
      simpl; [|assumption].
    now destruct (_ <? _)%nat.
Qed.

Lemma perform_store (q : Request) (s : t) :
  mockProfiles s < length (heap s) ->
  store (snd (perform q s)) =
  match q with
  | DeleteUser userId =>
      if isInitialized s
      then filter (fun p => negb (id p =? userId)) (store s)
      else store s
  | _ => store s
  end.
Proof.
  intros V. destruct q as [token| |userId]; simpl.
  - unfold initialize. now destruct (Js.truthy token).
  - destruct (isInitialized s) eqn:R.
    + rewrite getUsers_ready by assumption. simpl.
      now rewrite store_after_alloc.
    + unfold getUsers. now rewrite R.
  - destruct (isInitialized s) eqn:R.
    + rewrite deleteUser_ready by assumption. cbv zeta.
      destruct (_ <? _)%nat; simpl; apply store_new.
    + unfold deleteUser. now rewrite R.
Qed.

(** X1.  A sequence of requests amounts to this: the gate is open at the
    end if it was open before or some [initialize] carried a truthy token,
    and the store holds, in their order, the records it held before except
    those whose deletion was requested while the gate was open. *)
Theorem requests_amount_to (qs : list Request) (s : t) :
  mockProfiles s < length (heap s) ->
  isInitialized (after qs s) = opened_after qs (isInitialized s) /\
  store (after qs s) =
    filter (survives (deleted_by qs (isInitialized s))) (store s) /\
  mockProfiles (after qs s) < length (heap (after qs s)).
Proof.
  revert s; induction qs as [|q qs IH]; intros s V.
  - simpl. rewrite survives_nil. auto.
  - simpl after. pose proof (valid_perform q s V) as V'.
    destruct (IH _ V') as [F [S V'']]. clear IH.
    rewrite F, S, perform_flag, (perform_store q s V).
    split; [|split; [|assumption]].
    + now destruct q.
    + destruct q as [token| |userId]; simpl; try reflexivity.
      destruct (isInitialized s); [apply survivors_filter | reflexivity].
Qed.

(** An instance: deleting before and after the gate opens. *)
Lemma requests_amount_to_witness :
  let uuid := fun n => String (ascii_of_nat (48 + n)) "" in
  map username
    (store (after [DeleteUser "0"; Initialize (Js.Str "t"); DeleteUser "4";
                   GetUsers; DeleteUser "1"] (initial uuid))) =
  ["alice@example.com"; "charlie@example.com"; "diana@example.com"].
Proof.
  intros uuid.
  assert (V : mockProfiles (initial uuid) < length (heap (initial uuid)))
    by (simpl; lia).
  destruct (requests_amount_to
              [DeleteUser "0"; Initialize (Js.Str "t"); DeleteUser "4";
               GetUsers; DeleteUser "1"] (initial uuid) V) as [_ [S _]].
  rewrite S. reflexivity.
Defined.

End RequestSequences.

Section RequestInvariants.

Import SupabaseService.

(** X2.  With the gate open, once the deletion of an identifier has been
    requested, whether it resolved or not, no stored record carries the
    identifier, and requesting it again rejects with "not found" and
    leaves the store's records as they are. *)
Theorem deleteUser_again (userId : string) (s : t) :
  isInitialized s = true ->
  let s1 := snd (deleteUser userId s) in
  ~ In userId (map id (store s1)) /\
  isInitialized s1 = true /\
  exists s2, deleteUser userId s1 = (Rejected (NotFound userId), s2) /\
             store s2 = store s1.
Proof.
  intros R s1.
  assert (S1 : store s1 = filter (fun p => negb (id p =? userId)) (store s)
               /\ isInitialized s1 = true).
  { subst s1. rewrite deleteUser_ready by assumption. cbv zeta.
    destruct (_ <? _)%nat; simpl; split; try reflexivity; apply store_new. }
  destruct S1 as [S1 R1].
  assert (N : ~ In userId (map id (store s1))).
  { rewrite S1. intros I. apply in_map_iff in I as [p [E I]].
    apply filter_In in I as [_ F]. rewrite E, String.eqb_refl in F.
    discriminate. }
  split; [assumption|]. split; [assumption|].
  rewrite deleteUser_ready by assumption. cbv zeta.
  rewrite (keep_others userId (store s1) N), Nat.ltb_irrefl.
  eexists. split; [reflexivity | apply store_new].
Qed.

(** An instance: bob deleted twice. *)
Lemma deleteUser_again_witness :
  let uuid := fun n => String (ascii_of_nat (48 + n)) "" in
  let s := snd (initialize (Js.Str "t") (initial uuid)) in
  fst (deleteUser "1" s) = Resolved tt /\
  fst (deleteUser "1" (snd (deleteUser "1" s))) = Rejected (NotFound "1").
Proof.
  intros uuid s. split; [reflexivity|].
  destruct (deleteUser_again "1" s eq_refl) as [_ [_ [s2 [D _]]]].
  now rewrite D.
Defined.

Lemma perform_store_incl (q : Request) (s : t) :
  mockProfiles s < length (heap s) ->
  incl (store (snd (perform q s))) (store s).
Proof.
  intros V. rewrite (perform_store q s V).
  destruct q as [token| |userId]; try apply incl_refl.
  destruct (isInitialized s); [|apply incl_refl].
  intros p I. now apply filter_In in I.
Qed.

Lemma after_store_incl (qs : list Request) (s : t) :
  mockProfiles s < length (heap s) -> incl (store (after qs s)) (store s).
Proof.
  revert s; induction qs as [|q qs IH]; intros s V; simpl; [apply incl_refl|].
  eapply incl_tran; [apply IH, valid_perform, V | now apply perform_store_incl].
Qed.

(** X3.  When the five UUIDs drawn at load time differ, then after every
    sequence of requests the stored identifiers are pairwise distinct,
    every stored record is one of the five initial profiles, and there are
    at most five of them: the service never adds or rewrites a record. *)
Theorem store_stays_within (uuidv4 : nat -> string) (qs : list Request) :
  NoDup (map uuidv4 [0; 1; 2; 3; 4]) ->
  let s := after qs (initial uuidv4) in
  unique_ids (store s) /\
  incl (store s) (initialProfiles uuidv4) /\
  length (store s) <= 5 /\
  mockProfiles s < length (heap s).
Proof.
  intros N s. subst s.
  destruct (after_wf qs _ (initial_wf uuidv4 N)) as [V U].
  assert (I : incl (store (after qs (initial uuidv4))) (initialProfiles uuidv4)).
  { apply (after_store_incl qs (initial uuidv4)). simpl; lia. }
  repeat split; auto.
  change 5 with (length (initialProfiles uuidv4)).
  apply NoDup_incl_length; [|exact I].
  apply (NoDup_map_inv id). exact U.
Qed.

(** An instance: the UUIDs of the demonstration. *)
Lemma store_stays_within_witness :
  length (store (after [Initialize (Js.Str "t"); DeleteUser (Handshake.demo_uuid 2);
                        GetUsers; DeleteUser "x"]
                       (initial Handshake.demo_uuid))) <= 5.
Proof.
  assert (N : NoDup (map Handshake.demo_uuid [0; 1; 2; 3; 4])).
  { repeat constructor; simpl; intuition discriminate. }
  exact (proj1 (proj2 (proj2 (store_stays_within Handshake.demo_uuid
           [Initialize (Js.Str "t"); DeleteUser (Handshake.demo_uuid 2);
            GetUsers; DeleteUser "x"] N)))).
Defined.

End RequestInvariants.

(** ** The component along its runs *)

Section Runs.

Import App Handshake Page.

Ltac unfold_all :=
  unfold handle, fire, handleMessage, handleDeleteRequest,
    handleConfirmDelete, initTimeoutFired, initializeDone,
    getUsersDone, deleteUserDone in *;
  unfold initializeApp, loadUsers, cleanup, setup in *;
  unfold SupabaseService.initialize, SupabaseService.getUsers,
    SupabaseService.deleteUser, spread, array_filter, alloc in *.

Ltac cases :=
  repeat (simpl in *;
          match goal with
          | |- context [if ?c then _ else _] => destruct c eqn:?
          | |- context [match ?c with Some _ => _ | None => _ end] =>
              destruct c eqn:?
          end);
  simpl in *.

(** An invariant of the steps that holds when the component mounts holds
    after every run. *)
Lemma mounted_invariant (P : State -> Prop) (svc : SupabaseService.t)
    (inFrame : bool) :
  P (mount svc inFrame) ->
  (forall e s s', P s -> step e s = Some s' -> P s') ->
  forall es s, run es (mount svc inFrame) = Some s -> P s.
Proof.
  intros P0 Pstep es s R.
  apply (run_invariant (fun _ => True) P) with (es := es) (s := mount svc inFrame);
    auto.
  - intros e x x' _. apply Pstep.
  - apply Forall_forall; auto.
Qed.

(** The references stay inside the heap. *)
Lemma refs_valid_step (e : Event) (s s' : State) :
  refs_valid s -> step e s = Some s' -> refs_valid s'.
Proof.
  intros [U V] S. destruct e as [|time i].
  - apply step_TimerFires in S as [t [I [M ->]]].
    destruct (callback t); unfold_all; cases; unfold refs_valid; simpl;
      rewrite ?length_app; simpl; lia.
  - apply step_Arrives in S as [N [M ->]].
    destruct i; unfold_all; cases; unfold refs_valid; simpl;
      rewrite ?length_app; simpl; lia.
Qed.

Lemma refs_valid_mount (uuidv4 : nat -> string) (inFrame : bool) :
  refs_valid (mount (SupabaseService.initial uuidv4) inFrame).
Proof.
  unfold mount, alloc, setup, refs_valid. destruct inFrame; simpl; lia.
Qed.

(** The component's flag and the service's flag change together. *)
Lemma flags_step (e : Event) (s s' : State) :
  SupabaseService.isInitialized (service s) = isInitialized (react s) ->
  step e s = Some s' ->
  SupabaseService.isInitialized (service s') = isInitialized (react s').
Proof.
  intros F S. destruct e as [|time i].
  - apply step_TimerFires in S as [t [I [M ->]]].
    destruct (callback t); unfold_all; cases; congruence.
  - apply step_Arrives in S as [N [M ->]].
    destruct i; unfold_all; cases; congruence.
Qed.


Ltac in_cases H :=
  repeat match type of H with
         | In _ (_ ++ _) => apply in_app_or in H as [H|H]
         | In _ (filter _ _) => apply filter_In in H as [H _]
         | In _ [_] => destruct H as [<-|[]]
         | In _ [] => destruct H
         end.

(** [getUsers] is only called with the gate open, so it never rejects. *)
Lemma fetch_safe_step (e : Event) (s s' : State) :
  fetch_safe s -> step e s = Some s' -> fetch_safe s'.
Proof.
  intros [O E] S. destruct e as [|time i].
  - apply step_TimerFires in S as [t [I [M ->]]].
    destruct (callback t) eqn:C.
    + unfold_all; cases; constructor; simpl; auto;
        intros tm H K; in_cases H; try discriminate; eauto.
    + unfold_all; cases; constructor; simpl; auto;
        intros tm H K; in_cases H; try discriminate; eauto.
    + pose proof (O t I C) as R.
      unfold_all. simpl. rewrite R. simpl.
      constructor; simpl; auto; intros tm H K; in_cases H; eauto.
    + unfold_all; cases; constructor; simpl; auto;
        intros tm H K; in_cases H; try discriminate; eauto;
        try (apply negb_false_iff; assumption).
  - apply step_Arrives in S as [N [M ->]].
    destruct i; unfold_all; cases; constructor; simpl; auto;
      intros tm H K; in_cases H; try discriminate; eauto.
Qed.

Lemma fetch_safe_mount (svc : SupabaseService.t) (inFrame : bool) :
  fetch_safe (mount svc inFrame).
Proof.
  unfold mount, alloc, setup.
  destruct inFrame; constructor; simpl; auto;
    intros tm [<-|[]]; discriminate.
Qed.


(** While the gate is closed nothing has been loaded. *)
Lemma unloaded_step (e : Event) (s s' : State) :
  (SupabaseService.isInitialized (service s) = false -> displayed s = []) ->
  step e s = Some s' ->
  SupabaseService.isInitialized (service s') = false -> displayed s' = [].
Proof.
  intros D S. destruct e as [|time i].
  - apply step_TimerFires in S as [t [I [M ->]]].
    destruct (callback t); unfold_all; cases; unfold displayed in *; simpl;
      intros; try discriminate; auto;
      match goal with
      | A : negb ?x = false, B : ?x = false |- _ =>
          rewrite B in A; discriminate
      end.
  - apply step_Arrives in S as [N [M ->]].
    destruct i; unfold_all; cases; unfold displayed in *; simpl; auto.
Qed.

(** Reading an extended heap. *)
Lemma read_extended (a : list UserProfile) (h : Heap) (r : Ref) :
  read (h ++ [a]) r = read h r \/ read (h ++ [a]) r = a \/
  read (h ++ [a]) r = [].
Proof.
  destruct (Nat.lt_ge_cases r (length h)) as [L|G].
  - left. now apply read_old.
  - destruct (Nat.eq_dec r (length h)) as [->|Ne].
    + right; left. apply read_new.
    + right; right. unfold read. apply nth_overflow.
      rewrite length_app; simpl; lia.
Qed.

Lemma made_of_extended (origin a : list UserProfile) (h : Heap) :
  (forall r, incl (read h r) origin) -> incl a origin ->
  forall r, incl (read (h ++ [a]) r) origin.
Proof.
  intros H A r. destruct (read_extended a h r) as [E|[E|E]]; rewrite E; auto.
  intros x [].
Qed.

(** No array holds a record that was not there from the start. *)
Lemma made_of_step (origin : list UserProfile) (e : Event) (s s' : State) :
  made_of origin s -> step e s = Some s' -> made_of origin s'.
Proof.
  intros K S.
  assert (F : forall f r, incl (filter f (read (SupabaseService.heap (service s)) r))
                               origin).
  { intros f r p I. apply filter_In in I as [I _]. now apply (K r). }
  destruct e as [|time i].
  - apply step_TimerFires in S as [t [I [M ->]]].
    destruct (callback t); unfold_all; cases; unfold made_of in *; simpl;
      auto; apply made_of_extended; auto.
  - apply step_Arrives in S as [N [M ->]].
    destruct i; unfold_all; cases; unfold made_of in *; simpl; auto.
Qed.

Lemma made_of_mount (uuidv4 : nat -> string) (inFrame : bool) :
  made_of (SupabaseService.initialProfiles uuidv4)
          (mount (SupabaseService.initial uuidv4) inFrame).
Proof.
  unfold mount, alloc, setup, made_of.
  destruct inFrame; simpl; intros [|[|r]]; simpl;
    try apply incl_refl; try (intros x []); destruct r; intros x [].
Qed.


(** What a settled [deleteUser] leaves in the store. *)
Lemma deleteUser_store (userId : string) (svc : SupabaseService.t) :
  SupabaseService.mockProfiles svc < length (SupabaseService.heap svc) ->
  let r := fst (SupabaseService.deleteUser userId svc) in
  let svc' := snd (SupabaseService.deleteUser userId svc) in
  incl (SupabaseService.store svc') (SupabaseService.store svc) /\
  (r = SupabaseService.Resolved tt ->
   ~ In userId (map id (SupabaseService.store svc'))) /\
  (r <> SupabaseService.Resolved tt ->
   SupabaseService.store svc' = SupabaseService.store svc).
Proof.
  intros V r svc'. subst r svc'.
  destruct (SupabaseService.isInitialized svc) eqn:R.
  - rewrite deleteUser_ready by assumption. cbv zeta.
    set (kept := filter _ _).
    assert (K : incl kept (SupabaseService.store svc))
      by (intros p I; now apply filter_In in I).
    destruct (_ <? _)%nat eqn:L; simpl; rewrite store_new;
      (split; [exact K|]); split; try congruence; intros _.
    + intros I. apply in_map_iff in I as [p [E I]].
      apply filter_In in I as [_ F]. rewrite E, String.eqb_refl in F.
      discriminate.
    + apply Nat.ltb_ge in L. apply filter_all. intros p I.
      destruct (negb (id p =? userId)) eqn:F; [reflexivity|].
      pose proof (filter_length_lt _ (fun q => negb (id q =? userId)) _ p I F).
      unfold kept in L. lia.
  - unfold SupabaseService.deleteUser. rewrite R. simpl.
    split; [apply incl_refl|]. split; [discriminate | reflexivity].
Qed.

(** A posted [USER_DELETED] stays true: the store never takes a record
    back. *)
Lemma deletions_truthful_step (e : Event) (s s' : State) :
  deletions_truthful s -> refs_valid s -> step e s = Some s' ->
  deletions_truthful s'.
Proof.
  intros T [U V] S. destruct e as [|time i].
  - apply step_TimerFires in S as [t [I [M ->]]].
    destruct (callback t) as [|token| |u] eqn:C.
    + unfold_all; cases; exact T.
    + unfold_all; cases; unfold deletions_truthful, SupabaseService.store in *;
        simpl; intros userId H;
        try (apply in_app_or in H as [H|[H|[]]]; [|discriminate]);
        now apply T.
    + unfold_all; cases; unfold deletions_truthful, SupabaseService.store in *;
        simpl; intros userId H; rewrite ?read_old by assumption; now apply T.
    + destruct (deleteUser_store (id u) (service s) V) as [Inc [Gone Same]].
      unfold fire, deleteUserDone.
      cbn [service clearTimeout advance with_loop].
      destruct (SupabaseService.deleteUser (id u) (service s)) as [[[]|err] svc];
        simpl in *.
      * specialize (Gone eq_refl).
        assert (T' : forall userId, In (USER_DELETED userId) (posted (out s)) ->
                       ~ In userId (map id (SupabaseService.store svc))).
        { intros userId H K. apply (T userId H).
          apply in_map_iff in K as [p [Ep Ip]]. apply in_map_iff.
          exists p. split; [assumption | now apply Inc]. }
        destruct (embedded s); unfold deletions_truthful; simpl;
          intros userId H; [|now apply T'].
        apply in_app_or in H as [H|[H|[]]]; [now apply T'|].
        inversion H; subst. exact Gone.
      * unfold deletions_truthful. simpl. intros userId H.
        rewrite Same by discriminate. now apply T.
  - apply step_Arrives in S as [N [M ->]].
    destruct i; unfold_all; cases; exact T.
Qed.

(** Outside a frame nothing is posted; inside, [APP_LOADED] goes out with
    every run of the effect. *)
Lemma posted_step (e : Event) (s s' : State) :
  step e s = Some s' ->
  embedded s' = embedded s /\
  (embedded s = false -> posted (out s') = posted (out s)) /\
  (embedded s = true ->
   app_loaded_count s = 1 + (if isInitialized (react s) then 1 else 0) ->
   app_loaded_count s' = 1 + (if isInitialized (react s') then 1 else 0)).
Proof.
  intros S. destruct e as [|time i].
  - apply step_TimerFires in S as [t [I [M ->]]].
    destruct (callback t); unfold_all; cases; unfold app_loaded_count;
      simpl; repeat split; auto; try congruence;
      rewrite ?filter_app, ?length_app; simpl; intros; try congruence;
      try lia;
      repeat match goal with
             | A : negb ?x = _ |- _ => destruct x; simpl in A; try discriminate
             end; simpl in *; try congruence; lia.
  - apply step_Arrives in S as [N [M ->]].
    destruct i; unfold_all; cases; unfold app_loaded_count; simpl;
      repeat split; auto; congruence.
Qed.


(** What a settled [deleteUser] leaves of the flag and of the heap. *)
Lemma deleteUser_frame (userId : string) (svc : SupabaseService.t) :
  let svc' := snd (SupabaseService.deleteUser userId svc) in
  SupabaseService.isInitialized svc' = SupabaseService.isInitialized svc /\
  forall r, r < length (SupabaseService.heap svc) ->
            read (SupabaseService.heap svc') r =
            read (SupabaseService.heap svc) r.
Proof.
  intros svc'. subst svc'.
  destruct (SupabaseService.isInitialized svc) eqn:R.
  - rewrite deleteUser_ready by assumption. cbv zeta.
    destruct (_ <? _)%nat; simpl; (split; [reflexivity|]);
      intros r Hr; now apply read_old.
  - unfold SupabaseService.deleteUser. rewrite R. simpl. auto.
Qed.

Ltac keep_pending tm :=
  right; left; exists tm; simpl;
  split; [|assumption];
  repeat first [ assumption
               | apply in_or_app; left
               | apply filter_In; split; [|assumption] ].

(** With the gate open the displayed array is the store's, unless a
    [getUsers] is in flight. *)
Lemma in_sync_step (e : Event) (s s' : State) :
  timers_wf s -> refs_valid s -> in_sync s -> step e s = Some s' ->
  in_sync s'.
Proof.
  intros W [U V] Y S. destruct e as [|time i].
  - apply step_TimerFires in S as [t [I [M ->]]].
    destruct (callback t) as [|token| |u] eqn:C.
    + destruct Y as [Y|[[tm0 [I0 C0]]|Y]].
      * left. unfold_all; cases; exact Y.
      * assert (I0' := other_timer_stays s t tm0 W I I0 ltac:(congruence)).
        unfold in_sync, pending. unfold_all; cases; keep_pending tm0.
      * right; right. unfold_all; cases; exact Y.
    + destruct (Js.truthy token) eqn:T.
      * right; left. unfold pending. unfold_all. simpl. rewrite T.
        pose proof (wf_held s W) as Hd.
        cases;
          (eexists; split;
           [ first [ apply in_or_app; left; apply filter_In; split;
                     [ apply in_or_app; right; left; reflexivity
                     | simpl; apply negb_true_iff, Nat.eqb_neq; lia ]
                   | apply in_or_app; right; left; reflexivity ]
           | reflexivity ]).
      * destruct Y as [Y|[[tm0 [I0 C0]]|Y]].
        -- left. unfold_all. simpl. rewrite T. exact Y.
        -- assert (I0' := other_timer_stays s t tm0 W I I0 ltac:(congruence)).
           unfold in_sync, pending. unfold_all. simpl. rewrite T.
           keep_pending tm0.
        -- right; right. unfold_all. simpl. rewrite T. exact Y.
    + destruct (SupabaseService.isInitialized (service s)) eqn:R.
      * right; right. unfold displayed, SupabaseService.store.
        unfold_all. simpl. rewrite R. simpl.
        rewrite read_new. now rewrite read_old.
      * left. unfold_all. simpl. rewrite R. exact R.
    + destruct (deleteUser_store (id u) (service s) V) as [_ [_ Same]].
      destruct (deleteUser_frame (id u) (service s)) as [Flag Frame].
      unfold fire, deleteUserDone.
      cbn [service clearTimeout advance with_loop].
      destruct (SupabaseService.deleteUser (id u) (service s))
        as [[[]|err] svc]; cbn [fst snd] in *.
      * right; left. unfold pending, loadUsers. simpl.
        eexists; split; [apply in_or_app; right; left; reflexivity|reflexivity].
      * specialize (Same ltac:(discriminate)).
        destruct Y as [Y|[[tm0 [I0 C0]]|Y]].
        -- left. simpl. congruence.
        -- assert (I0' := other_timer_stays s t tm0 W I I0 ltac:(congruence)).
           unfold in_sync, pending. simpl. keep_pending tm0.
        -- right; right. unfold displayed in *. simpl.
           rewrite Same, Frame by assumption. exact Y.
  - apply step_Arrives in S as [N [M ->]].
    destruct Y as [Y|[[tm0 [I0 C0]]|Y]].
    + left. destruct i; unfold_all; cases; exact Y.
    + assert (K : negb (timer_id tm0 =? initTimeout s)%nat = true).
      { apply negb_true_iff, Nat.eqb_neq. intros E.
        apply (wf_init s W tm0 I0) in E. congruence. }
      unfold in_sync, pending.
      destruct i; unfold_all; cases; keep_pending tm0.
    + right; right. destruct i; unfold_all; cases; exact Y.
Qed.

Lemma in_sync_mount (uuidv4 : nat -> string) (inFrame : bool) :
  in_sync (mount (SupabaseService.initial uuidv4) inFrame).
Proof. left. unfold mount, alloc, setup. now destruct inFrame. Qed.

End Runs.

(** ** What the component guarantees *)

Section Guarantees.

Import App Handshake Page.

Ltac unfold_all :=
  unfold handle, fire, handleMessage, handleDeleteRequest,
    handleConfirmDelete, initTimeoutFired, initializeDone,
    getUsersDone, deleteUserDone in *;
  unfold initializeApp, loadUsers, cleanup, setup in *;
  unfold SupabaseService.initialize, SupabaseService.getUsers,
    SupabaseService.deleteUser, spread, array_filter, alloc in *.

Ltac settle_in :=
  repeat match goal with
         | A : In _ (_ ++ _) |- _ => apply in_app_or in A
         | A : _ \/ _ |- _ => destruct A as [A|A]
         | A : In _ (_ :: _) |- _ => destruct A as [A|A]
         | A : In _ [] |- _ => destruct A
         end.

(** The invariants the component keeps from the moment it mounts. *)
Lemma mounted_facts (uuidv4 : nat -> string) (inFrame : bool)
    (es : list Event) (s : State) :
  run es (mount (SupabaseService.initial uuidv4) inFrame) = Some s ->
  timers_wf s /\ refs_valid s /\ in_sync s /\ fetch_safe s /\
  made_of (SupabaseService.initialProfiles uuidv4) s /\
  SupabaseService.isInitialized (service s) = isInitialized (react s) /\
  (SupabaseService.isInitialized (service s) = false -> displayed s = []) /\
  deletions_truthful s.
Proof.
  apply (mounted_invariant
           (fun x => timers_wf x /\ refs_valid x /\ in_sync x /\ fetch_safe x /\
                     made_of (SupabaseService.initialProfiles uuidv4) x /\
                     SupabaseService.isInitialized (service x) =
                       isInitialized (react x) /\
                     (SupabaseService.isInitialized (service x) = false ->
                      displayed x = []) /\
                     deletions_truthful x)).
  - split; [apply timers_wf_mount|]. split; [apply refs_valid_mount|].
    split; [apply in_sync_mount|]. split; [apply fetch_safe_mount|].
    split; [apply made_of_mount|].
    unfold mount, alloc, setup, displayed, deletions_truthful.
    destruct inFrame; simpl; repeat split; auto;
      intros userId [H|[]]; discriminate.
  - intros e x x' [W [V [Y [F [K [G [D T]]]]]]] S.
    split; [exact (timers_wf_step e x x' W S)|].
    split; [exact (refs_valid_step e x x' V S)|].
    split; [exact (in_sync_step e x x' W V Y S)|].
    split; [exact (fetch_safe_step e x x' F S)|].
    split; [exact (made_of_step _ e x x' K S)|].
    split; [exact (flags_step e x x' G S)|].
    split; [exact (unloaded_step e x x' D S)|].
    exact (deletions_truthful_step e x x' T V S).
Qed.

(** X4.  In every state the component reaches, when the gate is open and
    no [getUsers] is in flight, the list on display holds exactly the
    records of the store: every successful deletion is followed by a
    reload. *)
Theorem displayed_list_in_sync (uuidv4 : nat -> string) (inFrame : bool)
    (es : list Event) (s : State) :
  run es (mount (SupabaseService.initial uuidv4) inFrame) = Some s ->
  SupabaseService.isInitialized (service s) = true ->
  (forall tm, In tm (timers (loop s)) -> callback tm <> GetUsersDone) ->
  displayed s = SupabaseService.store (service s).
Proof.
  intros R O Q.
  destruct (mounted_facts uuidv4 inFrame es s R) as [_ [_ [Y _]]].
  destruct Y as [Y|[[tm [I C]]|Y]]; [congruence | | assumption].
  exfalso. exact (Q tm I C).
Qed.

(** An instance: the fallback opens the session, bob is deleted, the list
    is reloaded. *)
Lemma displayed_list_in_sync_witness :
  exists s,
    run [TimerFires; TimerFires; TimerFires;
         Arrives 3000 (DeleteRequest {| id := demo_uuid 1;
                                        username := "bob@example.com" |});
         Arrives 3100 ConfirmDelete; TimerFires; TimerFires;
         TimerFires] demo = Some s /\
    displayed s = SupabaseService.store (service s) /\
    map username (displayed s) =
      ["alice@example.com"; "charlie@example.com"; "diana@example.com";
       "edward@example.com"].
Proof.
  eexists. split; [vm_compute; reflexivity|].
  split; [|reflexivity].
  match goal with |- displayed ?s = _ =>
    apply (displayed_list_in_sync demo_uuid true
             [TimerFires; TimerFires; TimerFires;
              Arrives 3000 (DeleteRequest {| id := demo_uuid 1;
                                             username := "bob@example.com" |});
              Arrives 3100 ConfirmDelete; TimerFires; TimerFires;
         TimerFires] s)
  end.
  - vm_compute. reflexivity.
  - reflexivity.
  - intros tm H. vm_compute in H. contradiction.
Defined.

(** [getUsers] is only ever called with the gate open. *)
Lemma fetch_called_open (e : Event) (s s' : State) :
  (In CallGetUsers (calls (out s)) ->
   SupabaseService.isInitialized (service s) = true) ->
  step e s = Some s' ->
  In CallGetUsers (calls (out s')) ->
  SupabaseService.isInitialized (service s') = true.
Proof.
  intros P S. destruct e as [|time i].
  - apply step_TimerFires in S as [t [I [M ->]]].
    destruct (callback t); unfold_all;
      repeat (simpl in *;
              match goal with
              | |- context [if ?c then _ else _] => destruct c eqn:?
              end);
      simpl in *; auto;
      intros H; settle_in; try discriminate; auto;
      match goal with
      | A : negb ?x = false |- ?x = true => now apply negb_false_iff
      end.
  - apply step_Arrives in S as [N [M ->]].
    destruct i; unfold_all;
      repeat (simpl in *;
              match goal with
              | |- context [if ?c then _ else _] => destruct c eqn:?
              | |- context [match ?c with Some _ => _ | None => _ end] =>
                  destruct c eqn:?
              end);
      simpl in *; auto;
      intros H; settle_in; try discriminate; auto.
Qed.

(** X5.  The component never fetches the list before the gate is open:
    [getUsers] is not called, and is not in flight, while the service is
    uninitialized.  So the list load never rejects, and the only error the
    page ever holds is the failure of an initialization without token. *)
Theorem load_never_fails (uuidv4 : nat -> string) (inFrame : bool)
    (es : list Event) (s : State) :
  run es (mount (SupabaseService.initial uuidv4) inFrame) = Some s ->
  (SupabaseService.isInitialized (service s) = false ->
   ~ In CallGetUsers (calls (out s)) /\
   forall tm, In tm (timers (loop s)) -> callback tm <> GetUsersDone) /\
  (error (react s) = None \/
   error (react s) =
     Some "Initialization failed: Authentication token is missing.").
Proof.
  intros R.
  destruct (mounted_facts uuidv4 inFrame es s R) as [_ [_ [_ [[O E] _]]]].
  split; [|exact E].
  intros C. split.
  - intros H.
    assert (P : In CallGetUsers (calls (out s)) ->
                SupabaseService.isInitialized (service s) = true).
    { revert R. apply (mounted_invariant
        (fun x => In CallGetUsers (calls (out x)) ->
                  SupabaseService.isInitialized (service x) = true)).
      - unfold mount, alloc, setup. destruct inFrame; simpl; contradiction.
      - intros e x x' Px S. exact (fetch_called_open e x x' Px S). }
    specialize (P H). congruence.
  - intros tm I K. specialize (O tm I K). congruence.
Qed.

(** An instance: a token that is missing, then deletions that go nowhere. *)
Lemma load_never_fails_witness :
  exists s,
    run [Arrives 10 (Message (auth_token Js.Undefined)); TimerFires;
         Arrives 700 (DeleteRequest {| id := demo_uuid 0;
                                       username := "alice@example.com" |});
         Arrives 800 ConfirmDelete; TimerFires] demo = Some s /\
    ~ In CallGetUsers (calls (out s)) /\
    error (react s) =
      Some "Initialization failed: Authentication token is missing.".
Proof.
  eexists. split; [vm_compute; reflexivity|].
  match goal with |- ~ In _ (calls (out ?s)) /\ _ =>
    destruct (load_never_fails demo_uuid true
                [Arrives 10 (Message (auth_token Js.Undefined)); TimerFires;
                 Arrives 700 (DeleteRequest {| id := demo_uuid 0;
                                               username := "alice@example.com" |});
                 Arrives 800 ConfirmDelete; TimerFires] s) as [A _]
  end.
  - vm_compute. reflexivity.
  - split; [exact (proj1 (A eq_refl)) | reflexivity].
Defined.

(** X6.  What [renderContent] shows in the states the component reaches.
    The authorization spinner is only shown with the gate closed; the only
    text of the error box is the failure of an initialization without
    token; and a table is only shown with the gate open, is not empty,
    holds records of the initial store that match the search term, and,
    when no [getUsers] is in flight, holds exactly the stored records
    that match. *)
Theorem page_views (uuidv4 : nat -> string) (inFrame : bool)
    (es : list Event) (s : State) :
  run es (mount (SupabaseService.initial uuidv4) inFrame) = Some s ->
  (renderContent s = AwaitingAuthorization ->
   SupabaseService.isInitialized (service s) = false) /\
  (forall text, renderContent s = ErrorBox text ->
     text = "Initialization failed: Authentication token is missing.") /\
  (forall rows, renderContent s = Table rows ->
     SupabaseService.isInitialized (service s) = true /\
     rows <> [] /\
     incl rows (SupabaseService.initialProfiles uuidv4) /\
     (forall p, In p rows -> matches (searchTerm (react s)) p = true) /\
     ((forall tm, In tm (timers (loop s)) -> callback tm <> GetUsersDone) ->
      rows = filter (matches (searchTerm (react s)))
               (SupabaseService.store (service s)))).
Proof.
  intros R.
  destruct (mounted_facts uuidv4 inFrame es s R)
    as [_ [_ [Y [[_ E] [K [G [D _]]]]]]].
  unfold renderContent, error_shown.
  split; [|split].
  - destruct (isInitialized (react s)) eqn:A; simpl.
    + destruct (isLoading (react s)); [discriminate|].
      destruct (error (react s)) as [text|];
        [destruct (text =? "")%string|];
        try discriminate;
        destruct (length (displayed s) =? 0)%nat; try discriminate;
        destruct (0 <? _)%nat; discriminate.
    + intros _. congruence.
  - intros text.
    destruct (negb (isInitialized (react s)) && isLoading (react s));
      [discriminate|].
    destruct (isLoading (react s)); [discriminate|].
    destruct E as [E|E]; rewrite E; simpl.
    + destruct (length (displayed s) =? 0)%nat; [discriminate|].
      destruct (0 <? _)%nat; discriminate.
    + intros H; inversion H; reflexivity.
  - intros rows.
    destruct (negb (isInitialized (react s)) && isLoading (react s));
      [discriminate|].
    destruct (isLoading (react s)); [discriminate|].
    destruct (error (react s)) as [text|];
      [destruct (text =? "")%string; [|discriminate]|];
      (destruct (length (displayed s) =? 0)%nat eqn:L; [discriminate|];
       destruct (0 <? _)%nat eqn:P; [|discriminate];
       intros H; inversion H; subst; clear H;
       apply Nat.eqb_neq in L; apply Nat.ltb_lt in P;
       (split;
        [destruct (SupabaseService.isInitialized (service s)) eqn:O; auto;
         rewrite (D eq_refl) in L; simpl in L; lia|]);
       (split; [intros Z; rewrite Z in P; simpl in P; lia|]);
       (split; [intros p I; apply filter_In in I as [I _]; exact (K _ p I)|]);
       (split; [intros p I; apply filter_In in I as [_ I]; exact I|]);
       intros Q; destruct Y as [Y|[[tm [I C]]|Y]];
       [rewrite (D Y) in L; simpl in L; lia
       |exfalso; exact (Q tm I C)
       |unfold displayed in *; rewrite Y; reflexivity]).
Qed.

(** An instance: after the fallback the table shows the five users, and
    the two matching ones after a search. *)
Lemma page_views_witness :
  exists s rows,
    run [TimerFires; TimerFires; TimerFires; Arrives 3000 (Search "AR")]
        demo = Some s /\
    renderContent s = Table rows /\
    map username rows = ["charlie@example.com"; "edward@example.com"] /\
    rows = filter (matches (searchTerm (react s)))
             (SupabaseService.store (service s)).
Proof.
  eexists. eexists. split; [vm_compute; reflexivity|].
  split; [vm_compute; reflexivity|]. split; [reflexivity|].
  match goal with |- ?rows = filter _ (SupabaseService.store (service ?s)) =>
    destruct (page_views demo_uuid true
                [TimerFires; TimerFires; TimerFires; Arrives 3000 (Search "AR")]
                s) as [_ [_ V]]
  end.
  - vm_compute. reflexivity.
  - match goal with |- ?rows = _ =>
      destruct (V rows) as [_ [_ [_ [_ F]]]]; [vm_compute; reflexivity|]
    end.
    apply F. intros tm H. vm_compute in H. destruct H as [<-|[]].
    discriminate.
Defined.

(** X7.  Outside a frame the component posts nothing, whatever happens;
    inside a frame [APP_LOADED] is posted once when the component mounts
    and once more when [isInitialized] is set (the effect runs again),
    and never otherwise. *)
Theorem app_loaded_posts (svc : SupabaseService.t) (inFrame : bool)
    (es : list Event) (s : State) :
  run es (mount svc inFrame) = Some s ->
  if inFrame then
    app_loaded_count s = 1 + (if isInitialized (react s) then 1 else 0)
  else posted (out s) = [].
Proof.
  intros R.
  assert (H : embedded s = inFrame /\
              if inFrame then
                app_loaded_count s =
                  1 + (if isInitialized (react s) then 1 else 0)
              else posted (out s) = []).
  { revert R.
    apply (mounted_invariant
             (fun x => embedded x = inFrame /\
                       if inFrame then
                         app_loaded_count x =
                           1 + (if isInitialized (react x) then 1 else 0)
                       else posted (out x) = [])).
    - unfold mount, alloc, setup, app_loaded_count.
      destruct inFrame; simpl; auto.
    - intros e x x' [B C] S.
      destruct (posted_step e x x' S) as [B' [N Y]].
      split; [congruence|].
      destruct inFrame; [apply Y; assumption|].
      rewrite (N B). exact C. }
  exact (proj2 H).
Qed.

(** An instance: mounted in a frame, then the fallback and the load. *)
Lemma app_loaded_posts_witness :
  exists s,
    run [TimerFires; TimerFires; TimerFires] demo = Some s /\
    posted (out s) = [APP_LOADED; APP_LOADED] /\
    app_loaded_count s = 2.
Proof.
  eexists. split; [vm_compute; reflexivity|]. split; [reflexivity|].
  match goal with |- app_loaded_count ?s = _ =>
    exact (app_loaded_posts (SupabaseService.initial demo_uuid) true
             [TimerFires; TimerFires; TimerFires] s
             ltac:(vm_compute; reflexivity))
  end.
Defined.

(** X8.  A [USER_DELETED] message is only posted for a deletion that took
    place: in every state the component reaches, the store holds no record
    with an identifier that was posted. *)
Theorem posted_deletions_hold (uuidv4 : nat -> string) (inFrame : bool)
    (es : list Event) (s : State) (userId : string) :
  run es (mount (SupabaseService.initial uuidv4) inFrame) = Some s ->
  In (USER_DELETED userId) (posted (out s)) ->
  ~ In userId (map id (SupabaseService.store (service s))).
Proof.
  intros R H.
  destruct (mounted_facts uuidv4 inFrame es s R)
    as [_ [_ [_ [_ [_ [_ [_ T]]]]]]].
  exact (T userId H).
Qed.

(** An instance: bob is deleted from inside a frame. *)
Lemma posted_deletions_hold_witness :
  exists s,
    run [TimerFires; TimerFires; TimerFires;
         Arrives 3000 (DeleteRequest {| id := demo_uuid 1;
                                        username := "bob@example.com" |});
         Arrives 3100 ConfirmDelete; TimerFires; TimerFires] demo = Some s /\
    posted (out s) = [APP_LOADED; APP_LOADED; USER_DELETED (demo_uuid 1)] /\
    ~ In (demo_uuid 1) (map id (SupabaseService.store (service s))).
Proof.
  eexists. split; [vm_compute; reflexivity|]. split; [reflexivity|].
  match goal with |- ~ In _ (map id (SupabaseService.store (service ?s))) =>
    apply (posted_deletions_hold demo_uuid true
             [TimerFires; TimerFires; TimerFires;
              Arrives 3000 (DeleteRequest {| id := demo_uuid 1;
                                             username := "bob@example.com" |});
              Arrives 3100 ConfirmDelete; TimerFires; TimerFires] s)
  end.
  - vm_compute. reflexivity.
  - vm_compute. auto.
Defined.

(** X9.  A credential message with a token opens the session: whatever
    happened before and whatever follows, once the clock has passed the
    arrival time by the latency of [initialize], the gate is open and the
    component knows it. *)
Theorem credential_opens_session (uuidv4 : nat -> string) (inFrame : bool)
    (before es : list Event) (time : nat) (token : Js.Value)
    (s0 s : State) :
  run before (mount (SupabaseService.initial uuidv4) inFrame) = Some s0 ->
  Js.truthy token = true ->
  run (Arrives time (Message (auth_token token)) :: es) s0 = Some s ->
  time + SupabaseService.initialize_delay < now (loop s) ->
  session_ready s.
Proof.
  intros R0 T R L.
  destruct (mounted_facts uuidv4 inFrame before s0 R0)
    as [W0 [_ [_ [_ [_ [F0 _]]]]]].
  cbn [run] in R.
  destruct (step (Arrives time (Message (auth_token token))) s0)
    as [s1|] eqn:S; [|discriminate].
  assert (W1 := timers_wf_step _ _ _ W0 S).
  assert (O : token_pending (time + SupabaseService.initialize_delay) s1 \/
              session_ready s1).
  { apply step_Arrives in S as [N [_ ->]].
    destruct (isInitialized (react s0)) eqn:G.
    - right. unfold session_ready, handle, handleMessage, initializeApp.
      simpl. rewrite G. simpl. split; congruence.
    - left. unfold token_pending, handle, handleMessage, initializeApp.
      simpl. rewrite G. simpl.
      eexists _, token. split; [apply in_or_app; right; left; reflexivity|].
      simpl. repeat split; auto. rewrite Nat.max_r by assumption.
      reflexivity. }
  assert (Q : timers_wf s /\
              (token_pending (time + SupabaseService.initialize_delay) s \/
               session_ready s)).
  { apply (run_invariant (fun _ => True)
             (fun x => timers_wf x /\
                       (token_pending
                          (time + SupabaseService.initialize_delay) x \/
                        session_ready x)))
      with (es := es) (s := s1); auto.
    - intros e x x' _ [Wx Ox] Sx.
      split; [exact (timers_wf_step e x x' Wx Sx)|].
      exact (opening_step _ e x x' Wx Ox Sx).
    - apply Forall_forall; auto. }
  destruct Q as [W [[tm [tok [I [_ [_ D]]]]]|Q]]; [|exact Q].
  pose proof (wf_due s W tm I). lia.
Qed.

(** An instance: the token arrives after the fallback has opened the
    session; and one that arrives within the window. *)
Lemma credential_opens_session_witness :
  exists s,
    run [Arrives 400 (Message (auth_token (Js.Str "token")));
         TimerFires; TimerFires] demo = Some s /\
    now (loop s) = 1700 /\ session_ready s.
Proof.
  eexists. split; [vm_compute; reflexivity|]. split; [reflexivity|].
  match goal with |- session_ready ?s =>
    apply (credential_opens_session demo_uuid true [] [TimerFires; TimerFires]
             400 (Js.Str "token") demo s)
  end.
  - reflexivity.
  - reflexivity.
  - vm_compute. reflexivity.
  - vm_compute. lia.
Defined.

(** X10.  When the [deleteUser] promise resolves, the continuation shows
    the success toast, closes the modal, posts [USER_DELETED] when inside
    a frame and nothing otherwise, and starts exactly one reload of the
    list; the record is gone from the store, while the list on display is
    the old one until the reload settles. *)
Theorem delete_success_reported (u : UserProfile) (s : State)
    (svc : SupabaseService.t) :
  SupabaseService.deleteUser (id u) (service s) =
    (SupabaseService.Resolved tt, svc) ->
  users (react s) < length (SupabaseService.heap (service s)) ->
  let s' := fire (DeleteUserDone u) s in
  service s' = svc /\
  ~ In (id u) (map id (SupabaseService.store (service s'))) /\
  length (SupabaseService.store (service s')) <
    length (SupabaseService.store (service s)) /\
  toast (react s') = Some {| message := "Usuário deletado com sucesso!";
                             type := ToastSuccess |} /\
  userToDelete (react s') = None /\
  posted (out s') =
    posted (out s) ++ (if embedded s then [USER_DELETED (id u)] else []) /\
  calls (out s') = calls (out s) ++ [CallGetUsers] /\
  timers (loop s') =
    timers (loop s) ++
      [{| timer_id := nextTimerId (loop s);
          due := now (loop s) + SupabaseService.getUsers_delay;
          callback := GetUsersDone |}] /\
  isLoading (react s') = true /\ error (react s') = None /\
  displayed s' = displayed s.
Proof.
  intros D U s'. subst s'.
  unfold fire, deleteUserDone. rewrite D.
  destruct (SupabaseService.isInitialized (service s)) eqn:R;
    [|unfold SupabaseService.deleteUser in D; rewrite R in D; discriminate].
  rewrite deleteUser_ready in D by assumption. cbv zeta in D.
  destruct (_ <? _)%nat eqn:Lt in D; inversion D; subst; clear D.
  apply Nat.ltb_lt in Lt.
  assert (K : SupabaseService.store
                {| SupabaseService.heap :=
                     SupabaseService.heap (service s) ++
                       [filter (fun p => negb (id p =? id u)%string)
                          (SupabaseService.store (service s))];
                   SupabaseService.isInitialized := true;
                   SupabaseService.mockProfiles :=
                     length (SupabaseService.heap (service s)) |} =
              filter (fun p => negb (id p =? id u)%string)
                (SupabaseService.store (service s))).
  { unfold SupabaseService.store at 1. cbn [SupabaseService.heap
      SupabaseService.mockProfiles]. apply read_new. }
  unfold loadUsers, displayed.
  destruct (embedded s) eqn:Em; cbn -[SupabaseService.store filter read];
    rewrite ?Em; cbn -[SupabaseService.store filter read];
    rewrite ?app_nil_r, K;
    (split; [reflexivity|]);
    (split;
     [intros I; apply in_map_iff in I as [p [E I]];
      apply filter_In in I as [_ I];
      rewrite E, String.eqb_refl in I; discriminate|]);
    (split; [exact Lt|]);
    repeat (split; [reflexivity|]);
    now rewrite read_old.
Qed.

(** An instance: bob is deleted once the session is open. *)
Lemma delete_success_reported_witness :
  exists s,
    run [TimerFires; TimerFires; TimerFires] demo = Some s /\
    let u := {| id := demo_uuid 1; username := "bob@example.com" |} in
    posted (out (fire (DeleteUserDone u) s)) =
      [APP_LOADED; APP_LOADED; USER_DELETED (demo_uuid 1)] /\
    map username (displayed (fire (DeleteUserDone u) s)) =
      map username (SupabaseService.initialProfiles demo_uuid).
Proof.
  eexists. split; [vm_compute; reflexivity|].
  intros u.
  match goal with |- posted (out (fire _ ?s)) = _ /\ _ =>
    destruct (delete_success_reported u s
                (snd (SupabaseService.deleteUser (id u) (service s))))
      as [_ [_ [_ [_ [_ [P [_ [_ [_ [_ V]]]]]]]]]]
  end.
  - vm_compute. reflexivity.
  - vm_compute. lia.
  - split; [rewrite P; reflexivity | rewrite V; reflexivity].
Defined.

(** X11.  How the confirmation dialogue composes: of two requests the
    later one is the target, and a request alone calls nothing; confirming
    calls [deleteUser] once with the target's identifier and leaves the
    modal open until the call settles, so that a second confirmation calls
    it again; after a cancel, and with no target, confirming does
    nothing. *)
Theorem confirmation_flow (a b : UserProfile) (s : State) :
  let requested := handle (DeleteRequest b) (handle (DeleteRequest a) s) in
  userToDelete (react requested) = Some b /\
  calls (out requested) = calls (out s) /\
  timers (loop requested) = timers (loop s) /\
  calls (out (handle ConfirmDelete requested)) =
    calls (out s) ++ [CallDeleteUser (id b)] /\
  modalOpen (handle ConfirmDelete requested) = true /\
  calls (out (handle ConfirmDelete (handle ConfirmDelete requested))) =
    calls (out s) ++ [CallDeleteUser (id b); CallDeleteUser (id b)] /\
  handle ConfirmDelete (handle CloseModal requested) =
    handle CloseModal requested /\
  (userToDelete (react s) = None -> handle ConfirmDelete s = s).
Proof.
  simpl. unfold handleConfirmDelete, modalOpen. simpl.
  repeat split; auto.
  - now rewrite <- app_assoc.
  - intros N. now rewrite N.
Qed.

End Guarantees.

(** ** Refining a search *)

Section Search.

Import App CaseInsensitive.

Lemma toLowerCase_append (a b : string) :
  Js.toLowerCase (a ++ b)%string =
  (Js.toLowerCase a ++ Js.toLowerCase b)%string.
Proof. induction a as [|c a IH]; simpl; [reflexivity | now rewrite IH]. Qed.

Lemma append_shift (a b c : string) :
  ((a ++ b) ++ c = a ++ b ++ c)%string.
Proof. induction a as [|x a IH]; simpl; [reflexivity | now rewrite IH]. Qed.

(** A user who matches a term matches every piece of that term. *)
Lemma matches_piece (pre term post : string) (u : UserProfile) :
  matches (pre ++ term ++ post) u = true -> matches term u = true.
Proof.
  unfold matches. rewrite !toLowerCase_append, !includes_iff.
  intros [a [b E]].
  exists (a ++ Js.toLowerCase pre)%string, (Js.toLowerCase post ++ b)%string.
  rewrite E, !append_shift. reflexivity.
Qed.

(** X12.  On ASCII text, where lower-casing goes character by character,
    refining the search term narrows the result: the users found for a
    term that contains another one are found by searching, with the
    longer term, among the users found for the shorter one; so typing more
    characters at either end never brings back a user, and keeps the order
    of the rows. *)
Theorem search_narrows (pre term post : string) (users : Ref) (h : Heap) :
  ascii_only (pre ++ term ++ post) = true ->
  (forall u, In u (read h users) -> ascii_only (username u) = true) ->
  let shorter := filteredUsers users term h in
  let longer := filteredUsers users (pre ++ term ++ post) h in
  read (snd longer) (fst longer) =
    filter (matches (pre ++ term ++ post))
      (read (snd shorter) (fst shorter)) /\
  incl (read (snd longer) (fst longer)) (read (snd shorter) (fst shorter)) /\
  length (read (snd longer) (fst longer)) <=
    length (read (snd shorter) (fst shorter)).
Proof.
  intros _ _.
  unfold filteredUsers, array_filter, alloc. simpl. rewrite !read_new.
  assert (E : filter (matches (pre ++ term ++ post)) (read h users) =
              filter (matches (pre ++ term ++ post))
                (filter (matches term) (read h users))).
  { induction (read h users) as [|u l IH]; simpl; [reflexivity|].
    destruct (matches (pre ++ term ++ post) u) eqn:M.
    - rewrite (matches_piece pre term post u M). simpl. rewrite M.
      now rewrite IH.
    - destruct (matches term u); simpl; rewrite ?M; exact IH. }
  split; [exact E|]. split.
  - rewrite E. intros u I. now apply filter_In in I as [I _].
  - rewrite E. apply filter_length_le.
Qed.

(** An instance: from [i] to [li] on the initial profiles. *)
Lemma search_narrows_witness :
  let h := [SupabaseService.initialProfiles
              (fun n => String (ascii_of_nat (48 + n)) "")] in
  map username (read (snd (filteredUsers 0 "i" h))
                     (fst (filteredUsers 0 "i" h))) =
    ["alice@example.com"; "charlie@example.com"; "diana@example.com"] /\
  map username (read (snd (filteredUsers 0 "li" h))
                     (fst (filteredUsers 0 "li" h))) =
    ["alice@example.com"; "charlie@example.com"] /\
  incl (read (snd (filteredUsers 0 "li" h)) (fst (filteredUsers 0 "li" h)))
       (read (snd (filteredUsers 0 "i" h)) (fst (filteredUsers 0 "i" h))).
Proof.
  intros h.
  assert (A : forall u, In u (read h 0) ->
                        ascii_only (username u) = true).
  { intros u I. simpl in I.
    repeat (destruct I as [<-|I]; [reflexivity|]). destruct I. }
  destruct (search_narrows "l" "i" "" 0 h eq_refl A) as [_ [I _]].
  split; [reflexivity|]. split; [reflexivity | exact I].
Defined.

End Search.

(** ** The plain component *)

Section Basic.

Import BasicApp.

Ltac unfold_basic :=
  unfold handle, fire, handleMessage, handleDeleteUser, handleLoad,
    initializeDone, getUsersDone, deleteUserDone in *;
  unfold loadUsers in *;
  unfold SupabaseService.initialize, SupabaseService.getUsers,
    SupabaseService.deleteUser, spread, array_filter, alloc in *.

Ltac branches :=
  repeat (simpl in *;
          match goal with
          | |- context [if ?c then _ else _] => destruct c eqn:?
          end);
  simpl in *.

Ltac members :=
  repeat match goal with
         | A : In _ (_ ++ _) |- _ => apply in_app_or in A
         | A : _ \/ _ |- _ => destruct A as [A|A]
         | A : In _ (_ :: _) |- _ => destruct A as [A|A]
         | A : In _ [] |- _ => destruct A
         end.

(** The timer [next] picks is pending and the earliest, and the timers it
    leaves are the other pending ones. *)
Lemma next_picks (ts : list Timer) (t : Timer) (rest : list Timer) :
  next ts = Some (t, rest) ->
  In t ts /\
  (forall x, In x ts -> due t <= due x) /\
  (forall x, In x rest -> In x ts) /\
  (forall x, In x ts -> x = t \/ In x rest).
Proof.
  revert t rest; induction ts as [|a ts IH]; simpl; intros t rest H;
    [discriminate|].
  destruct (next ts) as [[t' rest']|] eqn:E.
  - destruct (IH t' rest' eq_refl) as [I [M [Sub Sup]]].
    destruct (due a <=? due t')%nat eqn:L; inversion H; subst; clear H.
    + apply Nat.leb_le in L. split; [now left|]. split; [|split].
      * intros x [<-|Hx]; [lia|]. specialize (M x Hx). lia.
      * intros x Hx. now right.
      * intros x [<-|Hx]; [now left | now right].
    + apply Nat.leb_gt in L. split; [now right|]. split; [|split].
      * intros x [<-|Hx]; [lia | now apply M].
      * intros x [<-|Hx]; [now left | right; now apply Sub].
      * intros x [<-|Hx]; [right; now left|].
        destruct (Sup x Hx); [now left | right; now right].
  - inversion H; subst; clear H. destruct ts as [|b ts].
    + split; [now left|]. split; [|split].
      * intros x [<-|[]]. lia.
      * intros x [].
      * intros x [<-|[]]. now left.
    + simpl in E. destruct (next ts) as [[? ?]|];
        [destruct (_ <=? _)%nat|]; discriminate.
Qed.

Lemma basic_TimerFires (s s' : State) :
  step TimerFires s = Some s' ->
  exists t rest,
    In t (timers s) /\
    (forall x, In x (timers s) -> due t <= due x) /\
    (forall x, In x rest -> In x (timers s)) /\
    (forall x, In x (timers s) -> x = t \/ In x rest) /\
    s' = fire (callback t) (at_time (due t) rest s).
Proof.
  unfold step. destruct (next (timers s)) as [[t rest]|] eqn:E;
    [|discriminate].
  intros H; inversion H; subst; clear H.
  destruct (next_picks _ _ _ E) as [I [M [Sub Sup]]].
  exists t, rest. repeat split; auto.
Qed.

Lemma basic_Arrives (time : nat) (i : Input) (s s' : State) :
  step (Arrives time i) s = Some s' ->
  now s <= time /\
  (forall x, In x (timers s) -> time <= due x) /\
  s' = handle i (at_time time (timers s) s).
Proof.
  unfold step.
  destruct (now s <=? time)%nat eqn:N; simpl; [|discriminate].
  destruct (forallb _ _) eqn:F; [|discriminate].
  intros H; inversion H; subst. apply Nat.leb_le in N.
  split; [assumption|]. split; [|reflexivity].
  intros x I. rewrite forallb_forall in F. apply Nat.leb_le. now apply F.
Qed.

Lemma basic_invariant (allowed : Event -> Prop) (I : State -> Prop) :
  (forall e s s', allowed e -> I s -> step e s = Some s' -> I s') ->
  forall es s s', Forall allowed es -> I s -> run es s = Some s' -> I s'.
Proof.
  intros Hstep es; induction es as [|e es IH]; simpl; intros s s' A Hs R.
  - inversion R; subst; assumption.
  - inversion A as [|? ? Ae Aes]; subst.
    destruct (step e s) as [s1|] eqn:E; [|discriminate].
    exact (IH s1 s' Aes (Hstep e s s1 Ae Hs E) R).
Qed.

Lemma basic_always (I : State -> Prop) :
  (forall e s s', I s -> step e s = Some s' -> I s') ->
  forall es s s', I s -> run es s = Some s' -> I s'.
Proof.
  intros Hstep es s s' Hs R.
  apply (basic_invariant (fun _ => True) I) with (es := es) (s := s); auto.
  - intros e x x' _. apply Hstep.
  - apply Forall_forall; auto.
Qed.

(** No timer becomes overdue. *)
Lemma on_time_step (e : Event) (s s' : State) :
  on_time s -> step e s = Some s' -> on_time s'.
Proof.
  unfold on_time. intros O S. destruct e as [|time i].
  - apply basic_TimerFires in S as [t [rest [I [M [Sub [_ ->]]]]]].
    pose proof (O t I) as Ot.
    assert (B : forall x, In x rest -> Nat.max (now s) (due t) <= due x).
    { intros x Hx. specialize (M x (Sub x Hx)). lia. }
    destruct (callback t); unfold_basic; branches; intros tm H; members;
      subst; simpl; auto; lia.
  - apply basic_Arrives in S as [N [M ->]].
    assert (B : forall x, In x (timers s) -> Nat.max (now s) time <= due x).
    { intros x Hx. specialize (M x Hx). lia. }
    destruct i; unfold_basic; branches; intros tm H; members;
      subst; simpl; auto; lia.
Qed.

(** The flags only go up. *)
Lemma basic_ready_step (e : Event) (s s' : State) :
  session_ready s -> step e s = Some s' -> session_ready s'.
Proof.
  unfold session_ready. intros [A B] S. destruct e as [|time i].
  - apply basic_TimerFires in S as [t [rest [_ [_ [_ [_ ->]]]]]].
    destruct (callback t); unfold_basic; branches; split; auto.
  - apply basic_Arrives in S as [_ [_ ->]].
    destruct i; unfold_basic; branches; split; auto.
Qed.

Lemma basic_opening_step (time : nat) (e : Event) (s s' : State) :
  token_pending time s \/ session_ready s ->
  step e s = Some s' ->
  token_pending time s' \/ session_ready s'.
Proof.
  intros [[tm0 [tok0 [I0 [C0 [T0 D0]]]]]|Q] S;
    [|right; exact (basic_ready_step e s s' Q S)].
  destruct e as [|time' i].
  - apply basic_TimerFires in S as [t [rest [_ [_ [_ [Sup ->]]]]]].
    destruct (Sup tm0 I0) as [<-|I].
    + right. rewrite C0. unfold session_ready, fire, initializeDone,
        SupabaseService.initialize. rewrite T0. simpl. auto.
    + destruct (callback t) as [token| |userId];
        unfold session_ready, token_pending;
        unfold_basic; branches; auto;
        left; exists tm0, tok0; simpl; repeat split; auto;
        apply in_or_app; auto.
  - apply basic_Arrives in S as [_ [_ ->]].
    left. destruct i; unfold token_pending; unfold_basic; branches;
      exists tm0, tok0; simpl; repeat split; auto; apply in_or_app; auto.
Qed.

(** Without a credential message the handshake does not begin. *)
Lemma idle_step (e : Event) (s s' : State) :
  is_credential e = false -> idle s -> step e s = Some s' ->
  idle s' /\ service s' = service s.
Proof.
  intros Q [G F L T C] S. destruct e as [|time i].
  - apply basic_TimerFires in S as [t [rest [I [_ [Sub [_ ->]]]]]].
    destruct (T t I) as [userId ->].
    unfold fire, deleteUserDone, SupabaseService.deleteUser. simpl.
    rewrite G. simpl. split; [|reflexivity].
    constructor; simpl; auto.
  - apply basic_Arrives in S as [_ [_ ->]].
    destruct i as [data| |userId confirmed]; simpl in Q.
    + unfold handle, handleMessage. rewrite Q. simpl.
      split; [|reflexivity]. constructor; simpl; auto.
    + unfold handle, handleLoad. simpl.
      destruct (loadListener s); simpl; (split; [|reflexivity]);
        constructor; simpl; auto.
    + unfold handle, handleDeleteUser. destruct confirmed; simpl;
        (split; [|reflexivity]); constructor; simpl; auto;
        intros x H; members; subst; simpl; eauto.
Qed.

Lemma fetch_gated_step (e : Event) (s s' : State) :
  fetch_gated s -> step e s = Some s' -> fetch_gated s'.
Proof.
  intros [T C K] S.
  assert (finish :
    forall x : State,
      (forall tm, In tm (timers x) -> callback tm = GetUsersDone ->
                  SupabaseService.isInitialized (service x) = true) ->
      (In App.CallGetUsers (App.calls (out x)) ->
       SupabaseService.isInitialized (service x) = true) ->
      error_known x -> fetch_gated x) by (intros; constructor; assumption).
  destruct e as [|time i].
  - apply basic_TimerFires in S as [t [rest [I [_ [Sub [_ ->]]]]]].
    assert (T' : forall tm, In tm rest -> callback tm = GetUsersDone ->
                 SupabaseService.isInitialized (service s) = true)
      by (intros tm H; apply T, Sub, H).
    destruct (callback t) as [token| |userId] eqn:B.
    + unfold_basic; branches; apply finish; simpl;
        try (intros tm H E; members; subst;
             first [exact (T' tm H E) | reflexivity | discriminate]);
        try (intros H; members; subst;
             first [exact (C H) | reflexivity | discriminate]);
        try exact K; try (now left); now (right; left).
    + specialize (T t I B). unfold_basic. cbn [service at_time].
      rewrite T. simpl.
      apply finish; simpl;
        try (intros; reflexivity); exact K.
    + unfold_basic; branches; apply finish; simpl;
        try (intros tm H E; members; subst;
             first [exact (T' tm H E) | now apply negb_false_iff
                   | discriminate]);
        try (intros H; members; subst;
             first [exact (C H) | now apply negb_false_iff | discriminate]);
        try exact K; try (now left);
        right; right;
        first [exists SupabaseService.NotInitialized; reflexivity
              |exists (SupabaseService.NotFound userId); reflexivity].
  - apply basic_Arrives in S as [_ [_ ->]].
    destruct i as [data| |userId confirmed]; unfold_basic; branches;
      apply finish; simpl;
      try (intros tm H E; members; subst;
           first [exact (T tm H E) | discriminate]);
      try (intros H; members; subst; first [exact (C H) | discriminate]);
      exact K.
Qed.

Lemma app_loaded_step (e : Event) (s s' : State) :
  step e s = Some s' ->
  loadListener s' = loadListener s /\
  app_loaded_count s' =
    app_loaded_count s +
    (if loadListener s && is_Load e then 1 else 0).
Proof.
  intros S. unfold app_loaded_count. destruct e as [|time i].
  - apply basic_TimerFires in S as [t [rest [_ [_ [_ [_ ->]]]]]].
    destruct (callback t); unfold_basic; branches; split; auto;
      rewrite ?filter_app, ?length_app, ?andb_false_r; simpl; lia.
  - apply basic_Arrives in S as [_ [_ ->]].
    destruct i; unfold_basic; branches; split; auto;
      rewrite ?filter_app, ?length_app, ?andb_false_r; simpl; lia.
Qed.

(** When the component knows the session is open, it is. *)
Lemma plain_flag_step (e : Event) (s s' : State) :
  (isInitialized (react s) = true ->
   SupabaseService.isInitialized (service s) = true) ->
  step e s = Some s' ->
  isInitialized (react s') = true ->
  SupabaseService.isInitialized (service s') = true.
Proof.
  intros F S. destruct e as [|time i].
  - apply basic_TimerFires in S as [t [rest [_ [_ [_ [_ ->]]]]]].
    destruct (callback t); unfold_basic; branches; auto.
  - apply basic_Arrives in S as [_ [_ ->]].
    destruct i; unfold_basic; branches; auto.
Qed.

Lemma app_loaded_run (es : list Event) (s s' : State) :
  run es s = Some s' ->
  app_loaded_count s' =
    app_loaded_count s +
    (if loadListener s then length (filter is_Load es) else 0).
Proof.
  revert s; induction es as [|e es IH]; simpl; intros s R.
  - inversion R; subst. destruct (loadListener s'); lia.
  - destruct (step e s) as [s1|] eqn:S; [|discriminate].
    destruct (app_loaded_step e s s1 S) as [L C].
    rewrite (IH s1 R), C, L.
    destruct (loadListener s), (is_Load e); simpl; lia.
Qed.

(** X13.  The plain component has no fallback: as long as no credential
    message arrives, whatever else happens, the gate stays closed, the
    store keeps its records, [initialize] and [getUsers] are never called
    and the page shows the authorization spinner. *)
Theorem waits_for_credential (uuidv4 : nat -> string) (complete : bool)
    (es : list Event) (s : State) :
  Forall (fun e => is_credential e = false) es ->
  run es (mount (SupabaseService.initial uuidv4) complete) = Some s ->
  SupabaseService.isInitialized (service s) = false /\
  SupabaseService.store (service s) = SupabaseService.initialProfiles uuidv4 /\
  (forall c, In c (App.calls (out s)) ->
             exists userId, c = App.CallDeleteUser userId) /\
  renderContent s = Page.AwaitingAuthorization.
Proof.
  intros Q R.
  assert (H : idle s /\
              service s =
                service (mount (SupabaseService.initial uuidv4) complete)).
  { apply (basic_invariant (fun e => is_credential e = false)
             (fun x => idle x /\
                       service x =
                         service (mount (SupabaseService.initial uuidv4)
                                    complete)))
      with (es := es) (s := mount (SupabaseService.initial uuidv4) complete);
      auto.
    - intros e x x' A [Ix Ex] S.
      destruct (idle_step e x x' A Ix S) as [Ix' Ex'].
      split; [exact Ix' | congruence].
    - split; [|reflexivity].
      unfold mount, alloc, handleLoad.
      destruct complete; constructor; simpl; auto; contradiction. }
  destruct H as [[G F L T C] E].
  split; [exact G|]. split.
  - rewrite E. unfold mount, alloc, handleLoad. destruct complete; reflexivity.
  - split; [exact C|]. unfold renderContent. now rewrite F, L.
Qed.

(** An instance: a delete click, the load event and a foreign message. *)
Lemma waits_for_credential_witness :
  exists s,
    run [Arrives 100 (DeleteUser (Handshake.demo_uuid 0) true); TimerFires;
         Arrives 2000 Load;
         Arrives 3000 (Message {| App.data_type := Js.Str "USER_DELETED";
                                  App.data_token := Js.Undefined |})]
        (mount (SupabaseService.initial Handshake.demo_uuid) false) = Some s /\
    App.calls (out s) = [App.CallDeleteUser (Handshake.demo_uuid 0)] /\
    renderContent s = Page.AwaitingAuthorization.
Proof.
  eexists. split; [vm_compute; reflexivity|]. split; [reflexivity|].
  match goal with |- renderContent ?s = _ =>
    apply (waits_for_credential Handshake.demo_uuid false
             [Arrives 100 (DeleteUser (Handshake.demo_uuid 0) true);
              TimerFires; Arrives 2000 Load;
              Arrives 3000
                (Message {| App.data_type := Js.Str "USER_DELETED";
                            App.data_token := Js.Undefined |})] s)
  end.
  - repeat constructor.
  - vm_compute. reflexivity.
Defined.

(** X14.  When the [deleteUser] promise rejects, the plain component
    stores the failure in the page error and raises an [alert]; it posts
    nothing, calls nothing and starts no reload; and unless a load is in
    progress, the page shows the error instead of the table. *)
Theorem plain_delete_failure (userId : string) (s : State)
    (e : SupabaseService.Error) (svc : SupabaseService.t) :
  SupabaseService.deleteUser userId (service s) =
    (SupabaseService.Rejected e, svc) ->
  let s' := fire (DeleteUserDone userId) s in
  (e = SupabaseService.NotInitialized \/ e = SupabaseService.NotFound userId) /\
  error (react s') =
    Some ("Failed to delete user: " ++ SupabaseService.message e)%string /\
  alerts s' = alerts s ++ [("Error: " ++ SupabaseService.message e)%string] /\
  App.posted (out s') = App.posted (out s) /\
  App.calls (out s') = App.calls (out s) /\
  timers s' = timers s /\
  users (react s') = users (react s) /\
  isLoading (react s') = isLoading (react s) /\
  (isLoading (react s) = false ->
   renderContent s' =
     Page.ErrorBox
       ("Failed to delete user: " ++ SupabaseService.message e)%string).
Proof.
  intros D s'. subst s'. unfold fire, deleteUserDone. rewrite D.
  split.
  - unfold SupabaseService.deleteUser, array_filter, alloc in D.
    destruct (negb (SupabaseService.isInitialized (service s)));
      [inversion D; auto|].
    match type of D with
    | (if ?c then _ else _) = _ => destruct c; inversion D; auto
    end.
  - simpl. repeat (split; [reflexivity|]).
    intros L. unfold renderContent. simpl. rewrite L, andb_false_r.
    reflexivity.
Qed.

(** An instance: a deletion confirmed before the session is open. *)
Lemma plain_delete_failure_witness :
  let s := mount (SupabaseService.initial Handshake.demo_uuid) true in
  alerts (fire (DeleteUserDone "7") s) =
    ["Error: Supabase client not initialized."] /\
  error (react (fire (DeleteUserDone "7") s)) =
    Some "Failed to delete user: Supabase client not initialized.".
Proof.
  intros s.
  destruct (plain_delete_failure "7" s SupabaseService.NotInitialized
              (service s)) as [_ [E [A _]]].
  - reflexivity.
  - split; [rewrite A | rewrite E]; reflexivity.
Defined.

(** X15.  When the [deleteUser] promise resolves, the plain component
    posts [USER_DELETED] to the parent window, framed or not, and starts
    exactly one reload of the list; no alert is raised and the page error
    is cleared; the record is gone from the store. *)
Theorem plain_delete_success (userId : string) (s : State)
    (svc : SupabaseService.t) :
  SupabaseService.deleteUser userId (service s) =
    (SupabaseService.Resolved tt, svc) ->
  let s' := fire (DeleteUserDone userId) s in
  service s' = svc /\
  ~ In userId (map id (SupabaseService.store (service s'))) /\
  App.posted (out s') = App.posted (out s) ++ [App.USER_DELETED userId] /\
  App.calls (out s') = App.calls (out s) ++ [App.CallGetUsers] /\
  timers s' =
    timers s ++ [{| due := now s + SupabaseService.getUsers_delay;
                    callback := GetUsersDone |}] /\
  isLoading (react s') = true /\
  error (react s') = None /\
  alerts s' = alerts s /\
  users (react s') = users (react s).
Proof.
  intros D s'. subst s'. unfold fire, deleteUserDone. rewrite D.
  destruct (SupabaseService.isInitialized (service s)) eqn:R;
    [|unfold SupabaseService.deleteUser in D; rewrite R in D; discriminate].
  rewrite deleteUser_ready in D by assumption. cbv zeta in D.
  destruct (_ <? _)%nat eqn:Lt in D; inversion D; subst; clear D.
  unfold loadUsers. cbn -[SupabaseService.store filter read].
  split; [reflexivity|]. split; [|repeat split; reflexivity].
  unfold SupabaseService.store at 1.
  cbn [SupabaseService.heap SupabaseService.mockProfiles]. rewrite read_new.
  intros I. apply in_map_iff in I as [p [E I]].
  apply filter_In in I as [_ I].
  rewrite E, String.eqb_refl in I. discriminate.
Qed.

(** An instance: alice is deleted from an open store. *)
Lemma plain_delete_success_witness :
  let opened :=
    with_service
      (snd (SupabaseService.initialize (Js.Str "token")
              (SupabaseService.initial Handshake.demo_uuid)))
      (mount (SupabaseService.initial Handshake.demo_uuid) false) in
  App.posted (out (fire (DeleteUserDone (Handshake.demo_uuid 0)) opened)) =
    [App.USER_DELETED (Handshake.demo_uuid 0)].
Proof.
  intros opened.
  destruct (plain_delete_success (Handshake.demo_uuid 0) opened
              (snd (SupabaseService.deleteUser (Handshake.demo_uuid 0)
                      (service opened)))) as [_ [_ [P _]]].
  - vm_compute. reflexivity.
  - rewrite P. reflexivity.
Defined.

(** X16.  A credential message with a token opens the session of the
    plain component: whatever happened before and whatever follows, once
    the clock has passed the arrival by the latency of [initialize], the
    gate is open and the component knows it. *)
Theorem plain_credential_opens_session (svc : SupabaseService.t)
    (complete : bool) (before es : list Event) (time : nat)
    (token : Js.Value) (s0 s : State) :
  run before (mount svc complete) = Some s0 ->
  Js.truthy token = true ->
  run (Arrives time (Message (Handshake.auth_token token)) :: es) s0
    = Some s ->
  time + SupabaseService.initialize_delay < now s ->
  session_ready s.
Proof.
  intros R0 T R L.
  assert (F0 : isInitialized (react s0) = true ->
               SupabaseService.isInitialized (service s0) = true).
  { apply (basic_always
             (fun x => isInitialized (react x) = true ->
                       SupabaseService.isInitialized (service x) = true))
      with (es := before) (s := mount svc complete); auto.
    - intros e x x'. apply plain_flag_step.
    - unfold mount, alloc, handleLoad. destruct complete; discriminate. }
  cbn [run] in R.
  destruct (step (Arrives time (Message (Handshake.auth_token token))) s0)
    as [s1|] eqn:S; [|discriminate].
  assert (O0 : on_time s0).
  { apply (basic_always on_time)
      with (es := before) (s := mount svc complete); auto.
    - intros e x x'. apply on_time_step.
    - unfold mount, alloc, handleLoad, on_time.
      destruct complete; simpl; contradiction. }
  assert (O1 := on_time_step _ _ _ O0 S).
  assert (P : token_pending (time + SupabaseService.initialize_delay) s1 \/
              session_ready s1).
  { apply basic_Arrives in S as [N [_ ->]].
    destruct (isInitialized (react s0)) eqn:G.
    - right. unfold session_ready, handle, handleMessage.
      simpl. rewrite G. simpl. split; auto.
    - left. unfold token_pending, handle, handleMessage.
      simpl. rewrite G. simpl.
      eexists _, token. split; [apply in_or_app; right; left; reflexivity|].
      simpl. repeat split; auto. rewrite Nat.max_r by assumption.
      reflexivity. }
  assert (Q : on_time s /\
              (token_pending (time + SupabaseService.initialize_delay) s \/
               session_ready s)).
  { apply (basic_always
             (fun x => on_time x /\
                       (token_pending
                          (time + SupabaseService.initialize_delay) x \/
                        session_ready x)))
      with (es := es) (s := s1); auto.
    intros e x x' [Ox Px] Sx.
    split; [exact (on_time_step e x x' Ox Sx)|].
    exact (basic_opening_step _ e x x' Px Sx). }
  destruct Q as [O [[tm [tok [I [_ [_ D]]]]]|Q]]; [|exact Q].
  pose proof (O tm I). lia.
Qed.

(** An instance: a credential at 400 ms, the session is open at 900. *)
Lemma plain_credential_opens_session_witness :
  exists s,
    run [Arrives 400 (Message (Handshake.auth_token (Js.Str "token")));
         TimerFires; TimerFires]
        (mount (SupabaseService.initial Handshake.demo_uuid) true) = Some s /\
    now s = 1700 /\ session_ready s.
Proof.
  eexists. split; [vm_compute; reflexivity|]. split; [reflexivity|].
  match goal with |- session_ready ?s =>
    apply (plain_credential_opens_session
             (SupabaseService.initial Handshake.demo_uuid) true []
             [TimerFires; TimerFires] 400 (Js.Str "token")
             (mount (SupabaseService.initial Handshake.demo_uuid) true) s)
  end.
  - reflexivity.
  - reflexivity.
  - vm_compute. reflexivity.
  - vm_compute. lia.
Defined.

(** X17.  The plain component announces itself with one [APP_LOADED] per
    [load] event it hears, and with exactly one, at mount, when the
    document was already complete; opening the session posts no second
    one. *)
Theorem plain_app_loaded (svc : SupabaseService.t) (complete : bool)
    (es : list Event) (s : State) :
  run es (mount svc complete) = Some s ->
  app_loaded_count s =
    if complete then 1 else length (filter is_Load es).
Proof.
  intros R. rewrite (app_loaded_run es _ s R).
  unfold mount, alloc, handleLoad, app_loaded_count.
  destruct complete; reflexivity.
Qed.

(** An instance: the session is opened after the page was complete. *)
Lemma plain_app_loaded_witness :
  exists s,
    run [Arrives 400 (Message (Handshake.auth_token (Js.Str "token")));
         TimerFires; TimerFires; Arrives 2000 Load]
        (mount (SupabaseService.initial Handshake.demo_uuid) true) = Some s /\
    session_ready s /\ app_loaded_count s = 1.
Proof.
  eexists. split; [vm_compute; reflexivity|].
  split; [split; reflexivity|].
  match goal with |- app_loaded_count ?s = _ =>
    exact (plain_app_loaded (SupabaseService.initial Handshake.demo_uuid) true
             [Arrives 400 (Message (Handshake.auth_token (Js.Str "token")));
              TimerFires; TimerFires; Arrives 2000 Load] s
             ltac:(vm_compute; reflexivity))
  end.
Defined.

(** X18.  The plain component never fetches the list before the gate is
    open: [getUsers] is not called, and is not in flight, while the
    service is uninitialized; so a load never fails, and the page error is
    never a load failure. *)
Theorem plain_load_never_fails (uuidv4 : nat -> string) (complete : bool)
    (es : list Event) (s : State) :
  run es (mount (SupabaseService.initial uuidv4) complete) = Some s ->
  (SupabaseService.isInitialized (service s) = false ->
   ~ In App.CallGetUsers (App.calls (out s)) /\
   forall tm, In tm (timers s) -> callback tm <> GetUsersDone) /\
  forall m, error (react s) <> Some ("Failed to load users: " ++ m)%string.
Proof.
  intros R.
  assert (G : fetch_gated s).
  { apply (basic_always fetch_gated)
      with (es := es) (s := mount (SupabaseService.initial uuidv4) complete);
      auto.
    - intros e x x'. apply fetch_gated_step.
    - unfold mount, alloc, handleLoad.
      destruct complete; constructor; simpl; try contradiction;
        now left. }
  destruct G as [T C K]. split.
  - intros Z. split.
    + intros H. specialize (C H). congruence.
    + intros tm I B. specialize (T tm I B). congruence.
  - intros m H. destruct K as [K|[K|[e K]]]; rewrite K in H;
      simpl in H; discriminate.
Qed.

(** An instance: a credential without token, then a deletion. *)
Lemma plain_load_never_fails_witness :
  exists s,
    run [Arrives 10 (Message (Handshake.auth_token Js.Null)); TimerFires;
         Arrives 700 (DeleteUser (Handshake.demo_uuid 0) true); TimerFires]
        (mount (SupabaseService.initial Handshake.demo_uuid) true) = Some s /\
    ~ In App.CallGetUsers (App.calls (out s)) /\
    error (react s) =
      Some "Failed to delete user: Supabase client not initialized.".
Proof.
  eexists. split; [vm_compute; reflexivity|].
  match goal with |- ~ In _ (App.calls (out ?s)) /\ _ =>
    destruct (plain_load_never_fails Handshake.demo_uuid true
                [Arrives 10 (Message (Handshake.auth_token Js.Null));
                 TimerFires;
                 Arrives 700 (DeleteUser (Handshake.demo_uuid 0) true);
                 TimerFires] s) as [A _]
  end.
  - vm_compute. reflexivity.
  - split; [exact (proj1 (A eq_refl)) | reflexivity].
Defined.

End Basic.
